(** * bw-writer: the MCP dispatch engine and the LLM invocation core

    A shallow embedding of
    - [McpServer] (the protocol dispatch engine of the framework utilities:
      [registerTool], [addRateLimiter], [validateApiKeys], the four envelope
      formatters, [findTool], [parseMcpRequest], [executeToolCall], the
      JSON-RPC method switch and [handleListResources]), and
    - [src/framework/llm-utils.js] ([readKey], [callLLM], the three provider
      handlers and [extractJson]),
    followed by the properties of the specification that concern them.

    JavaScript values are modelled by [JsVal]; numbers are integers (a
    number of magnitude above 2^53 stands for a double, and the arithmetic
    of the modelled code, on timestamps and counters, is taken below that
    bound) and strings are sequences of code units below 256.  Asynchronous functions
    are modelled by their completion: [Return v] for a resolved promise,
    [Throw e] for a rejected one.  Logging goes to a side channel and is
    left out. *)

From Stdlib Require Import ZArith String Ascii List Bool Lia DecimalString.
From stdpp Require Import base option list strings gmap.

Set Warnings "-register-all".

Open Scope string_scope.
Open Scope list_scope.
Open Scope Z_scope.

(* ===================================================================== *)
(** ** JavaScript values *)
(* ===================================================================== *)

Module Js.

Inductive JsVal : Type :=
| JUndefined
| JNull
| JBool (b : bool)
| JNum (n : Z)
| JStr (s : string)
| JArr (items : list JsVal)
| JObj (fields : list (string * JsVal)).

(** The completion of a call: a value, or a thrown value. *)
Inductive Completion (A : Type) : Type :=
| Return (a : A)
| Throw (e : JsVal).
Arguments Return {A} a.
Arguments Throw {A} e.

Definition bind {A B} (c : Completion A) (k : A -> Completion B) : Completion B :=
  match c with
  | Return a => k a
  | Throw e => Throw e
  end.

(** [ToBoolean]. *)
Definition truthy (v : JsVal) : bool :=
  match v with
  | JUndefined | JNull => false
  | JBool b => b
  | JNum n => negb (n =? 0)
  | JStr EmptyString => false
  | JStr _ => true
  | JArr _ | JObj _ => true
  end.

Definition nullish (v : JsVal) : bool :=
  match v with
  | JUndefined | JNull => true
  | _ => false
  end.

(** [a || b] on values. *)
Definition js_or (a b : JsVal) : JsVal := if truthy a then a else b.

Fixpoint assoc (k : string) (fs : list (string * JsVal)) : option JsVal :=
  match fs with
  | [] => None
  | (k', v) :: rest => if String.eqb k k' then Some v else assoc k rest
  end.

(** [o.k] for a value [o] that is neither [null] nor [undefined]; the keys
    read by the modelled code ([name], [message], [type], [error], ...) are
    not built-in properties of strings, numbers or arrays, which therefore
    answer [undefined]. *)
Definition getProp (v : JsVal) (k : string) : JsVal :=
  match v with
  | JObj fs => default JUndefined (assoc k fs)
  | _ => JUndefined
  end.

(** [k in o], for own properties of an object. *)
Definition hasProp (v : JsVal) (k : string) : bool :=
  match v with
  | JObj fs => match assoc k fs with
               | Some _ => true
               | None => false
               end
  | _ => false
  end.

(** [o?.k]. *)
Definition optProp (v : JsVal) (k : string) : JsVal :=
  if nullish v then JUndefined else getProp v k.

Definition char_string (c : ascii) : string := String c EmptyString.

Fixpoint mapString (f : ascii -> ascii) (s : string) : string :=
  match s with
  | EmptyString => EmptyString
  | String c rest => String (f c) (mapString f rest)
  end.

(** A text in which ['] stands for the double quote character. *)
Definition dq (s : string) : string :=
  mapString (fun c => if (c =? "'")%char then "034"%char else c) s.

(** [o?.[0]]. *)
Definition optFirst (v : JsVal) : JsVal :=
  match v with
  | JArr (x :: _) => x
  | JStr (String c _) => JStr (char_string c)
  | JObj fs => default JUndefined (assoc "0" fs)
  | _ => JUndefined
  end.

(** The decimal digits of an integer. *)
Definition decimal (n : Z) : string := NilEmpty.string_of_int (Z.to_int n).

Fixpoint stripZeros (s : string) : string :=
  match s with
  | EmptyString => EmptyString
  | String c rest =>
      match stripZeros rest with
      | EmptyString => if (c =? "0")%char then EmptyString else String c EmptyString
      | rest' => String c rest'
      end
  end.

(** The multiple of a power of ten, with as few digits as possible, that
    reads back as the double [n]: [p] runs down the powers of ten, and the
    numbers that round to [n] are those between [low4 / 4] and
    [high4 / 4], the bounds included when the mantissa of [n] is even.  Of
    two multiples of the same power the closer one is taken. *)
Fixpoint shortest (fuel : nat) (p n low4 high4 : Z) (inclusive : bool) : Z :=
  match fuel with
  | O => n
  | S fuel' =>
      let q := n / p in
      let c1 := q * p in
      let c2 := (q + 1) * p in
      let within c := if inclusive then (low4 <=? 4 * c) && (4 * c <=? high4)
                      else (low4 <? 4 * c) && (4 * c <? high4) in
      match within c1, within c2 with
      | true, true =>
          if n - c1 <? c2 - n then c1
          else if c2 - n <? n - c1 then c2
          else if Z.even q then c1 else c2
      | true, false => c1
      | false, true => c2
      | false, false => shortest fuel' (p / 10) n low4 high4 inclusive
      end
  end.

Definition roundTrip (n : Z) : Z :=
  let e2 := Z.log2 n - 52 in
  let m := n / 2 ^ e2 in
  let gap := 2 ^ (e2 + 1) in
  let low4 := 4 * n - (if m =? 2 ^ 52 then 2 ^ e2 else gap) in
  let high4 := 4 * n + gap in
  let nd := String.length (decimal n) in
  shortest nd (10 ^ Z.of_nat (nd - 1)) n low4 high4 (Z.even m).

(** The exponent notation [d.ddde+x] of the integer [c]. *)
Definition exponent (c : Z) : string :=
  let digits := decimal c in
  let e := Z.of_nat (String.length digits) - 1 in
  match stripZeros digits with
  | String d EmptyString => String d ("e+" +:+ decimal e)
  | String d rest => String d ("." +:+ rest +:+ "e+" +:+ decimal e)
  | EmptyString => digits
  end.

(** [Number::toString] for an integer of magnitude 2^53 or more: the
    shortest digits that read back as the same double, followed by zeros
    below 1e21 and in exponent notation from there on. *)
Definition large (n : Z) : string :=
  let c := roundTrip n in
  if (String.length (decimal c) <=? 21)%nat then decimal c else exponent c.

(** [String(n)] for an integer number [n]. *)
Definition Z_to_string (n : Z) : string :=
  if Z.abs n <? 2 ^ 53 then decimal n
  else if n <? 0 then "-" +:+ large (- n) else large n.

(** The text of [String(v)] for a value whose conversion does not throw
    (see [template] for the conversion itself). *)
Fixpoint toStringJs (v : JsVal) : string :=
  match v with
  | JUndefined => "undefined"
  | JNull => "null"
  | JBool true => "true"
  | JBool false => "false"
  | JNum n => Z_to_string n
  | JStr s => s
  | JArr items =>
      (fix join (l : list JsVal) : string :=
         match l with
         | [] => EmptyString
         | x :: rest =>
             (if nullish x then EmptyString else toStringJs x)
             +:+ match rest with
                 | [] => EmptyString
                 | _ => "," +:+ join rest
                 end
         end) items
  | JObj _ => "[object Object]"
  end.

(** [Object.keys(v).length] for a value that is neither [null] nor
    [undefined]. *)
Definition keysLength (v : JsVal) : nat :=
  match v with
  | JObj fs => length fs
  | JArr items => length items
  | JStr s => String.length s
  | _ => 0%nat
  end.

Fixpoint indexed (i : nat) (items : list JsVal) : list (string * JsVal) :=
  match items with
  | [] => []
  | x :: rest => (decimal (Z.of_nat i), x) :: indexed (S i) rest
  end.

Fixpoint chars (s : string) : list JsVal :=
  match s with
  | EmptyString => []
  | String c rest => JStr (char_string c) :: chars rest
  end.

(** The own enumerable properties copied by [{...v}]: the fields of an
    object, the elements of an array and the characters of a string under
    their indices, and nothing for the other values. *)
Definition spread (v : JsVal) : list (string * JsVal) :=
  match v with
  | JObj fs => fs
  | JArr items => indexed 0 items
  | JStr s => indexed 0 (chars s)
  | _ => []
  end.

(** [o[k] = v] on the field list of an object: an existing key keeps its
    place. *)
Fixpoint setField (k : string) (v : JsVal) (fs : list (string * JsVal))
  : list (string * JsVal) :=
  match fs with
  | [] => [(k, v)]
  | (k', v') :: rest =>
      if String.eqb k k' then (k, v) :: rest else (k', v') :: setField k v rest
  end.

(** [new Error(message)], possibly renamed. *)
Definition mkError (name message : string) : JsVal :=
  JObj [("name", JStr name); ("message", JStr message)].

(** The [TypeError] raised by reading property [k] of [null] or
    [undefined]; the wording of the message is the engine's. *)
Definition typeErrorRead (v : JsVal) (k : string) : JsVal :=
  mkError "TypeError"
    ("Cannot read properties of " +:+ toStringJs v +:+ " (reading '" +:+ k +:+ "')").

(** [o.k], which throws on [null] and [undefined]. *)
Definition readProp (v : JsVal) (k : string) : Completion JsVal :=
  if nullish v then Throw (typeErrorRead v k) else Return (getProp v k).

(** The conversion of [v] to a string throws.  An object with an own
    property [toString] has no callable [toString] (the values of the
    embedding are not functions), and [Object.prototype.valueOf] answers
    the object itself, so [ToPrimitive] gives up; an array converts its
    elements other than [null] and [undefined] in turn. *)
Fixpoint throwsToString (v : JsVal) : bool :=
  match v with
  | JObj fields =>
      match assoc "toString" fields with
      | Some _ => true
      | None => false
      end
  | JArr items =>
      (fix any (l : list JsVal) : bool :=
         match l with
         | [] => false
         | x :: rest => throwsToString x || any rest
         end) items
  | _ => false
  end.

(** The conversion made by a template literal [`${v}`] and by a property
    key [o[v]]. *)
Definition template (v : JsVal) : Completion string :=
  if throwsToString v
  then Throw (mkError "TypeError" "Cannot convert object to primitive value")
  else Return (toStringJs v).

(** The property names that a plain object inherits from
    [Object.prototype]. *)
Definition objectPrototypeKeys : list string :=
  [ "constructor"; "__defineGetter__"; "__defineSetter__"; "hasOwnProperty";
    "__lookupGetter__"; "__lookupSetter__"; "isPrototypeOf"; "propertyIsEnumerable";
    "toString"; "valueOf"; "__proto__"; "toLocaleString" ].

Definition isStr (v : JsVal) (s : string) : bool :=
  match v with
  | JStr s' => String.eqb s' s
  | _ => false
  end.

Definition isTrue (v : JsVal) : bool :=
  match v with
  | JBool true => true
  | _ => false
  end.

(** [s] without its prefix [p], when it starts with [p]. *)
Fixpoint stripPrefix (p s : string) : option string :=
  match p with
  | EmptyString => Some s
  | String a p' =>
      match s with
      | EmptyString => None
      | String b s' => if (a =? b)%char then stripPrefix p' s' else None
      end
  end.

End Js.
Export Js.

(* ===================================================================== *)
(** ** A reader for JSON texts *)
(* ===================================================================== *)

(** [Json.parse] stands for [JSON.parse] where a concrete text is parsed:
    [None] is a [SyntaxError].  It reads the JSON grammar restricted to
    what [JsVal] represents: number literals are integers (a fraction or an
    exponent is refused) and [\u] escapes denote code units below 256. *)
Module Json.

Definition isWs (c : ascii) : bool :=
  let n := N_of_ascii c in
  ((n =? 32) || (n =? 9) || (n =? 10) || (n =? 13))%N.

Fixpoint skipWs (s : string) : string :=
  match s with
  | EmptyString => EmptyString
  | String c rest => if isWs c then skipWs rest else s
  end.

Definition isDigit (c : ascii) : bool :=
  let n := N_of_ascii c in ((48 <=? n) && (n <=? 57))%N.

Definition digitVal (c : ascii) : Z := Z.of_N (N_of_ascii c) - 48.

(** The value and the length of the longest run of digits at the head of
    [s], and what follows it. *)
Fixpoint digits (s : string) (acc : Z) (count : nat) : Z * nat * string :=
  match s with
  | String c rest =>
      if isDigit c then digits rest (10 * acc + digitVal c) (S count)
      else (acc, count, s)
  | EmptyString => (acc, count, s)
  end.

Definition startsFraction (s : string) : bool :=
  match s with
  | String c _ => (c =? ".")%char || (c =? "e")%char || (c =? "E")%char
  | EmptyString => false
  end.

Definition parseNumber (s : string) : option (JsVal * string) :=
  let (negative, body) :=
    match s with
    | String c rest => if (c =? "-")%char then (true, rest) else (false, s)
    | EmptyString => (false, s)
    end in
  match body with
  | String c _ =>
      if isDigit c then
        let '(value, count, rest) := digits body 0 0 in
        if (c =? "0")%char && (1 <? count)%nat then None
        else if startsFraction rest then None
        else Some (JNum (if negative then - value else value), rest)
      else None
  | EmptyString => None
  end.

Definition hexVal (c : ascii) : option N :=
  let n := N_of_ascii c in
  if ((48 <=? n) && (n <=? 57))%N then Some (n - 48)%N
  else if ((97 <=? n) && (n <=? 102))%N then Some (n - 87)%N
  else if ((65 <=? n) && (n <=? 70))%N then Some (n - 55)%N
  else None.

Definition unicodeEscape (a b c d : ascii) : option ascii :=
  match hexVal a, hexVal b, hexVal c, hexVal d with
  | Some x, Some y, Some z, Some w =>
      let code := (((x * 16 + y) * 16 + z) * 16 + w)%N in
      if (code <? 256)%N then Some (ascii_of_N code) else None
  | _, _, _, _ => None
  end.

Definition simpleEscape (e : ascii) : option ascii :=
  if (e =? "034")%char then Some "034"%char
  else if (e =? "\")%char then Some "\"%char
  else if (e =? "/")%char then Some "/"%char
  else if (e =? "b")%char then Some "008"%char
  else if (e =? "f")%char then Some "012"%char
  else if (e =? "n")%char then Some "010"%char
  else if (e =? "r")%char then Some "013"%char
  else if (e =? "t")%char then Some "009"%char
  else None.

(** The characters of a string literal whose opening quote has been read,
    and what follows its closing quote. *)
Fixpoint parseString (s : string) : option (string * string) :=
  match s with
  | EmptyString => None
  | String c rest =>
      if (c =? "034")%char then Some (EmptyString, rest)
      else if (c =? "\")%char then
        match rest with
        | String e rest' =>
            if (e =? "u")%char then
              match rest' with
              | String h1 (String h2 (String h3 (String h4 rest''))) =>
                  match unicodeEscape h1 h2 h3 h4, parseString rest'' with
                  | Some u, Some (str, after) => Some (String u str, after)
                  | _, _ => None
                  end
              | _ => None
              end
            else
              match simpleEscape e, parseString rest' with
              | Some u, Some (str, after) => Some (String u str, after)
              | _, _ => None
              end
        | EmptyString => None
        end
      else if (N_of_ascii c <? 32)%N then None
      else
        match parseString rest with
        | Some (str, after) => Some (String c str, after)
        | None => None
        end
  end.

Definition literal (word : string) (v : JsVal) (s : string) : option (JsVal * string) :=
  match stripPrefix word s with
  | Some rest => Some (v, rest)
  | None => None
  end.

Fixpoint parseValue (fuel : nat) (s : string) : option (JsVal * string) :=
  match fuel with
  | O => None
  | S fuel' =>
      match skipWs s with
      | EmptyString => None
      | String c rest as s' =>
          if (c =? "{")%char then
            match skipWs rest with
            | String c' rest' =>
                if (c' =? "}")%char then Some (JObj [], rest')
                else parseMembers fuel' rest []
            | EmptyString => None
            end
          else if (c =? "[")%char then
            match skipWs rest with
            | String c' rest' =>
                if (c' =? "]")%char then Some (JArr [], rest')
                else parseElements fuel' rest []
            | EmptyString => None
            end
          else if (c =? "034")%char then
            match parseString rest with
            | Some (str, after) => Some (JStr str, after)
            | None => None
            end
          else if (c =? "t")%char then literal "true" (JBool true) s'
          else if (c =? "f")%char then literal "false" (JBool false) s'
          else if (c =? "n")%char then literal "null" JNull s'
          else parseNumber s'
      end
  end
with parseMembers (fuel : nat) (s : string) (acc : list (string * JsVal))
  : option (JsVal * string) :=
  match fuel with
  | O => None
  | S fuel' =>
      match skipWs s with
      | String c rest =>
          if (c =? "034")%char then
            match parseString rest with
            | Some (k, after) =>
                match skipWs after with
                | String colon after' =>
                    if (colon =? ":")%char then
                      match parseValue fuel' after' with
                      | Some (v, after'') =>
                          match skipWs after'' with
                          | String sep more =>
                              if (sep =? ",")%char
                              then parseMembers fuel' more (setField k v acc)
                              else if (sep =? "}")%char
                              then Some (JObj (setField k v acc), more)
                              else None
                          | EmptyString => None
                          end
                      | None => None
                      end
                    else None
                | EmptyString => None
                end
            | None => None
            end
          else None
      | EmptyString => None
      end
  end
with parseElements (fuel : nat) (s : string) (acc : list JsVal)
  : option (JsVal * string) :=
  match fuel with
  | O => None
  | S fuel' =>
      match parseValue fuel' s with
      | Some (v, after) =>
          match skipWs after with
          | String sep more =>
              if (sep =? ",")%char then parseElements fuel' more (acc ++ [v])
              else if (sep =? "]")%char then Some (JArr (acc ++ [v]), more)
              else None
          | EmptyString => None
          end
      | None => None
      end
  end.

Definition parse (text : string) : option JsVal :=
  match parseValue (2 * String.length text + 2) text with
  | Some (v, rest) =>
      match skipWs rest with
      | EmptyString => Some v
      | String _ _ => None
      end
  | None => None
  end.

End Json.

(* ===================================================================== *)
(** ** The protocol dispatch engine: [McpServer] *)
(* ===================================================================== *)

(** The environment [process.env] is a [gmap string string] throughout. *)

(** A tool definition, as [createTool] returns it. *)
Module Tool.
Record t : Type := mk {
  name : string;
  description : string;
  parameters : JsVal;
  handler : JsVal -> Completion JsVal
}.
End Tool.

(** The server options, after the constructor has applied its defaults. *)
Module Options.
Record t : Type := mk {
  serverName : string;
  version : string;
  vendor : string;
  protocolVersion : string;
  mockMode : bool;
  debug : bool;
  getMockData : option (JsVal -> JsVal -> Completion JsVal)
}.

(** The defaults of the constructor. *)
Definition defaults : t :=
  {| serverName := "mcp-server"; version := "1.0.0"; vendor := EmptyString;
     protocolVersion := "1.0"; mockMode := false; debug := false;
     getMockData := None |}.
End Options.

(** The closure state of one rate limiter created by [addRateLimiter]. *)
Module RateLimiter.
Record t : Type := mk {
  toolName : string;
  windowMs : Z;
  maxRequests : Z;
  requestCounts : gmap string (list Z);
  errors : gmap string JsVal
}.

Definition key (rl : t) (clientId : string) : string :=
  toolName rl +:+ ":" +:+ clientId.

(** [Math.ceil(a / b)] for integers, [b > 0]. *)
Definition ceilDiv (a b : Z) : Z := - ((- a) / b).

(** The text of [Math.ceil(waitMs / 1000)] where
    [waitMs = Math.min(...recent) + windowMs - now]; [Math.min()] of no
    argument is [Infinity]. *)
Definition waitSeconds (recent : list Z) (windowMs now : Z) : string :=
  match recent with
  | [] => "Infinity"
  | time :: others =>
      let oldestRequest := foldr Z.min time others in
      let resetTime := oldestRequest + windowMs in
      let waitMs := resetTime - now in
      Z_to_string (ceilDiv waitMs 1000)
  end.

Definition exceeded (message : string) : JsVal :=
  JObj [("type", JStr "RateLimitExceeded"); ("message", JStr message)].

(** [check(clientId)] at time [now = Date.now()]: [true] when the limit is
    exceeded. *)
Definition check (rl : t) (now : Z) (clientId : string) : bool * t :=
  let key := key rl clientId in
  let recent :=
    filter (fun time => now - time < windowMs rl)
           (default [] (requestCounts rl !! key)) in
  if Z.of_nat (length recent) >=? maxRequests rl then
    let error :=
      exceeded ("Rate limit exceeded. Try again in "
                +:+ waitSeconds recent (windowMs rl) now +:+ " seconds.") in
    (true,
     {| toolName := toolName rl; windowMs := windowMs rl;
        maxRequests := maxRequests rl;
        requestCounts := <[key := recent]> (requestCounts rl);
        errors := <[key := error]> (errors rl) |})
  else
    (false,
     {| toolName := toolName rl; windowMs := windowMs rl;
        maxRequests := maxRequests rl;
        requestCounts := <[key := recent ++ [now]]> (requestCounts rl);
        errors := errors rl |}).

Definition getError (rl : t) (clientId : string) : JsVal :=
  default (exceeded "Rate limit exceeded") (errors rl !! key rl clientId).

(** [options.x || d] for an optional number. *)
Definition orDefault (o : option Z) (d : Z) : Z :=
  match o with
  | Some n => if n =? 0 then d else n
  | None => d
  end.

(** The limiter as [addRateLimiter(toolName, options)] creates it. *)
Definition create (toolName : string) (optWindowMs optMaxRequests : option Z) : t :=
  {| toolName := toolName;
     windowMs := orDefault optWindowMs 60000;
     maxRequests := orDefault optMaxRequests 10;
     requestCounts := ∅;
     errors := ∅ |}.
End RateLimiter.

Module Mcp.

Record McpServer : Type := mkServer {
  options : Options.t;
  tools : list Tool.t;
  apiKeySchemas : list (gmap string string -> option JsVal);
  rateLimiters : gmap string RateLimiter.t
}.

(** [new McpServer(options)]. *)
Definition create (options : Options.t) : McpServer :=
  {| options := options; tools := []; apiKeySchemas := []; rateLimiters := ∅ |}.

Definition nonEmpty (s : string) : bool :=
  match s with
  | EmptyString => false
  | _ => true
  end.

Definition registerTool (srv : McpServer) (tool : Tool.t) : Completion McpServer :=
  if negb (nonEmpty (Tool.name tool)) || negb (nonEmpty (Tool.description tool))
     || negb (truthy (Tool.parameters tool))
  then Throw (mkError "Error" "Invalid tool definition")
  else Return {| options := options srv; tools := tools srv ++ [tool];
                 apiKeySchemas := apiKeySchemas srv;
                 rateLimiters := rateLimiters srv |}.

Fixpoint registerTools (srv : McpServer) (ts : list Tool.t) : Completion McpServer :=
  match ts with
  | [] => Return srv
  | tool :: rest => bind (registerTool srv tool) (fun srv' => registerTools srv' rest)
  end.

Definition addApiKeyValidation (srv : McpServer)
    (schema : gmap string string -> option JsVal) : McpServer :=
  {| options := options srv; tools := tools srv;
     apiKeySchemas := apiKeySchemas srv ++ [schema];
     rateLimiters := rateLimiters srv |}.

Definition setRateLimiter (srv : McpServer) (name : string) (rl : RateLimiter.t)
  : McpServer :=
  {| options := options srv; tools := tools srv;
     apiKeySchemas := apiKeySchemas srv;
     rateLimiters := <[name := rl]> (rateLimiters srv) |}.

Definition addRateLimiter (srv : McpServer) (toolName : string)
    (optWindowMs optMaxRequests : option Z) : McpServer :=
  setRateLimiter srv toolName (RateLimiter.create toolName optWindowMs optMaxRequests).

(** What [this.rateLimiters[key]] finds: a limiter added by
    [addRateLimiter], a member that the table inherits, or nothing. *)
Inductive Slot : Type :=
| Own (limiter : RateLimiter.t)
| Inherited
| Absent.

(** The table [this.rateLimiters] is a plain object, so that a lookup also
    finds the members of [Object.prototype].  The assignment
    [this.rateLimiters['__proto__'] = limiter] makes the limiter the
    prototype of the table: it is read back under that key, which is how
    [rateLimiters] keeps it, and the table then inherits its members
    [check] and [getError] as well. *)
Definition inheritedKey (srv : McpServer) (key : string) : bool :=
  existsb (String.eqb key) objectPrototypeKeys
  || match rateLimiters srv !! "__proto__" with
     | Some _ => existsb (String.eqb key) ["check"; "getError"]
     | None => false
     end.

Definition lookupLimiter (srv : McpServer) (key : string) : Slot :=
  match rateLimiters srv !! key with
  | Some limiter => Own limiter
  | None => if inheritedKey srv key then Inherited else Absent
  end.

(** A schema of [apiKeySchemas] answers [None] when [schema.parse] accepts
    the environment and [Some m] when it throws, [m] being
    [error.errors[0].message]. *)
Fixpoint parseAll (schemas : list (gmap string string -> option JsVal))
    (env : gmap string string) : JsVal :=
  match schemas with
  | [] => JBool true
  | schema :: rest =>
      match schema env with
      | Some message => JObj [("error", message)]
      | None => parseAll rest env
      end
  end.

Definition validateApiKeys (srv : McpServer) (env : gmap string string) : JsVal :=
  if Options.mockMode (options srv) then JBool true
  else parseAll (apiKeySchemas srv) env.

Definition formatMcpError (srv : McpServer) (type message : JsVal) : JsVal :=
  JObj [("protocolVersion", JStr (Options.protocolVersion (options srv)));
        ("error", JObj [("type", type); ("message", message)])].

Definition formatMcpResponse (srv : McpServer) (result : JsVal) : JsVal :=
  JObj [("protocolVersion", JStr (Options.protocolVersion (options srv)));
        ("result", result)].

Definition formatJsonRpcError (id : JsVal) (code : Z) (message : JsVal) : JsVal :=
  JObj [("jsonrpc", JStr "2.0"); ("id", id);
        ("error", JObj [("code", JNum code); ("message", message)])].

Definition formatJsonRpcResponse (id : JsVal) (result : JsVal) : JsVal :=
  JObj [("jsonrpc", JStr "2.0"); ("id", id); ("result", result)].

Definition toolDefinition (tool : Tool.t) : JsVal :=
  JObj [("name", JStr (Tool.name tool));
        ("description", JStr (Tool.description tool));
        ("parameters", Tool.parameters tool)].

Definition getToolDefinitions (srv : McpServer) : JsVal :=
  JArr (map toolDefinition (tools srv)).

(** [this.tools.find(tool => tool.name === name) || null]. *)
Definition findTool (srv : McpServer) (name : JsVal) : option Tool.t :=
  List.find (fun tool => isStr name (Tool.name tool)) (tools srv).

(** The request record that [parseMcpRequest] builds. *)
Record Request : Type := mkRequest {
  isJsonRpc : bool;
  id : JsVal;
  method : JsVal;
  name : JsVal;
  parameters : JsVal
}.

Section Dispatch.

(** [JSON.parse]: [None] when it throws a [SyntaxError]. *)
Variable JSON_parse : string -> option JsVal.

(** [McpServer.handleReadResource(params, isJsonRpc, requestId)]: called by
    [executeToolCall], its body is not part of the sources at hand. *)
Variable handleReadResource : McpServer -> JsVal -> bool -> JsVal -> Completion JsVal.

Definition syntaxError : JsVal :=
  mkError "SyntaxError" "Unexpected token in JSON".

Definition parseMcpRequest (line : string) : Completion Request :=
  match JSON_parse line with
  | None => Throw syntaxError
  | Some data =>
      bind (readProp data "jsonrpc") (fun jsonrpc =>
        if isStr jsonrpc "2.0" then
          Return {| isJsonRpc := true;
                    id := getProp data "id";
                    method := getProp data "method";
                    name := optProp (getProp data "params") "name";
                    parameters := optProp (getProp data "params") "parameters" |}
        else
          Return {| isJsonRpc := false;
                    id := JUndefined;
                    method := JUndefined;
                    name := getProp data "name";
                    parameters := getProp data "parameters" |})
  end.

(** [const params = { ...parameters }; if (!params.serverName &&
    !params.ServerName) params.serverName = this.options.serverName]. *)
Definition withServerName (srv : McpServer) (parameters : JsVal) : JsVal :=
  let params := spread parameters in
  if negb (truthy (getProp (JObj params) "serverName"))
     && negb (truthy (getProp (JObj params) "ServerName"))
  then JObj (setField "serverName" (JStr (Options.serverName (options srv))) params)
  else JObj params.

Definition resource (uri name description : string) : JsVal :=
  JObj [("uri", JStr uri); ("name", JStr name);
        ("description", JStr description); ("parameters", JObj [])].

Definition handleListResources (srv : McpServer) (parameters : JsVal)
    (isJsonRpc : bool) (requestId : JsVal) : JsVal :=
  let resources :=
    JArr [resource "server-info" "Server Information"
                   "Basic information about the MCP server";
          resource "tool-list" "Available Tools"
                   "List of available tools on this server"] in
  let result := JObj [("resources", resources); ("cursor", JNull)] in
  if isJsonRpc then formatJsonRpcResponse requestId result
  else formatMcpResponse srv result.

(** The [try] block of [executeToolCall] once the handler (or the mock data
    provider) has returned [result]. *)
Definition formatResult (srv : McpServer) (isJsonRpc : bool) (requestId : JsVal)
    (result : JsVal) : JsVal :=
  if nullish result then
    if isJsonRpc
    then formatJsonRpcError requestId (-32000)
           (JStr "Internal error: No response from handler")
    else formatMcpError srv (JStr "InternalError") (JStr "No response from handler")
  else if truthy (getProp result "protocolVersion") && truthy (getProp result "error")
  then result
  else if truthy (getProp result "type") && truthy (getProp result "message") then
    if isJsonRpc
    then formatJsonRpcError requestId (-32000) (getProp result "message")
    else formatMcpError srv (getProp result "type") (getProp result "message")
  else
    if isJsonRpc
    then formatJsonRpcResponse requestId result
    else formatMcpResponse srv result.

(** The [catch] block of [executeToolCall]; its first statement reads
    [error.message] and converts it to a string for the debug line. *)
Definition formatThrown (srv : McpServer) (isJsonRpc : bool) (requestId : JsVal)
    (error : JsVal) : Completion JsVal :=
  bind (readProp error "message") (fun message =>
  bind (template message) (fun _ =>
    if isStr (getProp error "name") "InvalidParams" then
      Return (if isJsonRpc
              then formatJsonRpcError requestId (-32602) message
              else formatMcpError srv (JStr "InvalidRequest") message)
    else
      Return (if isJsonRpc
              then formatJsonRpcError requestId (-32000) message
              else formatMcpError srv (JStr "InternalError") message))).

(** The call made inside the [try] block: the mock data provider in mock
    mode when there is one, the handler of the tool otherwise. *)
Definition invoke (srv : McpServer) (tool : Tool.t) (name parameters : JsVal)
  : Completion JsVal :=
  match Options.mockMode (options srv), Options.getMockData (options srv) with
  | true, Some getMockData => getMockData name parameters
  | _, _ => Tool.handler tool parameters
  end.

(** [executeToolCall] from the API key validation on. *)
Definition validateAndRun (srv : McpServer) (env : gmap string string)
    (tool : Tool.t) (name parameters : JsVal) (isJsonRpc : bool) (requestId : JsVal)
  : Completion JsVal :=
  let validation := validateApiKeys srv env in
  if negb (isTrue validation) then
    Return (if isJsonRpc
            then formatJsonRpcError requestId (-32602) (getProp validation "error")
            else formatMcpError srv (JStr "MissingApiKey") (getProp validation "error"))
  else
    match invoke srv tool name parameters with
    | Return result => Return (formatResult srv isJsonRpc requestId result)
    | Throw error => formatThrown srv isJsonRpc requestId error
    end.

(** [executeToolCall(name, parameters, isJsonRpc, requestId)] at time [now],
    with the limiter of the tool read under the client id ['default'].
    Its first statement converts [name] to a string for the debug line.
    Outside mock mode, a table entry that is no limiter has no [check]
    to call.  The second component is the server after the call: only the
    state of the rate limiters changes. *)
Definition executeToolCall (srv : McpServer) (env : gmap string string) (now : Z)
    (name parameters : JsVal) (isJsonRpc : bool) (requestId : JsVal)
  : Completion JsVal * McpServer :=
  match template name with
  | Throw e => (Throw e, srv)
  | Return text =>
  if isStr name "list_resources" then
    (Return (handleListResources srv (withServerName srv parameters) isJsonRpc requestId),
     srv)
  else if isStr name "read_resource" then
    (handleReadResource srv (withServerName srv parameters) isJsonRpc requestId, srv)
  else
    match findTool srv name with
    | None =>
        (Return (if isJsonRpc
                 then formatJsonRpcError requestId (-32601)
                        (JStr ("Tool not found: " +:+ text))
                 else formatMcpError srv (JStr "UnknownFunction")
                        (JStr ("Tool not found: " +:+ text))),
         srv)
    | Some tool =>
        match lookupLimiter srv text, Options.mockMode (options srv) with
        | Own limiter, false =>
            let (limited, limiter') := RateLimiter.check limiter now "default" in
            let srv' := setRateLimiter srv text limiter' in
            if limited then
              let error := RateLimiter.getError limiter' "default" in
              (Return (if isJsonRpc
                       then formatJsonRpcError requestId (-32000) (getProp error "message")
                       else formatMcpError srv (getProp error "type")
                              (getProp error "message")),
               srv')
            else
              (validateAndRun srv' env tool name parameters isJsonRpc requestId, srv')
        | Inherited, false =>
            (Throw (mkError "TypeError"
                      "this.rateLimiters[name].check is not a function"),
             srv)
        | _, _ =>
            (validateAndRun srv env tool name parameters isJsonRpc requestId, srv)
        end
    end
  end.

(** The answer of the [catch] block of the method switch. *)
Definition caught (id err : JsVal) : JsVal :=
  formatJsonRpcError id (-32000)
    (if truthy err && truthy (getProp err "message")
     then getProp err "message" else JStr "Internal error").

(** The JSON-RPC method switch.  Its header line is missing from the
    sources at hand; the body reads [id], [method], [name] and [parameters],
    the fields of the parsed request, inside a [try] whose [catch] answers
    a JSON-RPC error.  The first statement of the [try] converts [method]
    to a string for the debug line. *)
Definition handleJsonRpcRequest (srv : McpServer) (env : gmap string string) (now : Z)
    (request : Request) : JsVal * McpServer :=
  let id := id request in
  let method := method request in
  let name := name request in
  let parameters := parameters request in
  match template method with
  | Throw err => (caught id err, srv)
  | Return methodText =>
  if isStr method "initialize" then
    (formatJsonRpcResponse id
       (JObj [("name", JStr (Options.serverName (options srv)));
              ("version", JStr (Options.version (options srv)));
              ("vendor", JStr (Options.vendor (options srv)));
              ("protocolVersion", JStr (Options.protocolVersion (options srv)))]),
     srv)
  else if isStr method "tools/list" then
    (formatJsonRpcResponse id (JObj [("tools", getToolDefinitions srv)]), srv)
  else if isStr method "tools/execute" then
    if negb (truthy name) then
      (formatJsonRpcError id (-32602) (JStr "Invalid params: missing tool name"), srv)
    else if isStr name "create_session"
            && (negb (truthy parameters) || negb (truthy (getProp parameters "topic")))
    then
      (formatJsonRpcError id (-32602)
         (JStr (dq "Required parameter 'topic' is missing")),
       srv)
    else
      match executeToolCall srv env now name parameters true id with
      | (Return response, srv') => (response, srv')
      | (Throw err, srv') => (caught id err, srv')
      end
  else
    (formatJsonRpcError id (-32601) (JStr ("Method not found: " +:+ methodText)),
     srv)
  end.

End Dispatch.

End Mcp.
Export Mcp.

(* ===================================================================== *)
(** ** The generation-invocation core: [llm-utils.js] *)
(* ===================================================================== *)

(** The fields of an LLM configuration that [callLLM] and the handlers
    branch on; [None] is an absent field.  Temperature, token ceiling and
    prices travel with the configuration to the provider and are not
    read here. *)
Module Config.
Record t : Type := mk {
  provider : option string;
  model : option string;
  key : option string;
  apiKey : option string;
  schema : option string
}.

Definition empty : t :=
  {| provider := None; model := None; key := None; apiKey := None; schema := None |}.

Definition preset (provider model key : string) : t :=
  {| provider := Some provider; model := Some model; key := Some key;
     apiKey := None; schema := None |}.

Definition over {A} (a b : option A) : option A :=
  match b with
  | Some _ => b
  | None => a
  end.

(** [{ ...base, ...rest }]. *)
Definition merge (base rest : t) : t :=
  {| provider := over (provider base) (provider rest);
     model := over (model base) (model rest);
     key := over (key base) (key rest);
     apiKey := over (apiKey base) (apiKey rest);
     schema := over (schema base) (schema rest) |}.

Definition withApiKey (c : t) (k : string) : t :=
  {| provider := provider c; model := model c; key := key c;
     apiKey := Some k; schema := schema c |}.

Definition withSchema (c : t) (s : string) : t :=
  {| provider := provider c; model := model c; key := key c;
     apiKey := apiKey c; schema := Some s |}.
End Config.

Module Llm.

(** [llm-configs.js]: provider, model and credential variable of every
    preset. *)
Definition LLM_CONFIGS : list (string * Config.t) :=
  [ ("gpt4o", Config.preset "openai" "gpt-4o" "OPENAI_API_KEY");
    ("gpt4turbo", Config.preset "openai" "gpt-4-turbo" "OPENAI_API_KEY");
    ("gpt4oMini", Config.preset "openai" "gpt-4o-mini" "OPENAI_API_KEY");
    ("gpt35turbo", Config.preset "openai" "gpt-3.5-turbo-0125" "OPENAI_API_KEY");
    ("claude3opus", Config.preset "anthropic" "claude-3-opus-20240229" "ANTHROPIC_API_KEY");
    ("claude3sonnet", Config.preset "anthropic" "claude-3-5-sonnet-20240620" "ANTHROPIC_API_KEY");
    ("claude3haiku", Config.preset "anthropic" "claude-3-haiku-20240307" "ANTHROPIC_API_KEY");
    ("claude2", Config.preset "anthropic" "claude-2.1" "ANTHROPIC_API_KEY");
    ("gemini15pro", Config.preset "google" "gemini-1.5-pro-latest" "GOOGLE_API_KEY");
    ("gemini15flash", Config.preset "google" "gemini-1.5-flash-latest" "GOOGLE_API_KEY");
    ("gemini10pro", Config.preset "google" "gemini-1.0-pro" "GOOGLE_API_KEY");
    ("ppxsonarlarge", Config.preset "perplexity" "llama-3.1-sonar-large-128k-online" "PERPLEXITY_API_KEY");
    ("ppxsonarsmall", Config.preset "perplexity" "llama-3.1-sonar-small-128k-online" "PERPLEXITY_API_KEY");
    ("ppxsonarlargechat", Config.preset "perplexity" "llama-3.1-sonar-large-128k-chat" "PERPLEXITY_API_KEY");
    ("ppxsonarsmallchat", Config.preset "perplexity" "llama-3.1-sonar-small-128k-chat" "PERPLEXITY_API_KEY");
    ("mistrallarge", Config.preset "mistral" "mistral-large-latest" "MISTRAL_API_KEY");
    ("mistralmedium", Config.preset "mistral" "mistral-medium-latest" "MISTRAL_API_KEY");
    ("mistralsmall", Config.preset "mistral" "mistral-small-latest" "MISTRAL_API_KEY");
    ("llama3", Config.preset "groq" "llama3-70b-8192" "GROQ_API_KEY");
    ("llama3_8b", Config.preset "groq" "llama3-8b-8192" "GROQ_API_KEY");
    ("commandrplus", Config.preset "cohere" "command-r-plus" "COHERE_API_KEY");
    ("commandr", Config.preset "cohere" "command-r" "COHERE_API_KEY");
    ("openroutergpt4o", Config.preset "openrouter" "openai/gpt-4o" "OPENROUTER_API_KEY");
    ("openroutergpt35", Config.preset "openrouter" "openai/gpt-3.5-turbo" "OPENROUTER_API_KEY") ].

Definition DEFAULT_LLM_CONFIG : string := "gpt4oMini".

Fixpoint lookupConfig (name : string) (table : list (string * Config.t))
  : option Config.t :=
  match table with
  | [] => None
  | (k, c) :: rest => if String.eqb name k then Some c else lookupConfig name rest
  end.

Record Message : Type := mkMessage { role : string; content : string }.

(** A Zod schema: the text [JSON.stringify(zodToJsonSchema(schema))] and
    the verdict of [schema.safeParse(v).success]. *)
Record Schema : Type := mkSchema {
  jsonSchema : string;
  safeParse : JsVal -> bool
}.

(** The third argument of [callLLM]: [{ systemMessage, schema, maxTries,
    ...rest }]. *)
Record Cfg : Type := mkCfg {
  systemMessage : option string;
  schema : option Schema;
  maxTries : option Z;
  rest : Config.t
}.

(** [cfg = {}]. *)
Definition noCfg : Cfg :=
  {| systemMessage := None; schema := None; maxTries := None; rest := Config.empty |}.

(** The provider services behind the handlers; the first argument is the
    number of the attempt that issues the request, so that a service may
    answer differently from one attempt to the next.  [perplexity_post]
    answers the [ok] flag of the HTTP response and the completion of its
    [json()]. *)
Record Network : Type := mkNetwork {
  openai_create : nat -> list Message -> Config.t -> Completion JsVal;
  anthropic_create : nat -> list Message -> Config.t -> Completion JsVal;
  perplexity_post : nat -> list Message -> Config.t -> Completion (bool * Completion JsVal)
}.

(** [\s] of a regular expression, on code units below 256. *)
Definition isSpace (c : ascii) : bool :=
  let n := N_of_ascii c in
  ((9 <=? n) && (n <=? 13) || (n =? 32) || (n =? 160))%N.

Fixpoint skipSpaces (s : string) : string :=
  match s with
  | EmptyString => EmptyString
  | String c rest => if isSpace c then skipSpaces rest else s
  end.

(** What follows the first occurrence of [pat] in [s]. *)
Fixpoint afterFirst (pat s : string) : option string :=
  match stripPrefix pat s with
  | Some r => Some r
  | None =>
      match s with
      | EmptyString => None
      | String _ rest => afterFirst pat rest
      end
  end.

Definition fence : string := "```".

(** The shortest prefix of [s] that is followed by optional spaces and a
    fence: the lazy group of the code block expression. *)
Fixpoint captureBlock (s : string) : option string :=
  match stripPrefix fence (skipSpaces s) with
  | Some _ => Some EmptyString
  | None =>
      match s with
      | EmptyString => None
      | String c rest => option_map (String c) (captureBlock rest)
      end
  end.

(** Group 1 of the first match of [/```(?:json)?\s*([\s\S]*?)\s*```/] in
    [text].  The leftmost fence opens the match; the greedy choices, with
    [json] and with every space after it, need no backtracking, because a
    closing fence lies after them whenever there is one at all. *)
Definition codeBlock (text : string) : option string :=
  match afterFirst fence text with
  | None => None
  | Some r =>
      let r := match stripPrefix "json" r with
               | Some r' => r'
               | None => r
               end in
      captureBlock (skipSpaces r)
  end.

(** The shortest prefix of [s] ending in a closing brace. *)
Fixpoint upToClose (s : string) : option string :=
  match s with
  | EmptyString => None
  | String c rest =>
      if (c =? "}")%char then Some "}"
      else option_map (String c) (upToClose rest)
  end.

(** The first match of [/\{[\s\S]*?\}/] in [text]: from the first opening
    brace to the first closing brace after it. *)
Fixpoint braceMatch (text : string) : option string :=
  match text with
  | EmptyString => None
  | String c rest =>
      if (c =? "{")%char then option_map (String c) (upToClose rest)
      else braceMatch rest
  end.

Definition isObjectType (v : JsVal) : bool :=
  match v with
  | JNull | JArr _ | JObj _ => true
  | _ => false
  end.

Section Handlers.

Variable JSON_parse : string -> option JsVal.
Variable env : gmap string string.
Variable net : Network.

Definition readKey (keyName : option string) : string :=
  default EmptyString (env !! default "undefined" keyName).

(** The helper [tryParse] of [extractJson]. *)
Definition tryParse (str : string) : JsVal :=
  match JSON_parse str with
  | Some result => if truthy result && isObjectType result then result else JNull
  | None => JNull
  end.

Definition extractJson (text : JsVal) : Completion JsVal :=
  if negb (truthy text) then Return JNull
  else
    let direct := match template text with
                  | Return str => tryParse str
                  | Throw _ => JNull
                  end in
    if truthy direct then Return direct
    else
      match text with
      | JStr text =>
          let parsed := match codeBlock text with
                        | Some inner => tryParse inner
                        | None => JNull
                        end in
          if truthy parsed then Return parsed
          else
            match braceMatch text with
            | Some jsonMatch => Return (tryParse jsonMatch)
            | None => Return JNull
            end
      | _ => Throw (mkError "TypeError" "text.match is not a function")
      end.

Definition firstMessage (response : JsVal) : JsVal :=
  optProp (optFirst response) "message".

Definition openai_handler (attempt : nat) (messages : list Message) (config : Config.t)
  : Completion JsVal :=
  bind (openai_create net attempt messages config) (fun response =>
  bind (readProp response "choices") (fun choices =>
    let args :=
      optProp (optProp (optFirst (optProp (firstMessage choices) "tool_calls"))
                 "function") "arguments" in
    if truthy args then
      bind (template args) (fun text =>
        match JSON_parse text with
        | Some parsed => Return parsed
        | None => Throw (mkError "SyntaxError" "Unexpected token in JSON")
        end)
    else extractJson (optProp (firstMessage choices) "content"))).

Definition perplexity_handler (attempt : nat) (messages : list Message)
    (config : Config.t) : Completion JsVal :=
  if negb (nonEmpty (default EmptyString (env !! "PERPLEXITY_API_KEY"))) then
    Throw (mkError "Error" "PERPLEXITY_API_KEY environment variable not set")
  else
    match perplexity_post net attempt messages config with
    | Throw _ => Return (JObj [])
    | Return (false, _) => Return (JObj [])
    | Return (true, body) =>
        let data := match body with
                    | Return d => d
                    | Throw _ => JNull
                    end in
        let choice := optFirst (optProp data "choices") in
        if negb (truthy choice) then Return (JObj [])
        else
          extractJson (js_or (js_or (optProp (optProp choice "message") "content")
                                    (optProp choice "text"))
                             (JStr EmptyString))
    end.

Definition anthropic_handler (attempt : nat) (messages : list Message)
    (config : Config.t) : Completion JsVal :=
  let apiKey := match Config.apiKey config with
                | Some k => if nonEmpty k then k else readKey (Config.key config)
                | None => readKey (Config.key config)
                end in
  if negb (nonEmpty apiKey) then Throw (mkError "Error" "No API key")
  else
    let r := match anthropic_create net attempt messages config with
             | Return r => r
             | Throw _ => JNull
             end in
    if negb (truthy r) then Return (JObj [])
    else
      extractJson (js_or (js_or (optProp (optFirst (getProp r "content")) "text")
                                (getProp r "completion"))
                         (JStr EmptyString)).

(** [z.object({ result: z.string() })], the schema used when the caller
    gives none. *)
Variable defaultSchema : Schema.

Definition nl : string := String "010"%char EmptyString.

(** [s.trim()] is the empty string. *)
Fixpoint blank (s : string) : bool :=
  match s with
  | EmptyString => true
  | String c rest => isSpace c && blank rest
  end.

Definition schemaDirective (jsonSchema : string) : string :=
  nl +:+ nl +:+ " Return only a valid JSON object (no extra text) matching this schema: "
  +:+ nl +:+ nl +:+ "======" +:+ nl +:+ nl +:+ jsonSchema +:+ " "
  +:+ nl +:+ nl +:+ "=======" +:+ nl +:+ nl.

Definition buildMessages (systemMessage prompt jsonSchema : string) : list Message :=
  let systemMessages :=
    if blank systemMessage then []
    else [ {| role := "system"; content := systemMessage |} ] in
  systemMessages ++ [ {| role := "user"; content := prompt +:+ schemaDirective jsonSchema |} ].

Definition selectHandler (provider : option string)
  : option (nat -> list Message -> Config.t -> Completion JsVal) :=
  match provider with
  | Some p =>
      if String.eqb p "openai" then Some openai_handler
      else if String.eqb p "anthropic" then Some anthropic_handler
      else if String.eqb p "perplexity" then Some perplexity_handler
      else None
  | None => None
  end.

(** How the retry loop ends: a result is returned, the [catch] block
    itself throws (it reads [e.message]), or the attempts run out. *)
Inductive LoopExit : Type :=
| Succeeded (result : JsVal)
| Raised (e : JsVal)
| Exhausted (lastErr : JsVal).

(** [for (let i = 0; i < maxTries; i++)] with [remaining] iterations to go;
    the second component lists the message list handed to the handler at
    each call, in order. *)
Fixpoint retryLoop (handler : nat -> list Message -> Config.t -> Completion JsVal)
    (messages : list Message) (config : Config.t)
    (remaining i : nat) (lastErr : JsVal) : LoopExit * list (list Message) :=
  match remaining with
  | O => (Exhausted lastErr, [])
  | S remaining' =>
      match handler i messages config with
      | Return result =>
          if truthy result && (0 <? keysLength result)%nat
          then (Succeeded result, [messages])
          else
            let (exit, calls) :=
              retryLoop handler messages config remaining' (S i) lastErr in
            (exit, messages :: calls)
      | Throw e =>
          if nullish e then (Raised (typeErrorRead e "message"), [messages])
          else
            let (exit, calls) :=
              retryLoop handler messages config remaining' (S i) e in
            (exit, messages :: calls)
      end
  end.

Definition failureMessage (maxTries : Z) (lastErr : JsVal) : string :=
  (if truthy lastErr
   then "Failed after " +:+ Z_to_string maxTries +:+ " attempts. Last error: "
        +:+ toStringJs (getProp lastErr "message")
   else "Failed after " +:+ Z_to_string maxTries
        +:+ " attempts. No valid response received.")
  +:+ " Last response: undefined".

(** What [callLLM] throws after the loop: the error made of the failure
    message, unless the template literal fails to convert the message of
    the last error to a string. *)
Definition failure (maxTries : Z) (lastErr : JsVal) : JsVal :=
  if truthy lastErr && throwsToString (getProp lastErr "message")
  then mkError "TypeError" "Cannot convert object to primitive value"
  else mkError "Error" (failureMessage maxTries lastErr).

(** [{ ...(typeof llm === 'string' ? LLM_CONFIGS[llm || DEFAULT_LLM_CONFIG]
    : llm), ...rest }]. *)
Definition resolveConfig (llm : string + Config.t) (cfg : Cfg) : Config.t :=
  let base :=
    match llm with
    | inl name =>
        default Config.empty
          (lookupConfig (if nonEmpty name then name else DEFAULT_LLM_CONFIG) LLM_CONFIGS)
    | inr config => config
    end in
  Config.merge base (rest cfg).

(** [config.apiKey || readKey(config.key)]. *)
Definition resolveApiKey (config : Config.t) : string :=
  match Config.apiKey config with
  | Some k => if nonEmpty k then k else readKey (Config.key config)
  | None => readKey (Config.key config)
  end.

(** What [callLLM] has set up when it enters the retry loop. *)
Record Setup : Type := mkSetup {
  config : Config.t;
  messages : list Message;
  handler : nat -> list Message -> Config.t -> Completion JsVal;
  tries : Z
}.

(** [callLLM] up to the retry loop: configuration, credential, schema,
    messages and handler. *)
Definition setup (prompt : string) (llm : string + Config.t) (cfg : Cfg)
  : Completion Setup :=
  let systemMessage := default EmptyString (systemMessage cfg) in
  let maxTries := default 3 (maxTries cfg) in
  let config := resolveConfig llm cfg in
  let apiKey := resolveApiKey config in
  let config := Config.withApiKey config apiKey in
  if negb (nonEmpty apiKey) then
    Throw (mkError "Error"
             ("No API key found for " +:+ default "undefined" (Config.model config)))
  else
    let schema := default defaultSchema (schema cfg) in
    let config := Config.withSchema config (jsonSchema schema) in
    let messages := buildMessages systemMessage prompt (jsonSchema schema) in
    match selectHandler (Config.provider config) with
    | None =>
        Throw (mkError "Error"
                 ("Unsupported provider: "
                  +:+ default "undefined" (Config.provider config)))
    | Some handler =>
        Return {| config := config; messages := messages; handler := handler;
                  tries := maxTries |}
    end.

(** [callLLM(prompt, llm, cfg)]; the second component lists the calls made
    to the provider handler, each by the message list it was given. *)
Definition callLLM (prompt : string) (llm : string + Config.t) (cfg : Cfg)
  : Completion JsVal * list (list Message) :=
  match setup prompt llm cfg with
  | Throw e => (Throw e, [])
  | Return s =>
      match retryLoop (handler s) (messages s) (config s) (Z.to_nat (tries s)) 0
                      JUndefined with
      | (Succeeded result, calls) => (Return result, calls)
      | (Raised e, calls) => (Throw e, calls)
      | (Exhausted lastErr, calls) =>
          (Throw (failure (tries s) lastErr), calls)
      end
  end.

End Handlers.

End Llm.
Export Llm.


(* ===================================================================== *)
(** ** Scenarios *)
(* ===================================================================== *)

Module Scenario.

(** Modelled from the spec: [McpServer.handleReadResource] is called by
    [executeToolCall] but its body is not part of the sources at hand.
    Section 6 has read-resource return the details of one named entry or a
    not-found error; the server tests name the error kinds
    ([InvalidRequest] without a [uri], [ResourceNotFound] for an unknown
    one) and read [serverName] and [version] from the details of
    [server-info]. *)
Definition readResource (srv : McpServer) (params : JsVal) (isJsonRpc : bool)
    (requestId : JsVal) : Completion JsVal :=
  let uri := getProp params "uri" in
  if negb (truthy uri) then
    Return (if isJsonRpc
            then formatJsonRpcError requestId (-32602) (JStr "Missing required parameter: uri")
            else formatMcpError srv (JStr "InvalidRequest")
                   (JStr "Missing required parameter: uri"))
  else if isStr uri "server-info" then
    let details :=
      JObj [("serverName", JStr (Options.serverName (options srv)));
            ("version", JStr (Options.version (options srv)))] in
    Return (if isJsonRpc then formatJsonRpcResponse requestId details
            else formatMcpResponse srv details)
  else if isStr uri "tool-list" then
    let details := JObj [("tools", getToolDefinitions srv)] in
    Return (if isJsonRpc then formatJsonRpcResponse requestId details
            else formatMcpResponse srv details)
  else
    Return (if isJsonRpc
            then formatJsonRpcError requestId (-32602)
                   (JStr ("Resource not found: " +:+ toStringJs uri))
            else formatMcpError srv (JStr "ResourceNotFound")
                   (JStr ("Resource not found: " +:+ toStringJs uri))).

(** The server with the given tools and the default options. *)
Definition serverWith (ts : list Tool.t) : McpServer :=
  match registerTools (Mcp.create Options.defaults) ts with
  | Return srv => srv
  | Throw _ => Mcp.create Options.defaults
  end.

Definition anyObject : JsVal := JObj [("type", JStr "object")].

(** A tool [echo] whose handler returns [{x: 1}]. *)
Definition echo : Tool.t :=
  {| Tool.name := "echo"; Tool.description := "Echo";
     Tool.parameters := anyObject;
     Tool.handler := fun _ => Return (JObj [("x", JNum 1)]) |}.

Definition x1 : JsVal := JObj [("x", JNum 1)].

(** A handler result in the shape of a protocol error that also carries a
    [result]. *)
Definition preformatted : JsVal :=
  JObj [("protocolVersion", JStr "1.0");
        ("error", JObj [("type", JStr "MissingApiKey");
                        ("message", JStr "Missing or invalid API key(s)")]);
        ("result", JObj [("partial", JBool true)])].

Definition status : Tool.t :=
  {| Tool.name := "status"; Tool.description := "Report the status";
     Tool.parameters := anyObject;
     Tool.handler := fun _ => Return preformatted |}.

(** [{type: "article", message: "draft text"}]. *)
Definition article : JsVal :=
  JObj [("type", JStr "article"); ("message", JStr "draft text")].

Definition draft : Tool.t :=
  {| Tool.name := "draft"; Tool.description := "Draft an article";
     Tool.parameters := anyObject;
     Tool.handler := fun _ => Return article |}.

(** A handler result with truthy [type] and [message] that is also in the
    shape of a protocol error. *)
Definition flagged : JsVal :=
  JObj [("protocolVersion", JStr "1.0"); ("error", JStr "not ready");
        ("type", JStr "article"); ("message", JStr "draft text")].

Definition notice : Tool.t :=
  {| Tool.name := "notice"; Tool.description := "Post a notice";
     Tool.parameters := anyObject;
     Tool.handler := fun _ => Return flagged |}.

Definition server : McpServer := serverWith [echo; status; draft; notice].

(** [server.addRateLimiter('echo', { windowMs: 60000, maxRequests: 1 })]. *)
Definition limited : McpServer := addRateLimiter server "echo" (Some 60000) (Some 1).

(** Two rapid calls of [echo]. *)
Definition rapid : list (Z * JsVal) := [(1000, JObj []); (1001, JObj [])].

(** The request lines of the versioned scenario: as the specification
    writes it, and with the field and method names the parser reads. *)
Definition specLine : string :=
  dq "{'protocolVersion':'2.0','id':7,'method':'execute','params':{'name':'echo','parameters':{'x':1}}}".

Definition rpcLine : string :=
  dq "{'jsonrpc':'2.0','id':7,'method':'tools/execute','params':{'name':'echo','parameters':{'x':1}}}".

(** The response that the specification expects in the versioned
    scenario, and the one in the field names of the formatter. *)
Definition specResponse : JsVal :=
  JObj [("protocolVersion", JStr "2.0"); ("id", JNum 7); ("result", x1)].

Definition rpcResponse : JsVal :=
  JObj [("jsonrpc", JStr "2.0"); ("id", JNum 7); ("result", x1)].

(** [z.object({ value: z.string() })], a schema of the provider tests, and
    [z.object({ result: z.string() })], the default of [callLLM]; the texts
    are their JSON schemas. *)
Definition stringField (field : string) : Schema :=
  {| jsonSchema :=
       dq "{'type':'object','properties':{'" +:+ field
       +:+ dq "':{'type':'string'}},'required':['" +:+ field
       +:+ dq "'],'additionalProperties':false}";
     safeParse := fun v => match getProp v field with
                           | JStr _ => true
                           | _ => false
                           end |}.

Definition valueSchema : Schema := stringField "value".
Definition resultSchema : Schema := stringField "result".

(** An environment that holds the Anthropic credential. *)
Definition anthropicEnv : gmap string string := {[ "ANTHROPIC_API_KEY" := "sk-test" ]}.

(** A provider that answers every request with the given text. *)
Definition answering (text : string) : Network :=
  {| openai_create := fun _ _ _ =>
       Return (JObj [("choices",
                      JArr [JObj [("message", JObj [("content", JStr text)])]])]);
     anthropic_create := fun _ _ _ =>
       Return (JObj [("content", JArr [JObj [("type", JStr "text");
                                             ("text", JStr text)]])]);
     perplexity_post := fun _ _ _ =>
       Return (true,
               Return (JObj [("choices",
                              JArr [JObj [("message",
                                           JObj [("content", JStr text)])]])])) |}.

(** A provider that is out of reach: every request is rejected. *)
Definition unreachable : Network :=
  {| openai_create := fun _ _ _ => Throw (mkError "Error" "Connection error.");
     anthropic_create := fun _ _ _ => Throw (mkError "Error" "Connection error.");
     perplexity_post := fun _ _ _ => Throw (mkError "Error" "Connection error.") |}.

(** [{ schema, maxTries }]. *)
Definition cfgWith (schema : Schema) (maxTries : Z) : Cfg :=
  {| systemMessage := None; schema := Some schema; maxTries := Some maxTries;
     rest := Config.empty |}.

(** A reply whose only JSON is a nested object inside prose. *)
Definition nestedReply : string := dq "Here is the data: {'a':{'b':1}} thanks".

(** The prompt of the scenarios and the single message made of it. *)
Definition prompt : string := "Return a value".

Definition promptMessages : list Message :=
  [ {| role := "user";
       content := prompt +:+ schemaDirective (jsonSchema valueSchema) |} ].

(** The setup that [callLLM] reaches for the preset [claude3haiku], the
    schema [valueSchema] and the environment [anthropicEnv]. *)
Definition haikuConfig : Config.t :=
  Config.withSchema
    (Config.withApiKey
       (Config.preset "anthropic" "claude-3-haiku-20240307" "ANTHROPIC_API_KEY")
       "sk-test")
    (jsonSchema valueSchema).

Definition haikuSetup (net : Network) (maxTries : Z) : Setup :=
  {| config := haikuConfig;
     messages := promptMessages;
     handler := anthropic_handler Json.parse anthropicEnv net;
     tries := maxTries |}.

(** A tool that bears the name of a member of [Object.prototype]. *)
Definition shadowed : Tool.t :=
  {| Tool.name := "toString"; Tool.description := "Answers an article";
     Tool.parameters := anyObject;
     Tool.handler := fun _ => Return article |}.

Definition shadowing : McpServer := serverWith [shadowed].

(** A tool name that cannot be converted to a string. *)
Definition opaque : JsVal := JObj [("toString", JNum 1)].

End Scenario.

(* ===================================================================== *)
(** ** Vocabulary of the properties *)
(* ===================================================================== *)

(** [name] is the name of a registered tool. *)
Definition registered (srv : McpServer) (name : JsVal) : Prop :=
  exists tool, In tool (tools srv) /\ name = JStr (Tool.name tool).

(** [name] addresses one of the two built-in resource operations. *)
Definition builtin (name : JsVal) : bool :=
  isStr name "list_resources" || isStr name "read_resource".

(** [response.error.type]. *)
Definition errorType (response : JsVal) : JsVal :=
  getProp (getProp response "error") "type".

(** A handler result that [executeToolCall] passes through: truthy
    [protocolVersion] and [error]. *)
Definition preFormatted (result : JsVal) : bool :=
  truthy (getProp result "protocolVersion") && truthy (getProp result "error").

(** Exactly one of the fields [result] and [error]. *)
Definition exactlyOne (response : JsVal) : bool :=
  xorb (hasProp response "result") (hasProp response "error").

(** The envelope invariant: the marker of the shape, and exactly one of
    [result] and [error]. *)
Definition wellFormed (srv : McpServer) (isJsonRpc : bool) (requestId response : JsVal)
  : Prop :=
  exactlyOne response = true
  /\ if isJsonRpc
     then hasProp response "id" = true /\ getProp response "id" = requestId
     else getProp response "protocolVersion"
          = JStr (Options.protocolVersion (options srv)).

(** The limiter of the tool refuses a call made at time [now]. *)
Definition limitedAt (srv : McpServer) (now : Z) (name : JsVal) : bool :=
  match rateLimiters srv !! toStringJs name, Options.mockMode (options srv) with
  | Some limiter, false => fst (RateLimiter.check limiter now "default")
  | _, _ => false
  end.

(** Outside mock mode, the name of the call finds in the table of rate
    limiters not a limiter but a member that the table inherits (such as
    [toString]), whose [check] cannot be called. *)
Definition inheritedAt (srv : McpServer) (name : JsVal) : bool :=
  match lookupLimiter srv (toStringJs name), Options.mockMode (options srv) with
  | Inherited, false => true
  | _, _ => false
  end.

(** The timestamps that a limiter holds for the default client. *)
Definition held (limiter : RateLimiter.t) : list Z :=
  default [] (RateLimiter.requestCounts limiter !! RateLimiter.key limiter "default").



(** Successive calls of one tool, each at its time and with its
    parameters, on the server left by the previous one. *)
Fixpoint callMany
    (handleReadResource : McpServer -> JsVal -> bool -> JsVal -> Completion JsVal)
    (srv : McpServer) (env : gmap string string) (name : JsVal)
    (isJsonRpc : bool) (requestId : JsVal) (calls : list (Z * JsVal))
  : list (Completion JsVal) * McpServer :=
  match calls with
  | [] => ([], srv)
  | (now, parameters) :: rest =>
      let (response, srv') :=
        executeToolCall handleReadResource srv env now name parameters isJsonRpc
          requestId in
      let (responses, srv'') :=
        callMany handleReadResource srv' env name isJsonRpc requestId rest in
      (response :: responses, srv'')
  end.


(** The result that the retry loop of [callLLM] treats as empty. *)
Definition emptyResult (result : JsVal) : bool :=
  negb (truthy result && (0 <? keysLength result)%nat).

(** An optional string that is absent or empty. *)
Definition absentOrEmpty (o : option string) : Prop :=
  o = None \/ o = Some EmptyString.

(* ===================================================================== *)
(** ** Further framework utilities *)
(* ===================================================================== *)

Module Utils.

(** The options object handed to [createTool]; [handler] is [None] when
    [typeof handler] is not ['function']. *)
Record ToolOptions : Type := mkToolOptions {
  name : JsVal;
  description : JsVal;
  parameters : JsVal;
  handler : option (JsVal -> Completion JsVal)
}.

(** [!v || typeof v !== 'string' || !v.trim()] is false. *)
Definition nonBlankString (v : JsVal) : bool :=
  match v with
  | JStr s => negb (blank s)
  | _ => false
  end.

(** [createTool(options)]; [None] stands for an argument that is not an
    object.  The result is the copy [{ ...options }]. *)
Definition createTool (options : option ToolOptions) : Completion ToolOptions :=
  match options with
  | None => Throw (mkError "Error" "Tool definition error: options object is required.")
  | Some o =>
      if negb (nonBlankString (name o)) then
        Throw (mkError "Error"
                 "Tool definition error: name is required and must be a non-empty string.")
      else if negb (nonBlankString (description o)) then
        Throw (mkError "Error"
                 "Tool definition error: description is required and must be a non-empty string.")
      else
        match handler o with
        | None =>
            Throw (mkError "Error"
                     "Tool definition error: handler is required and must be a function.")
        | Some _ => Return o
        end
  end.

(** The tool definition that the registry stores for an options object
    whose name and description are strings and whose handler is a
    function. *)
Definition asTool (o : ToolOptions) : option Tool.t :=
  match name o, description o, handler o with
  | JStr n, JStr d, Some h =>
      Some {| Tool.name := n; Tool.description := d;
              Tool.parameters := parameters o; Tool.handler := h |}
  | _, _, _ => None
  end.

(** [createMcpServer(options, tools)]. *)
Definition createMcpServer (options : Options.t) (ts : list Tool.t)
  : Completion McpServer :=
  let server := Mcp.create options in
  match ts with
  | [] => Return server
  | _ :: _ => registerTools server ts
  end.

(** [keySet.add(key)] on a set kept in insertion order. *)
Definition addKey (keySet : list string) (key : string) : list string :=
  if existsb (String.eqb key) keySet then keySet else keySet ++ [key].

(** [getAllRequiredKeys(tools)]: each tool is given by its [keys]
    property, [None] when that is not an array. *)
Definition getAllRequiredKeys (ts : list (option (list string))) : list string :=
  fold_left (fun keySet keys =>
               match keys with
               | Some ks => fold_left addKey ks keySet
               | None => keySet
               end) ts [].

(** [z.string().min(1, key + ' is required')] applied to [env[key]]: the
    message of the issue, if any (an absent variable is reported as
    [Required]). *)
Definition requireKey (env : gmap string string) (key : string) : option string :=
  match env !! key with
  | None => Some "Required"
  | Some EmptyString => Some (key +:+ " is required")
  | Some _ => None
  end.

(** The exported function [validateApiKeys(mockMode)]. *)
Definition validateApiKeys (mockMode : bool) (env : gmap string string) : JsVal :=
  let isMockMode :=
    mockMode
    || bool_decide (env !! "MOCK_MODE" = Some "1")
    || bool_decide (env !! "MOCK_MODE" = Some "true") in
  if isMockMode then JBool true
  else
    match requireKey env "PERPLEXITY_API_KEY", requireKey env "ANTHROPIC_API_KEY" with
    | Some message, _ => JObj [("error", JStr message)]
    | None, Some message => JObj [("error", JStr message)]
    | None, None => JBool true
    end.

End Utils.

(* ===================================================================== *)
(** ** Further vocabulary *)
(* ===================================================================== *)

(** The tool definition is complete in the sense of [registerTool]. *)
Definition validTool (tool : Tool.t) : bool :=
  nonEmpty (Tool.name tool) && nonEmpty (Tool.description tool)
  && truthy (Tool.parameters tool).

(** The definitions of [ts] before the first incomplete one. *)
Fixpoint accepted (ts : list Tool.t) : list Tool.t :=
  match ts with
  | [] => []
  | tool :: rest => if validTool tool then tool :: accepted rest else []
  end.

(** [registerTools] on the server object that it mutates: the server as the
    call leaves it, with the error thrown, if any.  [forEach] stops at the
    first definition that [registerTool] refuses; what was pushed before
    stays in the registry. *)
Module InPlace.
Fixpoint registerTools (srv : McpServer) (ts : list Tool.t) : McpServer * option JsVal :=
  match ts with
  | [] => (srv, None)
  | tool :: rest =>
      match registerTool srv tool with
      | Return srv' => registerTools srv' rest
      | Throw error => (srv, Some error)
      end
  end.
End InPlace.

(** Successive [check()] calls of one limiter at the given times: each time
    with its verdict, and the limiter afterwards. *)
Fixpoint runChecks (limiter : RateLimiter.t) (times : list Z)
  : list (Z * bool) * RateLimiter.t :=
  match times with
  | [] => ([], limiter)
  | now :: rest =>
      let (limited, limiter') := RateLimiter.check limiter now "default" in
      let (verdicts, final) := runChecks limiter' rest in
      ((now, limited) :: verdicts, final)
  end.

(** The times of the calls that were let through. *)
Fixpoint admitted (verdicts : list (Z * bool)) : list Z :=
  match verdicts with
  | [] => []
  | (now, limited) :: rest =>
      if limited then admitted rest else now :: admitted rest
  end.

(** The clock does not run backwards. *)
Fixpoint nondecreasing (times : list Z) : Prop :=
  match times with
  | [] => True
  | now :: rest => (forall later, In later rest -> now <= later) /\ nondecreasing rest
  end.

(** How many of the times lie less than [windowMs] before [now]. *)
Definition inWindow (windowMs now : Z) (times : list Z) : nat :=
  length (filter (fun time => now - time < windowMs) times).

(** [c] does not occur in [s]. *)
Fixpoint without (c : ascii) (s : string) : Prop :=
  match s with
  | EmptyString => True
  | String x rest => x <> c /\ without c rest
  end.

(** The last character of [s], if any. *)
Fixpoint lastChar (s : string) : option ascii :=
  match s with
  | EmptyString => None
  | String c EmptyString => Some c
  | String _ rest => lastChar rest
  end.

(** A result that [extractJson] may give: [null], or an object or array. *)
Definition extracted (v : JsVal) : bool :=
  match v with
  | JNull | JArr _ | JObj _ => true
  | _ => false
  end.

(** An attempt after which the retry loop of [callLLM] goes on: the
    handler came back empty, or threw a value other than [null] and
    [undefined]. *)
Definition failedAttempt (outcome : Completion JsVal) : bool :=
  match outcome with
  | Return result => emptyResult result
  | Throw e => negb (nullish e)
  end.

(** The providers that [callLLM] has a handler for. *)
Definition supported (provider : option string) : bool :=
  match provider with
  | Some p => String.eqb p "openai" || String.eqb p "anthropic"
              || String.eqb p "perplexity"
  | None => false
  end.

(** More concrete inputs. *)
Module Cases.

(** A second tool under the name [echo]. *)
Definition echo2 : Tool.t :=
  {| Tool.name := "echo"; Tool.description := "Another echo";
     Tool.parameters := Scenario.anyObject;
     Tool.handler := fun _ => Return (JObj [("x", JNum 2)]) |}.

(** A tool definition without a parameter schema. *)
Definition bare : Tool.t :=
  {| Tool.name := "bare"; Tool.description := "No schema";
     Tool.parameters := JUndefined;
     Tool.handler := fun _ => Return JNull |}.

Definition bareOptions : Utils.ToolOptions :=
  {| Utils.name := JStr "bare"; Utils.description := JStr "No schema";
     Utils.parameters := JUndefined;
     Utils.handler := Some (fun _ => Return JNull) |}.

(** A tool whose handler throws the error of a missing parameter. *)
Definition invalidParams : JsVal :=
  JObj [("name", JStr "InvalidParams");
        ("message", JStr (dq "Required parameter 'sessionId' is missing"))].

Definition getSession : Tool.t :=
  {| Tool.name := "get_session"; Tool.description := "Get a session";
     Tool.parameters := Scenario.anyObject;
     Tool.handler := fun _ => Throw invalidParams |}.

(** A tool named [toString] whose handler throws. *)
Definition failing : Tool.t :=
  {| Tool.name := "toString"; Tool.description := "Throws";
     Tool.parameters := Scenario.anyObject;
     Tool.handler := fun _ => Throw invalidParams |}.

(** A tool named [constructor] that answers [{x: 1}]. *)
Definition builder : Tool.t :=
  {| Tool.name := "constructor"; Tool.description := "Answers x";
     Tool.parameters := Scenario.anyObject;
     Tool.handler := fun _ => Return Scenario.x1 |}.

(** A tool whose handler throws [null]. *)
Definition faulty : Tool.t :=
  {| Tool.name := "faulty"; Tool.description := "Throws null";
     Tool.parameters := Scenario.anyObject;
     Tool.handler := fun _ => Throw JNull |}.

Definition server : McpServer :=
  Scenario.serverWith [Scenario.echo; getSession; faulty].

(** The schema that asks for the two provider credentials. *)
Definition keysSchema (env : gmap string string) : option JsVal :=
  match Utils.requireKey env "PERPLEXITY_API_KEY",
        Utils.requireKey env "ANTHROPIC_API_KEY" with
  | Some message, _ => Some (JStr message)
  | None, Some message => Some (JStr message)
  | None, None => None
  end.

(** [server] with the credential schema and a limiter of threshold 1 on
    [echo]. *)
Definition guarded : McpServer :=
  addRateLimiter (addApiKeyValidation server keysSchema) "echo" (Some 60000) (Some 1).

(** [server] in mock mode, with a mock data provider, the credential
    schema and the same limiter. *)
Definition mockData (name parameters : JsVal) : Completion JsVal :=
  Return (JObj [("mock", name)]).

Definition mocked : McpServer :=
  {| options := {| Options.serverName := "mcp-server"; Options.version := "1.0.0";
                   Options.vendor := EmptyString; Options.protocolVersion := "1.0";
                   Options.mockMode := true; Options.debug := false;
                   Options.getMockData := Some mockData |};
     tools := tools guarded;
     apiKeySchemas := apiKeySchemas guarded;
     rateLimiters := rateLimiters guarded |}.

(** A provider whose first answer is prose and whose second answer is the
    JSON text [{"value": "ok"}]. *)
Definition secondTime : Network :=
  {| openai_create := openai_create Scenario.unreachable;
     anthropic_create := fun attempt _ _ =>
       Return (JObj [("content",
                      JArr [JObj [("type", JStr "text");
                                  ("text",
                                   JStr (match attempt with
                                         | O => "Sorry, I cannot answer."
                                         | S _ => dq "{'value': 'ok'}"
                                         end))]])]);
     perplexity_post := perplexity_post Scenario.unreachable |}.

(** The setup that [callLLM] reaches for the preset [gpt4oMini] with the
    OpenAI credential in the environment. *)
Definition openaiEnv : gmap string string := {[ "OPENAI_API_KEY" := "sk-test" ]}.

Definition miniSetup (net : Network) (maxTries : Z) : Setup :=
  {| config :=
       Config.withSchema
         (Config.withApiKey (Config.preset "openai" "gpt-4o-mini" "OPENAI_API_KEY")
            "sk-test")
         (jsonSchema Scenario.valueSchema);
     messages := Scenario.promptMessages;
     handler := openai_handler Json.parse net;
     tries := maxTries |}.

(** A Perplexity configuration that carries its own credential. *)
Definition sonar : Config.t :=
  {| Config.provider := Some "perplexity";
     Config.model := Some "llama-3.1-sonar-small-128k-online";
     Config.key := Some "PERPLEXITY_API_KEY";
     Config.apiKey := Some "pplx-test";
     Config.schema := None |}.

Definition sonarSetup (env : gmap string string) (net : Network) (maxTries : Z) : Setup :=
  {| config := Config.withSchema (Config.withApiKey sonar "pplx-test")
                 (jsonSchema Scenario.valueSchema);
     messages := Scenario.promptMessages;
     handler := perplexity_handler Json.parse env net;
     tries := maxTries |}.

End Cases.

(* ===================================================================== *)
(** ** The generation core over the any-llm client *)
(* ===================================================================== *)

(** The version of [callLLM] that goes through the any-llm client.  Unlike
    the one of [llm-utils.js] it checks the reply against the schema, and
    asks again with a corrective note after a growing delay. *)
Module AnyLlm.

(** Provider, model and credential variable of the presets of this
    version. *)
Definition LLM_CONFIGS : list (string * Config.t) :=
  [ ("gpt4o", Config.preset "openai" "gpt-4o" "OPENAI_API_KEY");
    ("gpt4turbo", Config.preset "openai" "gpt-4-turbo-preview" "OPENAI_API_KEY");
    ("claude3sonnet",
     Config.preset "anthropic" "claude-3-5-sonnet-20240620" "ANTHROPIC_API_KEY");
    ("claude3opus", Config.preset "anthropic" "claude-3-opus-20240229" "ANTHROPIC_API_KEY");
    ("perplexity", Config.preset "perplexity" "sonar-large-chat" "PERPLEXITY_API_KEY");
    ("mistral", Config.preset "mistral" "mistral-large-latest" "MISTRAL_API_KEY");
    ("llama3", Config.preset "groq" "llama3-70b-8192" "GROQ_API_KEY");
    ("commandr", Config.preset "cohere" "command-r-plus" "COHERE_API_KEY");
    ("openrouter",
     Config.preset "openrouter" "openai/gpt-4-turbo-preview" "OPENROUTER_API_KEY") ].

Definition DEFAULT_LLM_CONFIG : string := "gpt4o".

(** A Zod schema as this version uses it: the text
    [JSON.stringify(jsonSchema)], and [jsonSchema.safeParse(v)], which
    answers the parsed data or the message of the validation error. *)
Record ZodSchema : Type := mkZodSchema {
  text : string;
  safeParse : JsVal -> JsVal + string
}.

(** The third argument: [{ systemMessage, jsonSchema, maxRetries,
    ...otherOptions }]. *)
Record Options : Type := mkOptions {
  systemMessage : option string;
  jsonSchema : option ZodSchema;
  maxRetries : option Z;
  otherOptions : JsVal
}.

(** [options = {}]. *)
Definition noOptions : Options :=
  {| systemMessage := None; jsonSchema := None; maxRetries := None;
     otherOptions := JObj [] |}.

(** The request object of one attempt: the configuration, whether
    [response_format] asks for a JSON object, the other options, and the
    messages when the provider is not OpenAI compatible. *)
Record Request : Type := mkRequest {
  config : Config.t;
  response_format : bool;
  extra : JsVal;
  messages : option (list Message)
}.

(** [client.createChatCompletionNonStreaming] of a client; the first
    argument is the number of failed attempts before the call, so that a
    provider may answer differently from one attempt to the next. *)
Definition Client : Type :=
  nat -> Request -> option (list Message) -> Completion JsVal.

(** What the caller can observe of a run: the calls of the client, each by
    the messages it was given, and the delays waited in between. *)
Inductive Event : Type :=
| Called (messages : list Message)
| Waited (ms : Z).

Definition openAICompatible : list string :=
  [ "openai"; "anthropic"; "google"; "groq"; "mistral"; "openrouter"; "cohere" ].

Definition isOpenAI (config : Config.t) : bool :=
  match Config.provider config with
  | Some provider => existsb (String.eqb provider) openAICompatible
  | None => false
  end.

(** The rest of a match of [/\{[\s\S]*\}/] after its opening brace: up to
    the last closing brace of [s]. *)
Fixpoint upToLastClose (s : string) : option string :=
  match s with
  | EmptyString => None
  | String c rest =>
      match upToLastClose rest with
      | Some m => Some (String c m)
      | None => if (c =? "}")%char then Some "}" else None
      end
  end.

(** The match of the greedy expression [/\{[\s\S]*\}/] in [text]: from the
    first opening brace to the last closing brace after it. *)
Fixpoint greedyBraces (text : string) : option string :=
  match text with
  | EmptyString => None
  | String c rest =>
      if (c =? "{")%char then option_map (String c) (upToLastClose rest)
      else greedyBraces rest
  end.

(** [response.match(/\{[\s\S]*\}/)]. *)
Definition matchBraces (response : JsVal) : Completion (option string) :=
  match response with
  | JStr text => Return (greedyBraces text)
  | JNull | JUndefined => Throw (typeErrorRead response "match")
  | _ => Throw (mkError "TypeError" "response.match is not a function")
  end.

(** How one iteration of the loop ends: with a [return], with another
    attempt after the given corrective note, or with an exception that
    leaves [callLLM]. *)
Inductive Outcome : Type :=
| Done (result : JsVal)
| Again (note : string)
| Failed (error : JsVal).

Definition system (content : string) : Message :=
  {| role := "system"; content := content |}.

Section Client.

Variable JSON_parse : string -> option JsVal.
Variable env : gmap string string.

(** [llmConfigValidator]: the strict Zod parse of a configuration object,
    which answers the parsed configuration or the message of the error it
    throws. *)
Variable llmConfigValidator : Config.t -> Config.t + string.

(** [new Client(config.provider, { [config.key]: apiKey })]. *)
Variable newClient : Config.t -> string -> Completion Client.

Definition loadAPIKey (keyName : option string) : string :=
  default EmptyString (env !! default "undefined" keyName).

(** The body of the loop after the reply has arrived. *)
Definition examine (jsonSchema : option ZodSchema) (response : JsVal) : Outcome :=
  match jsonSchema with
  | None => Done response
  | Some jsonSchema =>
      match matchBraces response with
      | Throw e => Failed e
      | Return None => Again "Please respond with valid JSON."
      | Return (Some jsonMatch) =>
          match JSON_parse jsonMatch with
          | None => Again "Invalid JSON format. Please respond with valid JSON."
          | Some parsed =>
              match safeParse jsonSchema parsed with
              | inl data => Done data
              | inr message =>
                  Again ("JSON validation failed: " +:+ message +:+ ". Please correct.")
              end
          end
      end
  end.

(** [while (attempts <= maxRetries) { ... } return null], with [remaining]
    for [maxRetries + 1 - attempts]. *)
Fixpoint attemptLoop (client : Client) (config : Config.t)
    (jsonSchema : option ZodSchema) (otherOptions : JsVal)
    (remaining attempts : nat) (messages : list Message)
  : Completion JsVal * list Event :=
  match remaining with
  | O => (Return JNull, [])
  | S remaining' =>
      let request :=
        {| config := config;
           response_format := match jsonSchema with
                              | Some _ => true
                              | None => false
                              end;
           extra := otherOptions;
           messages := if isOpenAI config then None else Some messages |} in
      match client attempts request (if isOpenAI config then Some messages else None) with
      | Throw e => (Throw e, [Called messages])
      | Return response =>
          match examine jsonSchema response with
          | Done result => (Return result, [Called messages])
          | Failed e => (Throw e, [Called messages])
          | Again note =>
              match remaining' with
              | O => (Return JNull, [Called messages])
              | S _ =>
                  let (result, events) :=
                    attemptLoop client config jsonSchema otherOptions remaining'
                      (S attempts) (messages ++ [system note]) in
                  (result,
                   Called messages :: Waited (500 * Z.of_nat (S attempts)) :: events)
              end
          end
      end
  end.

(** The configuration that [callLLM] works with, or the error of the
    [try] block, rethrown as "LLM config validation failed: ...".  The
    table of presets is a plain object: the name of a member of
    [Object.prototype] finds that member, which is truthy and has none of
    the fields of a configuration. *)
Definition resolve (cfg : string + Config.t) : Completion Config.t :=
  match cfg with
  | inl name =>
      match lookupConfig name LLM_CONFIGS with
      | Some config => Return config
      | None =>
          if existsb (String.eqb name) objectPrototypeKeys then Return Config.empty
          else
            Throw (mkError "Error"
                     ("LLM config validation failed: " +:+ "Unknown model: " +:+ name
                      +:+ ". Available models: "
                      +:+ String.concat ", " (map fst LLM_CONFIGS)))
      end
  | inr object =>
      match llmConfigValidator object with
      | inl config => Return config
      | inr message =>
          Throw (mkError "Error" ("LLM config validation failed: " +:+ message))
      end
  end.

(** The messages before the first attempt. *)
Definition initialMessages (prompt : string) (options : Options) : list Message :=
  (match systemMessage options with
   | Some systemMessage => if nonEmpty systemMessage then [system systemMessage] else []
   | None => []
   end)
  ++ (match jsonSchema options with
      | Some jsonSchema =>
          [ system ("You MUST respond with a valid JSON object that matches the "
                    +:+ "following schema. Do not include any text outside the JSON: "
                    +:+ text jsonSchema) ]
      | None => []
      end)
  ++ [ {| role := "user"; content := prompt |} ].

Definition attemptsAllowed (options : Options) : nat :=
  Z.to_nat (default 2 (maxRetries options) + 1).

(** [callLLM(prompt, cfg, options)], with the events of the run. *)
Definition callLLM (prompt : string) (cfg : string + Config.t) (options : Options)
  : Completion JsVal * list Event :=
  match resolve cfg with
  | Throw e => (Throw e, [])
  | Return config =>
      let apiKey := loadAPIKey (Config.key config) in
      if negb (nonEmpty apiKey) then
        (Throw (mkError "Error"
                  ("Key not found. Please set " +:+ default "undefined" (Config.key config)
                   +:+ " in your environment.")), [])
      else
        match newClient config apiKey with
        | Throw e => (Throw e, [])
        | Return client =>
            attemptLoop client config (jsonSchema options) (otherOptions options)
              (attemptsAllowed options) 0 (initialMessages prompt options)
        end
  end.

End Client.

(** The calls of a run, and its delays. *)
Fixpoint calls (events : list Event) : list (list Message) :=
  match events with
  | [] => []
  | Called messages :: rest => messages :: calls rest
  | Waited _ :: rest => calls rest
  end.

Fixpoint waits (events : list Event) : list Z :=
  match events with
  | [] => []
  | Called _ :: rest => waits rest
  | Waited ms :: rest => ms :: waits rest
  end.

(** The delays [500 * 1, ..., 500 * n] after attempt [first]. *)
Definition backoff (first n : nat) : list Z :=
  map (fun attempts => 500 * Z.of_nat attempts) (seq (S first) n).

(** A reply that the loop does not accept under [schema]: a text without
    a brace pair, or whose brace match is no JSON, or whose value the
    schema refuses. *)
Definition rejected (JSON_parse : string -> option JsVal) (schema : ZodSchema)
    (response : JsVal) : bool :=
  match examine JSON_parse (Some schema) response with
  | Again _ => true
  | _ => false
  end.

(** The request of the attempt that is made with [messages], and the
    second argument that goes with it. *)
Definition requestOf (config : Config.t) (jsonSchema : option ZodSchema)
    (otherOptions : JsVal) (messages : list Message) : Request :=
  {| config := config;
     response_format := match jsonSchema with
                        | Some _ => true
                        | None => false
                        end;
     extra := otherOptions;
     messages := if isOpenAI config then None else Some messages |}.

Definition messagesOf (config : Config.t) (messages : list Message)
  : option (list Message) :=
  if isOpenAI config then Some messages else None.

(** [callLLM] reaches its loop: the configuration resolves to [config],
    its credential is in the environment, and the client is built. *)
Definition connected (env : gmap string string)
    (llmConfigValidator : Config.t -> Config.t + string)
    (newClient : Config.t -> string -> Completion Client)
    (cfg : string + Config.t) (config : Config.t) (client : Client) : Prop :=
  resolve llmConfigValidator cfg = Return config
  /\ nonEmpty (loadAPIKey env (Config.key config)) = true
  /\ newClient config (loadAPIKey env (Config.key config)) = Return client.

End AnyLlm.

(** Inputs of the properties of the any-llm version. *)
Module AnyCases.

(** A client whose answers are given by the number of the attempt. *)
Definition answeringBy (replies : nat -> Completion JsVal)
  : Config.t -> string -> Completion AnyLlm.Client :=
  fun _ _ => Return (fun attempts _ _ => replies attempts).

(** A validator that accepts every configuration object. *)
Definition lenient (object : Config.t) : Config.t + string := inl object.

(** A schema that requires the field [a]. *)
Definition needsA : AnyLlm.ZodSchema :=
  {| AnyLlm.text := dq "{'a': 'any'}";
     AnyLlm.safeParse := fun v => match getProp v "a" with
                                  | JUndefined => inr "Required"
                                  | _ => inl v
                                  end |}.

Definition withSchema (maxRetries : Z) : AnyLlm.Options :=
  {| AnyLlm.systemMessage := None; AnyLlm.jsonSchema := Some needsA;
     AnyLlm.maxRetries := Some maxRetries; AnyLlm.otherOptions := JObj [] |}.

(** Prose, then an object that the schema refuses, then the nested object
    of [Scenario.nestedReply]. *)
Definition improving (attempts : nat) : Completion JsVal :=
  match attempts with
  | O => Return (JStr "Sorry, I cannot answer.")
  | S O => Return (JStr (dq "{'b': 1}"))
  | _ => Return (JStr Scenario.nestedReply)
  end.

(** Prose every time. *)
Definition stubborn (attempts : nat) : Completion JsVal :=
  Return (JStr "Sorry, I cannot answer.").

(** Prose, then a connection error. *)
Definition dropping (attempts : nat) : Completion JsVal :=
  match attempts with
  | O => Return (JStr "Sorry, I cannot answer.")
  | _ => Throw (mkError "Error" "Connection error.")
  end.

End AnyCases.

(* ===================================================================== *)
(** ** Properties of the dispatch engine *)
(* ===================================================================== *)

(** Numbers are printed as JavaScript prints them. *)
Example Z_to_string_examples :
  map Z_to_string [0; -5; 2 ^ 53; 2 ^ 60; 10 ^ 21 - 2 ^ 17; 10 ^ 21; - 2 ^ 70;
                   2 ^ 1024 - 2 ^ 971]
  = [ "0"; "-5"; "9007199254740992"; "1152921504606847000"; "999999999999999900000";
      "1e+21"; "-1.1805916207174113e+21"; "1.7976931348623157e+308" ].
Proof. vm_compute. reflexivity. Qed.

Lemma isStr_true v s : isStr v s = true <-> v = JStr s.
Proof.
  destruct v; simpl; try (split; [discriminate | congruence]).
  rewrite String.eqb_eq. split; congruence.
Qed.

Lemma findTool_None srv name :
  findTool srv name = None <-> ~ registered srv name.
Proof.
  unfold findTool, registered. split.
  - intros Hnone [tool [Hin ->]].
    apply (find_none _ _ Hnone) in Hin. simpl in Hin.
    rewrite String.eqb_refl in Hin. discriminate.
  - intros Hnot. destruct (find _ _) as [tool|] eqn:Hfind; [|reflexivity].
    exfalso. apply Hnot. apply find_some in Hfind as [Hin Heq].
    exists tool. split; [exact Hin|]. now apply isStr_true.
Qed.

Lemma findTool_Some srv name tool :
  findTool srv name = Some tool -> In tool (tools srv) /\ name = JStr (Tool.name tool).
Proof.
  unfold findTool. intros Hfind. apply find_some in Hfind as [Hin Heq].
  split; [exact Hin|]. now apply isStr_true.
Qed.

Lemma template_converts v :
  throwsToString v = false -> template v = Return (toStringJs v).
Proof. unfold template. now intros ->. Qed.

(** The name of a call that finds a tool is a string. *)
Lemma findTool_template srv name tool :
  findTool srv name = Some tool -> template name = Return (toStringJs name).
Proof. intros Hfind. apply findTool_Some in Hfind as [_ ->]. reflexivity. Qed.

(** A name that has its own limiter does not reach an inherited member. *)
Lemma inheritedAt_own srv name limiter :
  rateLimiters srv !! toStringJs name = Some limiter -> inheritedAt srv name = false.
Proof.
  intros Hlimiter. unfold inheritedAt, lookupLimiter. rewrite Hlimiter.
  now destruct (Options.mockMode (options srv)).
Qed.

(** Neither does a string that is no member of [Object.prototype] and no
    member of a limiter. *)
Lemma inheritedAt_plain srv s :
  existsb (String.eqb s) objectPrototypeKeys = false ->
  existsb (String.eqb s) ["check"; "getError"] = false ->
  inheritedAt srv (JStr s) = false.
Proof.
  intros Hproto Hmember. unfold inheritedAt, lookupLimiter, inheritedKey.
  change (toStringJs (JStr s)) with s. rewrite Hproto.
  destruct (rateLimiters srv !! s); [now destruct (Options.mockMode (options srv))|].
  destruct (rateLimiters srv !! "__proto__"); [rewrite Hmember|]; reflexivity.
Qed.

Section Engine.

Variable handleReadResource : McpServer -> JsVal -> bool -> JsVal -> Completion JsVal.

Lemma executeToolCall_unknown srv env now name parameters isJsonRpc requestId :
  throwsToString name = false ->
  builtin name = false ->
  findTool srv name = None ->
  executeToolCall handleReadResource srv env now name parameters isJsonRpc requestId
  = (Return (if isJsonRpc
             then formatJsonRpcError requestId (-32601)
                    (JStr ("Tool not found: " +:+ toStringJs name))
             else formatMcpError srv (JStr "UnknownFunction")
                    (JStr ("Tool not found: " +:+ toStringJs name))),
     srv).
Proof.
  unfold builtin, executeToolCall. intros Hname Hb Hfind.
  rewrite (template_converts name Hname).
  apply orb_false_iff in Hb as [-> ->]. now rewrite Hfind.
Qed.


(** Updating a rate limiter changes nothing that the rest of
    [executeToolCall] reads. *)
Lemma validateAndRun_setRateLimiter srv key limiter env tool name parameters
    isJsonRpc requestId :
  validateAndRun (setRateLimiter srv key limiter) env tool name parameters isJsonRpc
    requestId
  = validateAndRun srv env tool name parameters isJsonRpc requestId.
Proof. reflexivity. Qed.

(** A registered tool that its limiter lets through runs. *)
Lemma executeToolCall_runs srv env now name parameters isJsonRpc requestId tool :
  builtin name = false ->
  findTool srv name = Some tool ->
  inheritedAt srv name = false ->
  limitedAt srv now name = false ->
  fst (executeToolCall handleReadResource srv env now name parameters isJsonRpc requestId)
  = validateAndRun srv env tool name parameters isJsonRpc requestId.
Proof.
  unfold builtin, executeToolCall, limitedAt, inheritedAt, lookupLimiter.
  intros Hb Hfind Hinh Hlim.
  rewrite (findTool_template srv name tool Hfind).
  apply orb_false_iff in Hb as [-> ->]. rewrite Hfind.
  destruct (rateLimiters srv !! toStringJs name) as [limiter|].
  - destruct (Options.mockMode (options srv)); [reflexivity|].
    destruct (RateLimiter.check limiter now "default") as [limited limiter'].
    simpl in Hlim. subst limited. reflexivity.
  - destruct (inheritedKey srv (toStringJs name));
      destruct (Options.mockMode (options srv)); try discriminate; reflexivity.
Qed.


(** The error object of a limiter that has just refused a call. *)
Lemma getError_after_check limiter now :
  fst (RateLimiter.check limiter now "default") = true ->
  exists message,
    RateLimiter.getError (snd (RateLimiter.check limiter now "default")) "default"
    = RateLimiter.exceeded message.
Proof.
  unfold RateLimiter.check, RateLimiter.getError.
  destruct (_ >=? _); [|discriminate]. intros _. simpl.
  rewrite lookup_insert_eq. simpl. eauto.
Qed.









End Engine.

(** C3 (as stated): the simple-shape request [{name: "unknown_op",
    parameters: {}}], sent to a server that has no such tool, is answered
    with the kind string [UnknownFunction], not [UnknownOperation].  And a
    name that is in no registry either but cannot be converted to a
    string, such as [{toString: 1}], is answered with no envelope at all:
    the call throws a [TypeError]. *)
Lemma unknown_operation_counterexample :
  ~ registered Scenario.server (JStr "unknown_op")
  /\ builtin (JStr "unknown_op") = false
  /\ fst (executeToolCall Scenario.readResource Scenario.server ∅ 0
            (JStr "unknown_op") (JObj []) false JNull)
     = Return (JObj [("protocolVersion", JStr "1.0");
                     ("error", JObj [("type", JStr "UnknownFunction");
                                     ("message", JStr "Tool not found: unknown_op")])])
  /\ JStr "UnknownFunction" <> JStr "UnknownOperation"
  /\ ~ registered Scenario.server Scenario.opaque
  /\ builtin Scenario.opaque = false
  /\ fst (executeToolCall Scenario.readResource Scenario.server ∅ 0
            Scenario.opaque (JObj []) false JNull)
     = Throw (mkError "TypeError" "Cannot convert object to primitive value").
Proof.
  split; [apply findTool_None; reflexivity|].
  split; [reflexivity|]. split; [reflexivity|]. split; [discriminate|].
  split; [apply findTool_None; reflexivity|].
  split; reflexivity.
Qed.

(** C3 (amended): for every tool name that is not in the registry, is not
    a built-in resource operation and can be converted to a string, the
    dispatch engine answers, in the simple shape, an error envelope whose
    kind string is exactly [UnknownFunction]; for a name that is a string
    its message is "Tool not found: <name>".  The state of the server is
    unchanged. *)
Theorem unknown_tool_is_UnknownFunction
    (handleReadResource : McpServer -> JsVal -> bool -> JsVal -> Completion JsVal)
    (srv : McpServer) (env : gmap string string) (now : Z)
    (name parameters requestId : JsVal) :
  ~ registered srv name ->
  builtin name = false ->
  throwsToString name = false ->
  exists message,
    executeToolCall handleReadResource srv env now name parameters false requestId
    = (Return (formatMcpError srv (JStr "UnknownFunction") (JStr message)), srv)
    /\ errorType (formatMcpError srv (JStr "UnknownFunction") (JStr message))
       = JStr "UnknownFunction"
    /\ (forall s, name = JStr s -> message = "Tool not found: " +:+ s).
Proof.
  intros Hreg Hb Hname. apply findTool_None in Hreg.
  exists ("Tool not found: " +:+ toStringJs name).
  split; [now rewrite executeToolCall_unknown|]. split; [reflexivity|].
  intros s ->. reflexivity.
Qed.

Lemma unknown_tool_is_UnknownFunction_witness :
  ~ registered Scenario.server (JStr "unknown_op")
  /\ builtin (JStr "unknown_op") = false
  /\ throwsToString (JStr "unknown_op") = false
  /\ exists message,
       executeToolCall Scenario.readResource Scenario.server ∅ 0 (JStr "unknown_op")
         (JObj []) false JNull
       = (Return (formatMcpError Scenario.server (JStr "UnknownFunction")
                    (JStr message)), Scenario.server)
       /\ errorType (formatMcpError Scenario.server (JStr "UnknownFunction")
                       (JStr message)) = JStr "UnknownFunction"
       /\ (forall s, JStr "unknown_op" = JStr s -> message = "Tool not found: " +:+ s).
Proof.
  assert (Hreg : ~ registered Scenario.server (JStr "unknown_op"))
    by (apply findTool_None; reflexivity).
  split; [exact Hreg|split; [reflexivity|split; [reflexivity|]]].
  exact (unknown_tool_is_UnknownFunction Scenario.readResource Scenario.server ∅ 0
           (JStr "unknown_op") (JObj []) JNull Hreg eq_refl eq_refl).
Defined.




(** C10 (as stated): the result [{type: "article", message: "draft text"}]
    is answered, in the versioned shape, with an error that has a code and
    no kind; a result that has truthy [type] and [message] and is also in
    the shape of a protocol error is answered unchanged, not re-wrapped;
    and the same article returned by a registered tool named [toString] is
    answered with no envelope, since the call throws before the handler
    runs. *)
Lemma typed_result_counterexample :
  findTool Scenario.server (JStr "draft") = Some Scenario.draft
  /\ Tool.handler Scenario.draft (JObj []) = Return Scenario.article
  /\ truthy (getProp Scenario.article "type") = true
  /\ truthy (getProp Scenario.article "message") = true
  /\ fst (executeToolCall Scenario.readResource Scenario.server ∅ 0
            (JStr "draft") (JObj []) true (JNum 7))
     = Return (JObj [("jsonrpc", JStr "2.0"); ("id", JNum 7);
                     ("error", JObj [("code", JNum (-32000));
                                     ("message", JStr "draft text")])])
  /\ errorType (JObj [("jsonrpc", JStr "2.0"); ("id", JNum 7);
                      ("error", JObj [("code", JNum (-32000));
                                      ("message", JStr "draft text")])])
     = JUndefined
  /\ findTool Scenario.server (JStr "notice") = Some Scenario.notice
  /\ Tool.handler Scenario.notice (JObj []) = Return Scenario.flagged
  /\ truthy (getProp Scenario.flagged "type") = true
  /\ truthy (getProp Scenario.flagged "message") = true
  /\ fst (executeToolCall Scenario.readResource Scenario.server ∅ 0
            (JStr "notice") (JObj []) false JNull)
     = Return Scenario.flagged
  /\ Scenario.flagged
     <> formatMcpError Scenario.server (getProp Scenario.flagged "type")
          (getProp Scenario.flagged "message")
  /\ findTool Scenario.shadowing (JStr "toString") = Some Scenario.shadowed
  /\ Tool.handler Scenario.shadowed (JObj []) = Return Scenario.article
  /\ fst (executeToolCall Scenario.readResource Scenario.shadowing ∅ 0
            (JStr "toString") (JObj []) false JNull)
     = Throw (mkError "TypeError" "this.rateLimiters[name].check is not a function").
Proof. repeat split. discriminate. Qed.

(** C10 (amended): when the call of a registered tool, whose name does not
    reach an inherited member of the table of rate limiters, is let
    through by the rate limiter and the credential validation, and returns
    an object with truthy [type] and [message] that is not in the shape of
    a protocol error (truthy [protocolVersion] and [error]), the dispatch
    engine does not wrap it as a success: in the simple shape it answers
    the error envelope of kind [result.type] with message [result.message],
    in the versioned shape the JSON-RPC error of code -32000 with message
    [result.message]. *)
Theorem typed_result_reported_as_error
    (handleReadResource : McpServer -> JsVal -> bool -> JsVal -> Completion JsVal)
    (srv : McpServer) (env : gmap string string) (now : Z)
    (name parameters : JsVal) (isJsonRpc : bool) (requestId : JsVal)
    (tool : Tool.t) (result : JsVal) :
  builtin name = false ->
  findTool srv name = Some tool ->
  inheritedAt srv name = false ->
  limitedAt srv now name = false ->
  isTrue (validateApiKeys srv env) = true ->
  invoke srv tool name parameters = Return result ->
  truthy (getProp result "type") = true ->
  truthy (getProp result "message") = true ->
  preFormatted result = false ->
  fst (executeToolCall handleReadResource srv env now name parameters isJsonRpc
         requestId)
  = Return (if isJsonRpc
            then formatJsonRpcError requestId (-32000) (getProp result "message")
            else formatMcpError srv (getProp result "type") (getProp result "message")).
Proof.
  intros Hb Hfind Hinh Hlim Hkeys Hinvoke Htype Hmessage Hpre.
  rewrite (executeToolCall_runs handleReadResource srv env now name parameters
             isJsonRpc requestId tool Hb Hfind Hinh Hlim).
  unfold validateAndRun. rewrite Hkeys, Hinvoke. simpl.
  unfold formatResult. fold (preFormatted result).
  rewrite Hpre, Htype, Hmessage.
  destruct result; try discriminate; reflexivity.
Qed.

Lemma typed_result_reported_as_error_witness :
  builtin (JStr "draft") = false
  /\ findTool Scenario.server (JStr "draft") = Some Scenario.draft
  /\ inheritedAt Scenario.server (JStr "draft") = false
  /\ limitedAt Scenario.server 0 (JStr "draft") = false
  /\ isTrue (validateApiKeys Scenario.server ∅) = true
  /\ invoke Scenario.server Scenario.draft (JStr "draft") (JObj [])
     = Return Scenario.article
  /\ truthy (getProp Scenario.article "type") = true
  /\ truthy (getProp Scenario.article "message") = true
  /\ preFormatted Scenario.article = false
  /\ fst (executeToolCall Scenario.readResource Scenario.server ∅ 0
            (JStr "draft") (JObj []) false JNull)
     = Return (formatMcpError Scenario.server (JStr "article") (JStr "draft text")).
Proof.
  repeat (split; [reflexivity|]).
  exact (typed_result_reported_as_error Scenario.readResource Scenario.server ∅ 0
           (JStr "draft") (JObj []) false JNull Scenario.draft Scenario.article
           eq_refl eq_refl eq_refl eq_refl eq_refl eq_refl eq_refl eq_refl eq_refl).
Defined.

(** C4 (as stated): the request of the scenario, with the tag
    [protocolVersion: "2.0"] and the method [execute], is not read as a
    versioned request (the parser looks for [jsonrpc: "2.0"]); routed by
    its absent tool name it is answered with an [UnknownFunction] error,
    and the method switch has no case [execute].  Neither answer is the
    response of the scenario. *)
Lemma versioned_scenario_counterexample :
  exists request,
    parseMcpRequest Json.parse Scenario.specLine = Return request
    /\ isJsonRpc request = false
    /\ name request = JUndefined
    /\ fst (executeToolCall Scenario.readResource Scenario.server ∅ 0
              (name request) (parameters request) false JNull)
       = Return (formatMcpError Scenario.server (JStr "UnknownFunction")
                   (JStr "Tool not found: undefined"))
    /\ formatMcpError Scenario.server (JStr "UnknownFunction")
         (JStr "Tool not found: undefined") <> Scenario.specResponse
    /\ fst (handleJsonRpcRequest Scenario.readResource Scenario.server ∅ 0
              {| isJsonRpc := true; id := JNum 7; method := JStr "execute";
                 name := JStr "echo"; parameters := Scenario.x1 |})
       = formatJsonRpcError (JNum 7) (-32601) (JStr "Method not found: execute")
    /\ formatJsonRpcError (JNum 7) (-32601) (JStr "Method not found: execute")
       <> Scenario.specResponse.
Proof.
  eexists. split; [vm_compute; reflexivity|].
  repeat split; discriminate.
Qed.

(** C4 (amended): the versioned request [{jsonrpc: "2.0", id: 7, method:
    "tools/execute", params: {name: "echo", parameters: {x: 1}}}], sent to
    a server where a tool [echo] is registered whose call returns [{x: 1}]
    and is let through by the rate limiter and the credential validation,
    is answered with [{jsonrpc: "2.0", id: 7, result: {x: 1}}]: the
    versioned shape is recognized by its [jsonrpc] tag, the method
    [tools/execute] routes to the tool, and the response mirrors the
    correlation id under the same tag. *)
Theorem versioned_execute_scenario
    (handleReadResource : McpServer -> JsVal -> bool -> JsVal -> Completion JsVal)
    (srv : McpServer) (env : gmap string string) (now : Z) (tool : Tool.t) :
  findTool srv (JStr "echo") = Some tool ->
  invoke srv tool (JStr "echo") Scenario.x1 = Return Scenario.x1 ->
  limitedAt srv now (JStr "echo") = false ->
  isTrue (validateApiKeys srv env) = true ->
  exists request,
    parseMcpRequest Json.parse Scenario.rpcLine = Return request
    /\ isJsonRpc request = true
    /\ fst (handleJsonRpcRequest handleReadResource srv env now request)
       = Scenario.rpcResponse.
Proof.
  intros Hfind Hinvoke Hlim Hkeys.
  eexists. split; [vm_compute; reflexivity|]. split; [reflexivity|].
  unfold handleJsonRpcRequest. simpl.
  pose proof (executeToolCall_runs handleReadResource srv env now (JStr "echo")
                Scenario.x1 true (JNum 7) tool eq_refl Hfind
                (inheritedAt_plain srv "echo" eq_refl eq_refl) Hlim) as Hrun.
  destruct (executeToolCall _ _ _ _ _ _ _ _) as [response srv'].
  simpl in Hrun. subst response.
  unfold validateAndRun. rewrite Hkeys, Hinvoke. reflexivity.
Qed.

Lemma versioned_execute_scenario_witness :
  findTool Scenario.server (JStr "echo") = Some Scenario.echo
  /\ invoke Scenario.server Scenario.echo (JStr "echo") Scenario.x1
     = Return Scenario.x1
  /\ limitedAt Scenario.server 0 (JStr "echo") = false
  /\ isTrue (validateApiKeys Scenario.server ∅) = true
  /\ exists request,
       parseMcpRequest Json.parse Scenario.rpcLine = Return request
       /\ isJsonRpc request = true
       /\ fst (handleJsonRpcRequest Scenario.readResource Scenario.server ∅ 0 request)
          = Scenario.rpcResponse.
Proof.
  repeat (split; [reflexivity|]).
  exact (versioned_execute_scenario Scenario.readResource Scenario.server ∅ 0
           Scenario.echo eq_refl eq_refl eq_refl eq_refl).
Defined.

(* --------------------------------------------------------------------- *)
(** *** The rate limiter *)
(* --------------------------------------------------------------------- *)





Section Window.

Variable handleReadResource : McpServer -> JsVal -> bool -> JsVal -> Completion JsVal.
Variable env : gmap string string.
Variable name : JsVal.
Variable isJsonRpc : bool.
Variable requestId : JsVal.
Variable tool : Tool.t.
Variables W N : Z.

(** The server after a call of a rate limited tool. *)
Lemma executeToolCall_state srv now parameters limiter :
  builtin name = false ->
  findTool srv name = Some tool ->
  Options.mockMode (options srv) = false ->
  rateLimiters srv !! toStringJs name = Some limiter ->
  snd (executeToolCall handleReadResource srv env now name parameters isJsonRpc requestId)
  = setRateLimiter srv (toStringJs name) (snd (RateLimiter.check limiter now "default")).
Proof.
  unfold builtin, executeToolCall, lookupLimiter. intros Hb Hfind Hmock Hlimiter.
  rewrite (findTool_template srv name tool Hfind).
  apply orb_false_iff in Hb as [-> ->]. rewrite Hfind, Hlimiter, Hmock.
  destruct (RateLimiter.check limiter now "default") as [[|] limiter']; reflexivity.
Qed.


End Window.



(** With threshold 1, of two rapid calls the first is answered by the
    handler and the second is rejected. *)
Example two_rapid_calls :
  fst (callMany Scenario.readResource Scenario.limited ∅ (JStr "echo") false JNull
         Scenario.rapid)
  = [ Return (JObj [("protocolVersion", JStr "1.0"); ("result", Scenario.x1)]);
      Return (JObj [("protocolVersion", JStr "1.0");
                    ("error",
                     JObj [("type", JStr "RateLimitExceeded");
                           ("message",
                            JStr "Rate limit exceeded. Try again in 60 seconds.")])]) ].
Proof. vm_compute. reflexivity. Qed.

(* ===================================================================== *)
(** ** Properties of the generation-invocation core *)
(* ===================================================================== *)

Lemma append_assoc (a b c : string) : (a +:+ b) +:+ c = a +:+ (b +:+ c).
Proof.
  induction a as [|x a IH]; [reflexivity|].
  change (String x ((a +:+ b) +:+ c) = String x (a +:+ (b +:+ c))).
  now rewrite IH.
Qed.

Section Core.

Variable JSON_parse : string -> option JsVal.
Variable env : gmap string string.
Variable net : Network.
Variable defaultSchema : Schema.

Lemma setup_tries prompt llm cfg s :
  setup JSON_parse env net defaultSchema prompt llm cfg = Return s ->
  tries s = default 3 (maxTries cfg).
Proof.
  unfold setup. destruct (negb _); [discriminate|].
  destruct (selectHandler _ _ _ _); [|discriminate].
  intros [= <-]. reflexivity.
Qed.

(** A loop whose every attempt comes back empty runs out after [n] calls,
    all of them with the same messages. *)
Lemma retryLoop_empty handler messages config n :
  forall i lastErr,
    (forall j, (j < n)%nat ->
       exists result,
         handler (i + j)%nat messages config = Return result
         /\ emptyResult result = true) ->
    retryLoop handler messages config n i lastErr
    = (Exhausted lastErr, replicate n messages).
Proof.
  induction n as [|n IH]; intros i lastErr Hempty; [reflexivity|].
  destruct (Hempty 0%nat) as [result [Hcall Hres]]; [lia|].
  rewrite Nat.add_0_r in Hcall. simpl. rewrite Hcall.
  unfold emptyResult in Hres. apply negb_true_iff in Hres. rewrite Hres.
  rewrite IH; [reflexivity|].
  intros j Hj. replace (S i + j)%nat with (i + S j)%nat by lia.
  apply Hempty. lia.
Qed.

(** The loop gives every attempt the same message list. *)
Lemma retryLoop_calls handler messages config n :
  forall i lastErr,
    Forall (eq messages) (snd (retryLoop handler messages config n i lastErr)).
Proof.
  induction n as [|n IH]; intros i lastErr; simpl; [constructor|].
  destruct (handler i messages config) as [result|e].
  - destruct (_ && _); [repeat constructor|].
    specialize (IH (S i) lastErr).
    destruct (retryLoop _ _ _ _ _ _). simpl in *. now constructor.
  - destruct (nullish e); [repeat constructor|].
    specialize (IH (S i) e).
    destruct (retryLoop _ _ _ _ _ _). simpl in *. now constructor.
Qed.

(** A first attempt that comes back with a non-empty value ends the call:
    the value is returned as it is, whatever the schema says of it. *)
Lemma callLLM_first_answer prompt llm cfg s result :
  setup JSON_parse env net defaultSchema prompt llm cfg = Return s ->
  0 < tries s ->
  handler s 0%nat (messages s) (config s) = Return result ->
  emptyResult result = false ->
  callLLM JSON_parse env net defaultSchema prompt llm cfg
  = (Return result, [messages s]).
Proof.
  intros Hsetup Htries Hcall Hres. unfold callLLM. rewrite Hsetup.
  destruct (Z.to_nat (tries s)) as [|n] eqn:Hn; [lia|].
  simpl. rewrite Hcall.
  unfold emptyResult in Hres. apply negb_false_iff in Hres. now rewrite Hres.
Qed.

End Core.

(** C5: for every [maxTries = N >= 1], when the provider handler comes
    back empty on every attempt, [callLLM] calls it exactly [N] times and
    then throws an error whose message names that count: "Failed after N
    attempts. No valid response received. Last response: undefined". *)
Theorem exhausted_after_maxTries
    (JSON_parse : string -> option JsVal) (env : gmap string string) (net : Network)
    (defaultSchema : Schema) (prompt : string) (llm : string + Config.t) (cfg : Cfg)
    (N : Z) (s : Setup) :
  maxTries cfg = Some N ->
  1 <= N ->
  setup JSON_parse env net defaultSchema prompt llm cfg = Return s ->
  (forall i, (i < Z.to_nat N)%nat ->
     exists result,
       handler s i (messages s) (config s) = Return result
       /\ emptyResult result = true) ->
  callLLM JSON_parse env net defaultSchema prompt llm cfg
  = (Throw (mkError "Error"
              ("Failed after " +:+ Z_to_string N
               +:+ " attempts. No valid response received."
               +:+ " Last response: undefined")),
     replicate (Z.to_nat N) (messages s))
  /\ Z.of_nat (length (snd (callLLM JSON_parse env net defaultSchema prompt llm cfg)))
     = N.
Proof.
  intros HN Hpos Hsetup Hempty.
  assert (Htries : tries s = N)
    by (rewrite (setup_tries _ _ _ _ _ _ _ _ Hsetup), HN; reflexivity).
  assert (Hcall : callLLM JSON_parse env net defaultSchema prompt llm cfg
                  = (Throw (mkError "Error"
                              ("Failed after " +:+ Z_to_string N
                               +:+ " attempts. No valid response received."
                               +:+ " Last response: undefined")),
                     replicate (Z.to_nat N) (messages s))).
  { unfold callLLM. rewrite Hsetup, Htries.
    rewrite retryLoop_empty by exact Hempty.
    unfold failure, failureMessage. simpl.
    now rewrite !append_assoc. }
  split; [exact Hcall|]. rewrite Hcall. simpl. rewrite length_replicate. lia.
Qed.

Lemma exhausted_after_maxTries_witness :
  maxTries (Scenario.cfgWith Scenario.valueSchema 2) = Some 2
  /\ 1 <= 2
  /\ setup Json.parse Scenario.anthropicEnv Scenario.unreachable Scenario.resultSchema
       Scenario.prompt (inl "claude3haiku") (Scenario.cfgWith Scenario.valueSchema 2)
     = Return (Scenario.haikuSetup Scenario.unreachable 2)
  /\ (forall i, (i < Z.to_nat 2)%nat ->
        exists result,
          handler (Scenario.haikuSetup Scenario.unreachable 2) i
            (messages (Scenario.haikuSetup Scenario.unreachable 2))
            (config (Scenario.haikuSetup Scenario.unreachable 2)) = Return result
          /\ emptyResult result = true)
  /\ callLLM Json.parse Scenario.anthropicEnv Scenario.unreachable Scenario.resultSchema
       Scenario.prompt (inl "claude3haiku") (Scenario.cfgWith Scenario.valueSchema 2)
     = (Throw (mkError "Error"
                 ("Failed after " +:+ Z_to_string 2
                  +:+ " attempts. No valid response received."
                  +:+ " Last response: undefined")),
        replicate (Z.to_nat 2) Scenario.promptMessages).
Proof.
  assert (Hsetup :
    setup Json.parse Scenario.anthropicEnv Scenario.unreachable Scenario.resultSchema
      Scenario.prompt (inl "claude3haiku") (Scenario.cfgWith Scenario.valueSchema 2)
    = Return (Scenario.haikuSetup Scenario.unreachable 2)) by (vm_compute; reflexivity).
  assert (Hempty : forall i, (i < Z.to_nat 2)%nat ->
        exists result,
          handler (Scenario.haikuSetup Scenario.unreachable 2) i
            (messages (Scenario.haikuSetup Scenario.unreachable 2))
            (config (Scenario.haikuSetup Scenario.unreachable 2)) = Return result
          /\ emptyResult result = true).
  { intros i _. exists (JObj []). split; [vm_compute|]; reflexivity. }
  split; [reflexivity|]. split; [lia|]. split; [exact Hsetup|]. split; [exact Hempty|].
  apply (exhausted_after_maxTries Json.parse Scenario.anthropicEnv Scenario.unreachable
           Scenario.resultSchema Scenario.prompt (inl "claude3haiku")
           (Scenario.cfgWith Scenario.valueSchema 2) 2
           (Scenario.haikuSetup Scenario.unreachable 2) eq_refl).
  - lia.
  - exact Hsetup.
  - exact Hempty.
Defined.

(** C6: when the resolved configuration has no [apiKey] and the
    environment variable that it names is absent or empty, [callLLM]
    throws "No API key found for <model>" before the retry loop: the
    provider handler is not called. *)
Theorem missing_credential_fails_fast
    (JSON_parse : string -> option JsVal) (env : gmap string string) (net : Network)
    (defaultSchema : Schema) (prompt : string) (llm : string + Config.t) (cfg : Cfg) :
  let config := resolveConfig llm cfg in
  absentOrEmpty (Config.apiKey config) ->
  absentOrEmpty (env !! default "undefined" (Config.key config)) ->
  callLLM JSON_parse env net defaultSchema prompt llm cfg
  = (Throw (mkError "Error"
              ("No API key found for " +:+ default "undefined" (Config.model config))),
     []).
Proof.
  intros config Hkey Henv.
  assert (Hread : readKey env (Config.key config) = EmptyString)
    by (unfold readKey; destruct Henv as [-> | ->]; reflexivity).
  assert (Hresolved : resolveApiKey env config = EmptyString)
    by (unfold resolveApiKey; destruct Hkey as [-> | ->]; simpl; exact Hread).
  unfold callLLM, setup. fold config. rewrite Hresolved. reflexivity.
Qed.

Lemma missing_credential_fails_fast_witness :
  absentOrEmpty (Config.apiKey (resolveConfig (inl "gpt4oMini") noCfg))
  /\ absentOrEmpty
       ((∅ : gmap string string)
          !! default "undefined" (Config.key (resolveConfig (inl "gpt4oMini") noCfg)))
  /\ callLLM Json.parse ∅ Scenario.unreachable Scenario.resultSchema Scenario.prompt
       (inl "gpt4oMini") noCfg
     = (Throw (mkError "Error" "No API key found for gpt-4o-mini"), []).
Proof.
  assert (H1 : absentOrEmpty (Config.apiKey (resolveConfig (inl "gpt4oMini") noCfg)))
    by (left; reflexivity).
  assert (H2 : absentOrEmpty
       ((∅ : gmap string string)
          !! default "undefined" (Config.key (resolveConfig (inl "gpt4oMini") noCfg))))
    by (left; reflexivity).
  split; [exact H1|]. split; [exact H2|].
  exact (missing_credential_fails_fast Json.parse ∅ Scenario.unreachable
           Scenario.resultSchema Scenario.prompt (inl "gpt4oMini") noCfg H1 H2).
Defined.

(** C1 (the code at the failing input): the caller asks for
    [z.object({ value: z.string() })] and the provider replies [{"foo": 1}];
    [callLLM] returns [{foo: 1}] from its first attempt although the schema
    rejects it. *)
Theorem callLLM_returns_schema_invalid_result :
  safeParse Scenario.valueSchema (JObj [("foo", JNum 1)]) = false
  /\ callLLM Json.parse Scenario.anthropicEnv (Scenario.answering (dq "{'foo': 1}"))
       Scenario.resultSchema Scenario.prompt (inl "claude3haiku")
       (Scenario.cfgWith Scenario.valueSchema 3)
     = (Return (JObj [("foo", JNum 1)]), [Scenario.promptMessages]).
Proof. split; vm_compute; reflexivity. Qed.

(** The message lists of all attempts of one call are the same list. *)
Lemma callLLM_same_messages
    (JSON_parse : string -> option JsVal) (env : gmap string string) (net : Network)
    (defaultSchema : Schema) (prompt : string) (llm : string + Config.t) (cfg : Cfg)
    (s : Setup) :
  setup JSON_parse env net defaultSchema prompt llm cfg = Return s ->
  Forall (eq (messages s))
    (snd (callLLM JSON_parse env net defaultSchema prompt llm cfg)).
Proof.
  intros Hsetup. unfold callLLM. rewrite Hsetup.
  pose proof (retryLoop_calls (handler s) (messages s) (config s)
                (Z.to_nat (tries s)) 0%nat JUndefined) as Hcalls.
  destruct (retryLoop _ _ _ _ _ _) as [[result|e|lastErr] calls]; exact Hcalls.
Qed.

(** C9 (the code at the failing input): with [maxTries = 2] and a provider
    that comes back empty, the second attempt is made with the message
    list of the first, a single user message, and nothing is added between
    the attempts. *)
Theorem callLLM_retries_with_same_messages :
  callLLM Json.parse Scenario.anthropicEnv Scenario.unreachable Scenario.resultSchema
    Scenario.prompt (inl "claude3haiku") (Scenario.cfgWith Scenario.valueSchema 2)
  = (Throw (mkError "Error"
              "Failed after 2 attempts. No valid response received. Last response: undefined"),
     [Scenario.promptMessages; Scenario.promptMessages])
  /\ length Scenario.promptMessages = 1%nat.
Proof. split; vm_compute; reflexivity. Qed.

(** C8 (the code at the failing input): in a reply whose only JSON is the
    nested object [{"a":{"b":1}}] inside prose, the brace expression
    matches up to the first closing brace; that text does not parse, and
    [extractJson] answers [null]. *)
Theorem nested_object_in_prose_not_extracted :
  Json.parse (dq "{'a':{'b':1}}") = Some (JObj [("a", JObj [("b", JNum 1)])])
  /\ braceMatch Scenario.nestedReply = Some (dq "{'a':{'b':1}")
  /\ Json.parse (dq "{'a':{'b':1}") = None
  /\ extractJson Json.parse (JStr Scenario.nestedReply) = Return JNull
  /\ anthropic_handler Json.parse Scenario.anthropicEnv
       (Scenario.answering Scenario.nestedReply) 0%nat Scenario.promptMessages
       Scenario.haikuConfig
     = Return JNull.
Proof. repeat split; vm_compute; reflexivity. Qed.

(** The strategies that do extract: the arguments of a tool call, a whole
    text that is JSON, a fenced block, and a flat object inside prose; a
    text without JSON gives [null]. *)
Example extract_tool_call_arguments :
  openai_handler Json.parse
    {| openai_create := fun _ _ _ =>
         Return (JObj [("choices",
           JArr [JObj [("message",
             JObj [("content", JStr (dq "{'from':'content'}"));
                   ("tool_calls",
                    JArr [JObj [("function",
                      JObj [("name", JStr "extract");
                            ("arguments", JStr (dq "{'from':'arguments'}"))])]])])]])]);
       anthropic_create := anthropic_create Scenario.unreachable;
       perplexity_post := perplexity_post Scenario.unreachable |}
    0%nat Scenario.promptMessages Scenario.haikuConfig
  = Return (JObj [("from", JStr "arguments")]).
Proof. vm_compute. reflexivity. Qed.

Example extract_direct :
  extractJson Json.parse (JStr (dq " {'a': {'b': 1}} "))
  = Return (JObj [("a", JObj [("b", JNum 1)])]).
Proof. vm_compute. reflexivity. Qed.

Example extract_fenced_block :
  extractJson Json.parse
    (JStr ("Here you are:" +:+ nl +:+ "```json" +:+ nl
           +:+ dq "{'a': {'b': 1}}" +:+ nl +:+ "```" +:+ nl +:+ "Done."))
  = Return (JObj [("a", JObj [("b", JNum 1)])]).
Proof. vm_compute. reflexivity. Qed.

Example extract_flat_object :
  extractJson Json.parse (JStr (dq "The answer is {'a': 1}, as asked."))
  = Return (JObj [("a", JNum 1)]).
Proof. vm_compute. reflexivity. Qed.

Example extract_nothing :
  extractJson Json.parse (JStr "There is no JSON here.") = Return JNull.
Proof. vm_compute. reflexivity. Qed.

(* ===================================================================== *)
(** ** Further properties: the registry and the credential helpers *)
(* ===================================================================== *)

Lemma registerTool_validTool srv tool :
  registerTool srv tool
  = if validTool tool
    then Return {| options := options srv; tools := tools srv ++ [tool];
                   apiKeySchemas := apiKeySchemas srv;
                   rateLimiters := rateLimiters srv |}
    else Throw (mkError "Error" "Invalid tool definition").
Proof.
  unfold registerTool, validTool.
  destruct (nonEmpty (Tool.name tool)), (nonEmpty (Tool.description tool)),
    (truthy (Tool.parameters tool)); reflexivity.
Qed.

Lemma registerTools_valid (srv : McpServer) (ts : list Tool.t) :
  registerTools srv ts
  = if forallb validTool ts
    then Return {| options := options srv; tools := tools srv ++ ts;
                   apiKeySchemas := apiKeySchemas srv;
                   rateLimiters := rateLimiters srv |}
    else Throw (mkError "Error" "Invalid tool definition").
Proof.
  revert srv. induction ts as [|tool ts IH]; intros srv; simpl.
  - rewrite app_nil_r. destruct srv; reflexivity.
  - rewrite registerTool_validTool. destruct (validTool tool); simpl; [|reflexivity].
    rewrite IH. simpl. rewrite <- app_assoc. reflexivity.
Qed.

Lemma registerTools_in_place (srv : McpServer) (ts : list Tool.t) :
  InPlace.registerTools srv ts
  = ({| options := options srv; tools := tools srv ++ accepted ts;
        apiKeySchemas := apiKeySchemas srv;
        rateLimiters := rateLimiters srv |},
     if forallb validTool ts then None
     else Some (mkError "Error" "Invalid tool definition")).
Proof.
  revert srv. induction ts as [|tool ts IH]; intros srv.
  - simpl. rewrite app_nil_r. destruct srv; reflexivity.
  - cbn [InPlace.registerTools accepted forallb].
    rewrite registerTool_validTool. destruct (validTool tool).
    + rewrite IH. cbn [options tools apiKeySchemas rateLimiters andb].
      rewrite <- app_assoc. reflexivity.
    + cbn [andb]. rewrite app_nil_r. destruct srv; reflexivity.
Qed.

Lemma accepted_split (ts : list Tool.t) :
  if forallb validTool ts then accepted ts = ts
  else exists before tool after,
         ts = before ++ tool :: after
         /\ accepted ts = before
         /\ validTool tool = false.
Proof.
  induction ts as [|tool ts IH]; [reflexivity|].
  cbn [accepted forallb]. destruct (validTool tool) eqn:Hvalid; cbn [andb].
  - destruct (forallb validTool ts).
    + now rewrite IH.
    + destruct IH as [before [bad [after [-> [Hbefore Hbad]]]]].
      exists (tool :: before), bad, after. rewrite Hbefore. auto.
  - exists [], tool, ts. auto.
Qed.

(** X1: [registerTools] is not atomic.  It appends the definitions to the
    registry in the order given and changes nothing else of the server;
    when one of them is incomplete (empty name or description, falsy
    parameters) it throws "Invalid tool definition", and the definitions
    before the first incomplete one stay registered.  When all are
    complete, all are registered and nothing is thrown. *)
Theorem registerTools_keeps_accepted_prefix (srv : McpServer) (ts : list Tool.t) :
  InPlace.registerTools srv ts
  = ({| options := options srv; tools := tools srv ++ accepted ts;
        apiKeySchemas := apiKeySchemas srv;
        rateLimiters := rateLimiters srv |},
     if forallb validTool ts then None
     else Some (mkError "Error" "Invalid tool definition"))
  /\ (if forallb validTool ts then accepted ts = ts
      else exists before tool after,
             ts = before ++ tool :: after
             /\ accepted ts = before
             /\ validTool tool = false)
  /\ registerTools srv ts
     = match snd (InPlace.registerTools srv ts) with
       | None => Return (fst (InPlace.registerTools srv ts))
       | Some error => Throw error
       end.
Proof.
  split; [apply registerTools_in_place|]. split; [apply accepted_split|].
  rewrite registerTools_valid, registerTools_in_place. cbn [fst snd].
  pose proof (accepted_split ts) as Hsplit.
  destruct (forallb validTool ts); [|reflexivity]. now rewrite Hsplit.
Qed.

Lemma find_app_first {A} (f : A -> bool) (l1 l2 : list A) :
  List.find f (l1 ++ l2)
  = match List.find f l1 with
    | Some x => Some x
    | None => List.find f l2
    end.
Proof.
  induction l1 as [|x l1 IH]; simpl; [reflexivity|].
  destruct (f x); [reflexivity|exact IH].
Qed.

(** X2: the registry keeps no uniqueness of names, and [findTool] answers
    the tool registered first: after a successful [registerTools], a name
    that was already registered still resolves to the earlier tool, and a
    new name resolves to the first tool of the list that bears it. *)
Theorem findTool_first_registered (srv srv' : McpServer) (ts : list Tool.t)
    (name : JsVal) :
  registerTools srv ts = Return srv' ->
  findTool srv' name
  = match findTool srv name with
    | Some tool => Some tool
    | None => List.find (fun tool => isStr name (Tool.name tool)) ts
    end.
Proof.
  rewrite registerTools_valid.
  destruct (forallb validTool ts); [|discriminate].
  intros [= <-]. unfold findTool. simpl. apply find_app_first.
Qed.

Lemma findTool_first_registered_witness :
  registerTools Scenario.server [Cases.echo2]
  = Return (Scenario.serverWith
              [Scenario.echo; Scenario.status; Scenario.draft; Scenario.notice;
               Cases.echo2])
  /\ findTool (Scenario.serverWith
                 [Scenario.echo; Scenario.status; Scenario.draft; Scenario.notice;
                  Cases.echo2]) (JStr "echo")
     = Some Scenario.echo.
Proof.
  assert (H : registerTools Scenario.server [Cases.echo2]
              = Return (Scenario.serverWith
                          [Scenario.echo; Scenario.status; Scenario.draft;
                           Scenario.notice; Cases.echo2])) by reflexivity.
  split; [exact H|].
  rewrite (findTool_first_registered Scenario.server _ [Cases.echo2] (JStr "echo") H).
  reflexivity.
Defined.

(** X3: [createTool] accepts an options object exactly when its name and
    its description are strings with a non-blank character and its handler
    is a function, and returns it unchanged; it does not look at the
    parameter schema, so an accepted definition without parameters is
    refused by [registerTool]. *)
Theorem createTool_then_registerTool (o o' : Utils.ToolOptions) (srv : McpServer) :
  Utils.createTool (Some o) = Return o' ->
  o' = o
  /\ Utils.nonBlankString (Utils.name o) = true
  /\ Utils.nonBlankString (Utils.description o) = true
  /\ exists tool,
       Utils.asTool o = Some tool
       /\ registerTool srv tool
          = if truthy (Utils.parameters o)
            then Return {| options := options srv; tools := tools srv ++ [tool];
                           apiKeySchemas := apiKeySchemas srv;
                           rateLimiters := rateLimiters srv |}
            else Throw (mkError "Error" "Invalid tool definition").
Proof.
  unfold Utils.createTool, Utils.asTool.
  destruct (Utils.nonBlankString (Utils.name o)) eqn:Hname; [|discriminate].
  destruct (Utils.nonBlankString (Utils.description o)) eqn:Hdesc; [|discriminate].
  destruct (Utils.handler o) as [h|]; [|discriminate].
  simpl. intros [= <-]. repeat (split; [reflexivity|]).
  destruct (Utils.name o) as [| | | |n| |]; try discriminate.
  destruct (Utils.description o) as [| | | |d| |]; try discriminate.
  eexists. split; [reflexivity|].
  rewrite registerTool_validTool. unfold validTool. simpl.
  destruct n; [discriminate|]. destruct d; [discriminate|]. reflexivity.
Qed.

Lemma createTool_then_registerTool_witness :
  Utils.createTool (Some Cases.bareOptions) = Return Cases.bareOptions
  /\ Utils.asTool Cases.bareOptions = Some Cases.bare
  /\ registerTool Scenario.server Cases.bare
     = Throw (mkError "Error" "Invalid tool definition").
Proof.
  assert (H : Utils.createTool (Some Cases.bareOptions) = Return Cases.bareOptions)
    by reflexivity.
  split; [exact H|]. split; [reflexivity|].
  destruct (createTool_then_registerTool Cases.bareOptions Cases.bareOptions
              Scenario.server H) as [_ [_ [_ [tool [Htool Hreg]]]]].
  injection Htool as <-. exact Hreg.
Defined.

Lemma addKey_In keySet key k :
  In k (Utils.addKey keySet key) <-> In k keySet \/ k = key.
Proof.
  unfold Utils.addKey. destruct (existsb _ _) eqn:Hex.
  - apply existsb_exists in Hex as [x [Hx Heq]]. apply String.eqb_eq in Heq. subst x.
    split; [auto|]. intros [H| ->]; assumption.
  - rewrite in_app_iff. simpl. intuition.
Qed.

Lemma addKey_NoDup keySet key : NoDup keySet -> NoDup (Utils.addKey keySet key).
Proof.
  intros Hnd. unfold Utils.addKey. destruct (existsb _ _) eqn:Hex; [exact Hnd|].
  apply NoDup_app. split; [exact Hnd|]. split; [|apply NoDup_singleton].
  intros x Hx Hin. apply list_elem_of_In in Hx.
  apply list_elem_of_In in Hin. destruct Hin as [<-|[]].
  assert (existsb (String.eqb key) keySet = true)
    by (apply existsb_exists; exists key; split; [exact Hx|apply String.eqb_refl]).
  congruence.
Qed.

Lemma addKeys_spec ks :
  forall keySet,
    NoDup keySet ->
    NoDup (fold_left Utils.addKey ks keySet)
    /\ forall k, In k (fold_left Utils.addKey ks keySet) <-> In k keySet \/ In k ks.
Proof.
  induction ks as [|key ks IH]; intros keySet Hnd; simpl.
  - split; [exact Hnd|]. intuition.
  - destruct (IH (Utils.addKey keySet key) (addKey_NoDup _ _ Hnd)) as [Hnd' Hin].
    split; [exact Hnd'|]. intros k. rewrite Hin, addKey_In. intuition.
Qed.

(** X4: [getAllRequiredKeys] lists every key of every tool whose [keys] is
    an array, and nothing else, each key once. *)
Theorem getAllRequiredKeys_set (ts : list (option (list string))) :
  NoDup (Utils.getAllRequiredKeys ts)
  /\ forall k,
       In k (Utils.getAllRequiredKeys ts)
       <-> exists ks, In (Some ks) ts /\ In k ks.
Proof.
  unfold Utils.getAllRequiredKeys.
  assert (Hgen : forall keySet,
    NoDup keySet ->
    let result :=
      fold_left (fun keySet keys =>
                   match keys with
                   | Some ks => fold_left Utils.addKey ks keySet
                   | None => keySet
                   end) ts keySet in
    NoDup result
    /\ forall k, In k result <-> In k keySet \/ exists ks, In (Some ks) ts /\ In k ks).
  { induction ts as [|[ks|] ts IH]; intros keySet Hnd; simpl.
    - split; [exact Hnd|]. intros k. split; [auto|]. intros [H|[ks [[] _]]]. exact H.
    - destruct (addKeys_spec ks keySet Hnd) as [Hnd' Hin].
      destruct (IH _ Hnd') as [Hnd'' Hin'']. split; [exact Hnd''|].
      intros k. rewrite Hin'', Hin. split.
      + intros [[H|H]|[ks' [H1 H2]]]; [auto|right; exists ks; auto|].
        right. exists ks'. auto.
      + intros [H|[ks' [[[= ->]|H1] H2]]]; [auto|auto|]. right. exists ks'. auto.
    - destruct (IH _ Hnd) as [Hnd'' Hin'']. split; [exact Hnd''|].
      intros k. rewrite Hin''. split.
      + intros [H|[ks' [H1 H2]]]; [auto|]. right. exists ks'. auto.
      + intros [H|[ks' [[[=]|H1] H2]]]; [auto|]. right. exists ks'. auto. }
  destruct (Hgen [] (NoDup_nil_2)) as [Hnd Hin]. split; [exact Hnd|].
  intros k. rewrite Hin. simpl. intuition.
Qed.

(** X5: the exported [validateApiKeys] answers [true] exactly when mock
    mode is on (its argument, or [MOCK_MODE] set to [1] or [true]) or both
    [PERPLEXITY_API_KEY] and [ANTHROPIC_API_KEY] are present and not
    empty; otherwise it answers an object with an [error] message. *)
Theorem validateApiKeys_true_iff (mockMode : bool) (env : gmap string string) :
  (Utils.validateApiKeys mockMode env = JBool true
   <-> (mockMode = true \/ env !! "MOCK_MODE" = Some "1"
        \/ env !! "MOCK_MODE" = Some "true"
        \/ ((exists p, env !! "PERPLEXITY_API_KEY" = Some p /\ p <> EmptyString)
            /\ (exists a, env !! "ANTHROPIC_API_KEY" = Some a /\ a <> EmptyString))))
  /\ (Utils.validateApiKeys mockMode env = JBool true
      \/ exists message,
           Utils.validateApiKeys mockMode env = JObj [("error", JStr message)]).
Proof.
  unfold Utils.validateApiKeys, Utils.requireKey.
  destruct mockMode; simpl; [split; [split; auto|auto]|].
  case_bool_decide as H1; simpl; [split; [split; auto|auto]|].
  case_bool_decide as H2; simpl; [split; [split; auto|auto]|].
  destruct (env !! "PERPLEXITY_API_KEY") as [[|c p]|] eqn:Hp;
    destruct (env !! "ANTHROPIC_API_KEY") as [[|c' a]|] eqn:Ha; simpl.
  all: split; [split|eauto].
  all: try discriminate.
  all: try (intros [?|[?|[?|[[p' [Hp' Hne]] [a' [Ha' Hne']]]]]]; congruence).
  intros _. right. right. right.
  split; eexists; (split; [reflexivity|discriminate]).
Qed.

(* ===================================================================== *)
(** ** Further properties: the rate limiter *)
(* ===================================================================== *)

(** One [check], whatever the limiter holds. *)
Lemma check_step limiter now :
  let recent := filter (fun time => now - time < RateLimiter.windowMs limiter)
                       (held limiter) in
  let (limited, limiter') := RateLimiter.check limiter now "default" in
  RateLimiter.windowMs limiter' = RateLimiter.windowMs limiter
  /\ RateLimiter.maxRequests limiter' = RateLimiter.maxRequests limiter
  /\ limited = (Z.of_nat (length recent) >=? RateLimiter.maxRequests limiter)
  /\ held limiter' = (if limited then recent else recent ++ [now]).
Proof.
  unfold RateLimiter.check. fold (held limiter).
  destruct (_ >=? _); (split; [reflexivity|split; [reflexivity|split; [reflexivity|]]]);
    unfold held, RateLimiter.key; simpl; now rewrite lookup_insert_eq.
Qed.

(** Filtering by a later window subsumes filtering by an earlier one. *)
Lemma filter_window_later (W prev now : Z) (A : list Z) :
  prev <= now ->
  filter (fun time => now - time < W) (filter (fun time => prev - time < W) A)
  = filter (fun time => now - time < W) A.
Proof.
  intros Hle. induction A as [|a A IH]; [reflexivity|].
  destruct (decide (prev - a < W)) as [Hp|Hp].
  - rewrite (filter_cons_True (fun time => prev - time < W)) by exact Hp.
    destruct (decide (now - a < W)) as [Hn|Hn].
    + rewrite !(filter_cons_True (fun time => now - time < W)) by exact Hn.
      now rewrite IH.
    + rewrite !(filter_cons_False (fun time => now - time < W)) by exact Hn.
      exact IH.
  - rewrite (filter_cons_False (fun time => prev - time < W)) by exact Hp.
    rewrite (filter_cons_False (fun time => now - time < W)) by lia.
    exact IH.
Qed.

Lemma last_nonempty (a d d' : Z) (rest : list Z) :
  List.last (a :: rest) d = List.last (a :: rest) d'.
Proof.
  revert a. induction rest as [|b rest IH]; intros a; [reflexivity|].
  change (List.last (b :: rest) d = List.last (b :: rest) d'). apply IH.
Qed.

Lemma last_cons (now prev : Z) (rest : list Z) :
  List.last (now :: rest) prev = List.last rest now.
Proof.
  destruct rest as [|a rest]; [reflexivity|].
  change (List.last (a :: rest) prev = List.last (a :: rest) now).
  apply last_nonempty.
Qed.

(** The limiter holds exactly the admitted calls of the current window,
    and never more than its threshold. *)
Lemma runChecks_invariant (W N : Z) times :
  forall limiter (A : list Z) (prev : Z),
    0 < W ->
    RateLimiter.windowMs limiter = W ->
    RateLimiter.maxRequests limiter = N ->
    held limiter = filter (fun time => prev - time < W) A ->
    Z.of_nat (length (held limiter)) <= Z.max N 0 ->
    nondecreasing (prev :: times) ->
    let (verdicts, final) := runChecks limiter times in
    held final
    = filter (fun time => List.last times prev - time < W) (A ++ admitted verdicts)
    /\ Z.of_nat (length (held final)) <= Z.max N 0.
Proof.
  induction times as [|now rest IH];
    intros limiter A prev HW0 HW HN Hheld Hlen [Hprev Hsorted].
  - simpl. rewrite app_nil_r. auto.
  - rewrite last_cons. cbn [runChecks].
    pose proof (check_step limiter now) as Hstep. simpl in Hstep.
    destruct (RateLimiter.check limiter now "default") as [limited limiter'].
    destruct Hstep as [HW' [HN' [Hlim Hheld']]].
    rewrite HW, Hheld, filter_window_later in Hheld' by (apply Hprev; now left).
    rewrite HW, Hheld, filter_window_later in Hlim by (apply Hprev; now left).
    assert (Hrecent : Z.of_nat (length (filter (fun time => now - time < W) A))
                      <= Z.max N 0).
    { rewrite <- (filter_window_later W prev now A) by (apply Hprev; now left).
      rewrite <- Hheld. pose proof (length_filter (fun time => now - time < W)
                                      (held limiter)). lia. }
    specialize (IH limiter' (if limited then A else A ++ [now]) now HW0).
    destruct (runChecks limiter' rest) as [verdicts final].
    destruct limited; cbn [admitted].
    + apply IH; try congruence.
    + rewrite (app_assoc A [now] _ : A ++ now :: admitted verdicts
                                     = (A ++ [now]) ++ admitted verdicts).
      apply IH; try congruence.
      * rewrite Hheld', filter_app. f_equal.
        rewrite filter_cons_True by lia. reflexivity.
      * rewrite Hheld', length_app. simpl.
        rewrite HN in Hlim. symmetry in Hlim. lia.
Qed.

(** X6: on a clock that does not run backwards, a limiter created with
    threshold [N] and a positive window never has more than [N] admitted
    calls inside the window that ends at the current call. *)
Theorem rate_limiter_never_exceeds
    (toolName : string) (optWindowMs optMaxRequests : option Z) (times : list Z) :
  let limiter := RateLimiter.create toolName optWindowMs optMaxRequests in
  let windowMs := RateLimiter.windowMs limiter in
  0 < windowMs ->
  nondecreasing times ->
  Z.of_nat (inWindow windowMs (List.last times 0)
              (admitted (fst (runChecks limiter times))))
  <= Z.max (RateLimiter.maxRequests limiter) 0.
Proof.
  intros limiter windowMs HW Hsorted. unfold inWindow.
  destruct times as [|now rest]; [simpl; lia|].
  pose proof (runChecks_invariant windowMs (RateLimiter.maxRequests limiter)
                (now :: rest) limiter [] now HW eq_refl eq_refl) as Hinv.
  destruct (runChecks limiter (now :: rest)) as [verdicts final].
  destruct Hinv as [Hheld Hlen].
  - unfold held. simpl. now rewrite lookup_empty.
  - unfold held. simpl. rewrite lookup_empty. simpl. lia.
  - split; [|exact Hsorted]. intros later [<-|Hin]; [lia|].
    destruct Hsorted as [Hfirst _]. now apply Hfirst.
  - rewrite (last_nonempty now 0 now rest). cbn [fst].
    rewrite app_nil_l in Hheld. rewrite <- Hheld. exact Hlen.
Qed.

Lemma rate_limiter_never_exceeds_witness :
  0 < RateLimiter.windowMs (RateLimiter.create "echo" (Some 60000) (Some 1))
  /\ nondecreasing [1000; 1001; 70000]
  /\ Z.of_nat (inWindow 60000 (List.last [1000; 1001; 70000] 0)
                 (admitted (fst (runChecks
                                   (RateLimiter.create "echo" (Some 60000) (Some 1))
                                   [1000; 1001; 70000]))))
     <= Z.max 1 0.
Proof.
  assert (H1 : 0 < RateLimiter.windowMs (RateLimiter.create "echo" (Some 60000) (Some 1)))
    by (simpl; lia).
  assert (H2 : nondecreasing [1000; 1001; 70000]).
  { simpl. intuition lia. }
  split; [exact H1|]. split; [exact H2|].
  exact (rate_limiter_never_exceeds "echo" (Some 60000) (Some 1) [1000; 1001; 70000]
           H1 H2).
Defined.

(** The verdicts of the three calls above: admitted, refused, and
    admitted again once the first call has left the window. *)
Example runChecks_sliding :
  fst (runChecks (RateLimiter.create "echo" (Some 60000) (Some 1)) [1000; 1001; 70000])
  = [(1000, false); (1001, true); (70000, false)].
Proof. vm_compute. reflexivity. Qed.

Lemma filter_drops (P : Z -> Prop) `{!forall x, Decision (P x)} (l : list Z) :
  (forall x, In x l -> ~ P x) -> filter P l = [].
Proof.
  induction l as [|a l IH]; intros Hall; [reflexivity|].
  rewrite filter_cons_False by (apply Hall; now left).
  apply IH. intros x Hx. apply Hall. now right.
Qed.

(** X7: the window slides.  Once every timestamp that a limiter holds is
    [windowMs] or more in the past, the next call is admitted (for a
    threshold of at least 1) and becomes the only timestamp held, however
    many calls were refused before. *)
Theorem rate_limiter_recovers (limiter : RateLimiter.t) (now : Z) :
  1 <= RateLimiter.maxRequests limiter ->
  (forall time, In time (held limiter) -> RateLimiter.windowMs limiter <= now - time) ->
  fst (RateLimiter.check limiter now "default") = false
  /\ held (snd (RateLimiter.check limiter now "default")) = [now].
Proof.
  intros HN Hold. pose proof (check_step limiter now) as Hstep. simpl in Hstep.
  destruct (RateLimiter.check limiter now "default") as [limited limiter'].
  destruct Hstep as [_ [_ [Hlim Hheld]]].
  rewrite filter_drops in Hlim, Hheld by (intros x Hx; specialize (Hold x Hx); lia).
  assert (Hf : (Z.of_nat (length (@nil Z)) >=? RateLimiter.maxRequests limiter) = false).
  { destruct (_ >=? _) eqn:E; [|reflexivity].
    apply Z.geb_le in E. simpl in E. lia. }
  rewrite Hf in Hlim. subst limited.
  split; [reflexivity|exact Hheld].
Qed.

Lemma rate_limiter_recovers_witness :
  let limiter := snd (runChecks (RateLimiter.create "echo" (Some 60000) (Some 1))
                        [1000; 1001]) in
  1 <= RateLimiter.maxRequests limiter
  /\ (forall time, In time (held limiter) ->
        RateLimiter.windowMs limiter <= 61000 - time)
  /\ fst (RateLimiter.check limiter 61000 "default") = false
  /\ held (snd (RateLimiter.check limiter 61000 "default")) = [61000].
Proof.
  intros limiter.
  assert (H1 : 1 <= RateLimiter.maxRequests limiter) by (vm_compute; discriminate).
  assert (H2 : forall time, In time (held limiter) ->
                 RateLimiter.windowMs limiter <= 61000 - time).
  { intros time Hin. vm_compute in Hin. destruct Hin as [<-|[]].
    vm_compute. discriminate. }
  split; [exact H1|]. split; [exact H2|].
  exact (rate_limiter_recovers limiter 61000 H1 H2).
Defined.

(** One millisecond earlier the same call is still refused. *)
Example still_refused_before_expiry :
  fst (RateLimiter.check
         (snd (runChecks (RateLimiter.create "echo" (Some 60000) (Some 1)) [1000; 1001]))
         60999 "default") = true.
Proof. vm_compute. reflexivity. Qed.

Lemma foldr_min_In (time : Z) (others : list Z) :
  In (foldr Z.min time others) (time :: others).
Proof.
  induction others as [|a others IH]; simpl; [now left|].
  destruct (Z.min_spec a (foldr Z.min time others)) as [[_ ->]|[_ ->]].
  - right. now left.
  - destruct IH as [IH|IH]; [now left|right; now right].
Qed.

Lemma ceilDiv_bounds (a b : Z) :
  0 < a -> a <= b -> 1 <= RateLimiter.ceilDiv a 1000 <= RateLimiter.ceilDiv b 1000.
Proof.
  intros Ha Hab. unfold RateLimiter.ceilDiv.
  assert (- a / 1000 < 0) by (apply Z.div_lt_upper_bound; lia).
  assert (- b / 1000 <= - a / 1000) by (apply Z.div_le_mono; lia).
  lia.
Qed.

(** X8: when a call is refused by a limiter of threshold at least 1 and no
    held timestamp lies in the future, the error that the limiter keeps
    for the client reads "Rate limit exceeded. Try again in S seconds."
    with [1 <= S <= ceil(windowMs / 1000)]. *)
Theorem rate_limit_wait_bounds (limiter : RateLimiter.t) (now : Z) :
  1 <= RateLimiter.maxRequests limiter ->
  (forall time, In time (held limiter) -> time <= now) ->
  fst (RateLimiter.check limiter now "default") = true ->
  exists seconds,
    RateLimiter.getError (snd (RateLimiter.check limiter now "default")) "default"
    = RateLimiter.exceeded
        ("Rate limit exceeded. Try again in " +:+ Z_to_string seconds +:+ " seconds.")
    /\ 1 <= seconds <= RateLimiter.ceilDiv (RateLimiter.windowMs limiter) 1000.
Proof.
  intros HN Hpast. unfold RateLimiter.check, RateLimiter.getError.
  fold (held limiter).
  set (recent := filter (fun time => now - time < RateLimiter.windowMs limiter)
                        (held limiter)).
  destruct (Z.of_nat (length recent) >=? RateLimiter.maxRequests limiter) eqn:Hlim;
    [|discriminate].
  intros _. simpl. unfold RateLimiter.key at 1 2. simpl.
  rewrite lookup_insert_eq. simpl.
  destruct recent as [|time others] eqn:Hrecent;
    [apply Z.geb_le in Hlim; simpl in Hlim; lia|].
  simpl. eexists. split; [reflexivity|].
  pose proof (foldr_min_In time others) as Hin.
  rewrite <- Hrecent in Hin. unfold recent in Hin.
  apply list_elem_of_In, list_elem_of_filter in Hin as [Hwin Hheld].
  apply list_elem_of_In, Hpast in Hheld.
  apply ceilDiv_bounds; lia.
Qed.

Lemma rate_limit_wait_bounds_witness :
  let limiter := snd (runChecks (RateLimiter.create "echo" (Some 60000) (Some 1))
                        [1000]) in
  1 <= RateLimiter.maxRequests limiter
  /\ (forall time, In time (held limiter) -> time <= 1001)
  /\ fst (RateLimiter.check limiter 1001 "default") = true
  /\ exists seconds,
       RateLimiter.getError (snd (RateLimiter.check limiter 1001 "default")) "default"
       = RateLimiter.exceeded
           ("Rate limit exceeded. Try again in " +:+ Z_to_string seconds +:+ " seconds.")
       /\ 1 <= seconds <= RateLimiter.ceilDiv (RateLimiter.windowMs limiter) 1000.
Proof.
  intros limiter.
  assert (H1 : 1 <= RateLimiter.maxRequests limiter) by (vm_compute; discriminate).
  assert (H2 : forall time, In time (held limiter) -> time <= 1001).
  { intros time Hin. vm_compute in Hin. destruct Hin as [<-|[]]. lia. }
  assert (H3 : fst (RateLimiter.check limiter 1001 "default") = true)
    by (vm_compute; reflexivity).
  split; [exact H1|]. split; [exact H2|]. split; [exact H3|].
  exact (rate_limit_wait_bounds limiter 1001 H1 H2 H3).
Defined.

(* ===================================================================== *)
(** ** Further properties: the execution of a tool call *)
(* ===================================================================== *)

Section Execution.

Variable handleReadResource : McpServer -> JsVal -> bool -> JsVal -> Completion JsVal.

(** In mock mode the limiter is neither read nor written. *)
Lemma executeToolCall_mock srv env now name parameters isJsonRpc requestId tool :
  builtin name = false ->
  findTool srv name = Some tool ->
  Options.mockMode (options srv) = true ->
  executeToolCall handleReadResource srv env now name parameters isJsonRpc requestId
  = (match invoke srv tool name parameters with
     | Return result => Return (formatResult srv isJsonRpc requestId result)
     | Throw error => formatThrown srv isJsonRpc requestId error
     end, srv).
Proof.
  unfold builtin, executeToolCall. intros Hb Hfind Hmock.
  rewrite (findTool_template srv name tool Hfind).
  apply orb_false_iff in Hb as [-> ->]. rewrite Hfind, Hmock.
  unfold validateAndRun, validateApiKeys. rewrite Hmock. simpl.
  destruct (lookupLimiter srv (toStringJs name)); reflexivity.
Qed.

Lemma parseAll_first_failure pre schema post env message :
  Forall (fun s : gmap string string -> option JsVal => s env = None) pre ->
  schema env = Some message ->
  parseAll (pre ++ schema :: post) env = JObj [("error", message)].
Proof.
  induction 1 as [|s pre Hs _ IH]; intros Hschema; simpl.
  - now rewrite Hschema.
  - rewrite Hs. now apply IH.
Qed.


End Execution.

(** X9: in mock mode a call of a registered tool is answered from the mock
    data provider (or, without one, from the handler) whatever the
    environment holds and whatever the rate limiter of the tool has seen:
    the credential schemas are not consulted, the limiter is neither read
    nor updated, and the server is left as it was. *)
Theorem mock_mode_bypasses_checks
    (handleReadResource : McpServer -> JsVal -> bool -> JsVal -> Completion JsVal)
    (srv : McpServer) (env : gmap string string) (now : Z)
    (name parameters : JsVal) (isJsonRpc : bool) (requestId : JsVal) (tool : Tool.t) :
  builtin name = false ->
  findTool srv name = Some tool ->
  Options.mockMode (options srv) = true ->
  executeToolCall handleReadResource srv env now name parameters isJsonRpc requestId
  = (match match Options.getMockData (options srv) with
           | Some getMockData => getMockData name parameters
           | None => Tool.handler tool parameters
           end with
     | Return result => Return (formatResult srv isJsonRpc requestId result)
     | Throw error => formatThrown srv isJsonRpc requestId error
     end, srv).
Proof.
  intros Hb Hfind Hmock.
  rewrite (executeToolCall_mock handleReadResource srv env now name parameters
             isJsonRpc requestId tool Hb Hfind Hmock).
  unfold invoke. rewrite Hmock. destruct (Options.getMockData (options srv)); reflexivity.
Qed.

Lemma mock_mode_bypasses_checks_witness :
  builtin (JStr "echo") = false
  /\ findTool Cases.mocked (JStr "echo") = Some Scenario.echo
  /\ Options.mockMode (options Cases.mocked) = true
  /\ isTrue (parseAll (apiKeySchemas Cases.mocked) ∅) = false
  /\ executeToolCall Scenario.readResource Cases.mocked ∅ 0 (JStr "echo") (JObj [])
       false JNull
     = (Return (formatMcpResponse Cases.mocked (JObj [("mock", JStr "echo")])),
        Cases.mocked).
Proof.
  repeat (split; [reflexivity|]).
  exact (mock_mode_bypasses_checks Scenario.readResource Cases.mocked ∅ 0 (JStr "echo")
           (JObj []) false JNull Scenario.echo eq_refl eq_refl eq_refl).
Defined.

(** X10: the rate limit is checked before the credentials.  Outside mock
    mode, a call that the limiter of the tool lets through and whose
    environment fails a credential schema is answered with the message of
    the first failing schema ([MissingApiKey] in the simple shape, code
    -32602 in the versioned one) without running the handler, and its
    timestamp is nevertheless recorded by the limiter. *)
Theorem missing_credential_after_rate_limit
    (handleReadResource : McpServer -> JsVal -> bool -> JsVal -> Completion JsVal)
    (srv : McpServer) (env : gmap string string) (now : Z)
    (name parameters : JsVal) (isJsonRpc : bool) (requestId : JsVal) (tool : Tool.t)
    (limiter : RateLimiter.t)
    (pre post : list (gmap string string -> option JsVal))
    (schema : gmap string string -> option JsVal) (message : JsVal) :
  builtin name = false ->
  findTool srv name = Some tool ->
  Options.mockMode (options srv) = false ->
  rateLimiters srv !! toStringJs name = Some limiter ->
  fst (RateLimiter.check limiter now "default") = false ->
  apiKeySchemas srv = pre ++ schema :: post ->
  Forall (fun s : gmap string string -> option JsVal => s env = None) pre ->
  schema env = Some message ->
  let result :=
    executeToolCall handleReadResource srv env now name parameters isJsonRpc requestId in
  fst result
  = Return (if isJsonRpc
            then formatJsonRpcError requestId (-32602) message
            else formatMcpError srv (JStr "MissingApiKey") message)
  /\ exists limiter',
       rateLimiters (snd result) !! toStringJs name = Some limiter'
       /\ In now (held limiter').
Proof.
  intros Hb Hfind Hmock Hlimiter Hcheck Hschemas Hpre Hschema result. subst result.
  split.
  - rewrite (executeToolCall_runs handleReadResource srv env now name parameters
               isJsonRpc requestId tool Hb Hfind
               (inheritedAt_own srv name limiter Hlimiter))
      by (unfold limitedAt; now rewrite Hlimiter, Hmock).
    unfold validateAndRun, validateApiKeys.
    rewrite Hmock, Hschemas, (parseAll_first_failure pre schema post env message Hpre
                                Hschema).
    reflexivity.
  - rewrite (executeToolCall_state handleReadResource env name isJsonRpc requestId tool
               srv now parameters limiter Hb Hfind Hmock Hlimiter).
    eexists. split; [unfold setRateLimiter; simpl; apply lookup_insert_eq|].
    pose proof (check_step limiter now) as Hstep. simpl in Hstep.
    destruct (RateLimiter.check limiter now "default") as [limited limiter'].
    simpl in Hcheck. subst limited. destruct Hstep as [_ [_ [_ Hheld]]].
    simpl. rewrite Hheld. apply in_or_app. right. now left.
Qed.

Lemma missing_credential_after_rate_limit_witness :
  builtin (JStr "echo") = false
  /\ findTool Cases.guarded (JStr "echo") = Some Scenario.echo
  /\ Options.mockMode (options Cases.guarded) = false
  /\ rateLimiters Cases.guarded !! toStringJs (JStr "echo")
     = Some (RateLimiter.create "echo" (Some 60000) (Some 1))
  /\ fst (RateLimiter.check (RateLimiter.create "echo" (Some 60000) (Some 1)) 1000
            "default") = false
  /\ apiKeySchemas Cases.guarded = [] ++ Cases.keysSchema :: []
  /\ Forall (fun s : gmap string string -> option JsVal => s ∅ = None) []
  /\ Cases.keysSchema ∅ = Some (JStr "Required")
  /\ fst (executeToolCall Scenario.readResource Cases.guarded ∅ 1000 (JStr "echo")
            (JObj []) false JNull)
     = Return (formatMcpError Cases.guarded (JStr "MissingApiKey") (JStr "Required"))
  /\ exists limiter',
       rateLimiters
         (snd (executeToolCall Scenario.readResource Cases.guarded ∅ 1000 (JStr "echo")
                 (JObj []) false JNull)) !! toStringJs (JStr "echo") = Some limiter'
       /\ In 1000 (held limiter').
Proof.
  repeat (split; [reflexivity|]). split; [constructor|]. split; [reflexivity|].
  exact (missing_credential_after_rate_limit Scenario.readResource Cases.guarded ∅ 1000
           (JStr "echo") (JObj []) false JNull Scenario.echo
           (RateLimiter.create "echo" (Some 60000) (Some 1)) [] [] Cases.keysSchema
           (JStr "Required") eq_refl eq_refl eq_refl eq_refl eq_refl eq_refl
           (List.Forall_nil _) eq_refl).
Defined.

(** Hence, with threshold 1, a second call without credentials is refused
    for the rate limit, not for the credentials. *)
Example second_call_without_credentials :
  fst (callMany Scenario.readResource Cases.guarded ∅ (JStr "echo") false JNull
         Scenario.rapid)
  = [ Return (formatMcpError Cases.guarded (JStr "MissingApiKey") (JStr "Required"));
      Return (formatMcpError Cases.guarded (JStr "RateLimitExceeded")
                (JStr "Rate limit exceeded. Try again in 60 seconds.")) ].
Proof. vm_compute. reflexivity. Qed.

(** X11: the errors that a handler throws keep their message and are
    sorted into two kinds.  When the call of a registered tool, whose name
    does not reach an inherited member of the table of rate limiters,
    passes the rate limiter and the credential validation and throws a
    value other than [null] and [undefined] whose message can be converted
    to a string, the answer carries [error.message]; its kind is
    [InvalidRequest] (code -32602) when [error.name] is [InvalidParams] and
    [InternalError] (code -32000) for every other name. *)
Theorem thrown_error_mapping
    (handleReadResource : McpServer -> JsVal -> bool -> JsVal -> Completion JsVal)
    (srv : McpServer) (env : gmap string string) (now : Z)
    (name parameters : JsVal) (isJsonRpc : bool) (requestId : JsVal)
    (tool : Tool.t) (error : JsVal) :
  builtin name = false ->
  findTool srv name = Some tool ->
  inheritedAt srv name = false ->
  limitedAt srv now name = false ->
  isTrue (validateApiKeys srv env) = true ->
  invoke srv tool name parameters = Throw error ->
  nullish error = false ->
  throwsToString (getProp error "message") = false ->
  fst (executeToolCall handleReadResource srv env now name parameters isJsonRpc
         requestId)
  = Return (if isStr (getProp error "name") "InvalidParams"
            then if isJsonRpc
                 then formatJsonRpcError requestId (-32602) (getProp error "message")
                 else formatMcpError srv (JStr "InvalidRequest")
                        (getProp error "message")
            else if isJsonRpc
                 then formatJsonRpcError requestId (-32000) (getProp error "message")
                 else formatMcpError srv (JStr "InternalError")
                        (getProp error "message")).
Proof.
  intros Hb Hfind Hinh Hlim Hkeys Hinvoke Hnull Hmessage.
  rewrite (executeToolCall_runs handleReadResource srv env now name parameters
             isJsonRpc requestId tool Hb Hfind Hinh Hlim).
  unfold validateAndRun. rewrite Hkeys, Hinvoke. simpl.
  unfold formatThrown, readProp. rewrite Hnull. cbn [bind].
  rewrite (template_converts _ Hmessage). cbn [bind].
  destruct (isStr _ _); reflexivity.
Qed.

Lemma thrown_error_mapping_witness :
  builtin (JStr "get_session") = false
  /\ findTool Cases.server (JStr "get_session") = Some Cases.getSession
  /\ inheritedAt Cases.server (JStr "get_session") = false
  /\ limitedAt Cases.server 0 (JStr "get_session") = false
  /\ isTrue (validateApiKeys Cases.server ∅) = true
  /\ invoke Cases.server Cases.getSession (JStr "get_session") (JObj [])
     = Throw Cases.invalidParams
  /\ nullish Cases.invalidParams = false
  /\ throwsToString (getProp Cases.invalidParams "message") = false
  /\ fst (executeToolCall Scenario.readResource Cases.server ∅ 0 (JStr "get_session")
            (JObj []) false JNull)
     = Return (formatMcpError Cases.server (JStr "InvalidRequest")
                 (JStr (dq "Required parameter 'sessionId' is missing"))).
Proof.
  repeat (split; [reflexivity|]).
  exact (thrown_error_mapping Scenario.readResource Cases.server ∅ 0
           (JStr "get_session") (JObj []) false JNull Cases.getSession
           Cases.invalidParams eq_refl eq_refl eq_refl eq_refl eq_refl eq_refl eq_refl
           eq_refl).
Defined.

(** A tool named [toString] is registered, and its handler throws; but
    the call throws before the handler runs. *)
Example thrown_before_handler :
  findTool (Scenario.serverWith [Cases.failing]) (JStr "toString") = Some Cases.failing
  /\ Tool.handler Cases.failing (JObj []) = Throw Cases.invalidParams
  /\ fst (executeToolCall Scenario.readResource (Scenario.serverWith [Cases.failing]) ∅ 0
            (JStr "toString") (JObj []) false JNull)
     = Throw (mkError "TypeError" "this.rateLimiters[name].check is not a function").
Proof. repeat split. Qed.

(** X12: a result that is answered as a success reaches the caller
    unchanged.  When the call of a registered tool, whose name does not
    reach an inherited member of the table of rate limiters, passes the
    rate limiter and the credential validation and returns a value that is
    not [null] or [undefined], is not in the shape of a protocol error and
    does not have both a truthy [type] and a truthy [message], the envelope
    has no [error] and its [result] field is that value. *)
Theorem result_delivered_unchanged
    (handleReadResource : McpServer -> JsVal -> bool -> JsVal -> Completion JsVal)
    (srv : McpServer) (env : gmap string string) (now : Z)
    (name parameters : JsVal) (isJsonRpc : bool) (requestId : JsVal)
    (tool : Tool.t) (result : JsVal) :
  builtin name = false ->
  findTool srv name = Some tool ->
  inheritedAt srv name = false ->
  limitedAt srv now name = false ->
  isTrue (validateApiKeys srv env) = true ->
  invoke srv tool name parameters = Return result ->
  nullish result = false ->
  preFormatted result = false ->
  truthy (getProp result "type") && truthy (getProp result "message") = false ->
  exists response,
    fst (executeToolCall handleReadResource srv env now name parameters isJsonRpc
           requestId) = Return response
    /\ getProp response "result" = result
    /\ hasProp response "error" = false
    /\ wellFormed srv isJsonRpc requestId response.
Proof.
  intros Hb Hfind Hinh Hlim Hkeys Hinvoke Hnull Hpre Htyped.
  rewrite (executeToolCall_runs handleReadResource srv env now name parameters
             isJsonRpc requestId tool Hb Hfind Hinh Hlim).
  unfold validateAndRun. rewrite Hkeys, Hinvoke. simpl.
  unfold formatResult. fold (preFormatted result). rewrite Hnull, Hpre, Htyped.
  eexists. split; [reflexivity|].
  destruct isJsonRpc; repeat split; reflexivity.
Qed.

Lemma result_delivered_unchanged_witness :
  builtin (JStr "echo") = false
  /\ findTool Cases.server (JStr "echo") = Some Scenario.echo
  /\ inheritedAt Cases.server (JStr "echo") = false
  /\ limitedAt Cases.server 0 (JStr "echo") = false
  /\ isTrue (validateApiKeys Cases.server ∅) = true
  /\ invoke Cases.server Scenario.echo (JStr "echo") (JObj []) = Return Scenario.x1
  /\ nullish Scenario.x1 = false
  /\ preFormatted Scenario.x1 = false
  /\ truthy (getProp Scenario.x1 "type") && truthy (getProp Scenario.x1 "message")
     = false
  /\ exists response,
       fst (executeToolCall Scenario.readResource Cases.server ∅ 0 (JStr "echo")
              (JObj []) true (JNum 7)) = Return response
       /\ getProp response "result" = Scenario.x1
       /\ hasProp response "error" = false
       /\ wellFormed Cases.server true (JNum 7) response.
Proof.
  repeat (split; [reflexivity|]).
  exact (result_delivered_unchanged Scenario.readResource Cases.server ∅ 0
           (JStr "echo") (JObj []) true (JNum 7) Scenario.echo Scenario.x1
           eq_refl eq_refl eq_refl eq_refl eq_refl eq_refl eq_refl eq_refl eq_refl).
Defined.

(** The same result returned by a tool named [constructor] does not reach
    the caller: the call throws before the handler runs. *)
Example result_not_delivered :
  findTool (Scenario.serverWith [Cases.builder]) (JStr "constructor")
  = Some Cases.builder
  /\ Tool.handler Cases.builder (JObj []) = Return Scenario.x1
  /\ fst (executeToolCall Scenario.readResource (Scenario.serverWith [Cases.builder]) ∅ 0
            (JStr "constructor") (JObj []) true (JNum 7))
     = Throw (mkError "TypeError" "this.rateLimiters[name].check is not a function").
Proof. repeat split. Qed.



(* ===================================================================== *)
(** ** Further properties: the retry loop of [callLLM] *)
(* ===================================================================== *)

Section Retry.

Variable handler : nat -> list Message -> Config.t -> Completion JsVal.
Variable messages : list Message.
Variable config : Config.t.

Lemma retryLoop_first_success k result :
  forall n i lastErr,
    (k < n)%nat ->
    (forall j, (j < k)%nat -> failedAttempt (handler (i + j)%nat messages config) = true) ->
    handler (i + k)%nat messages config = Return result ->
    emptyResult result = false ->
    retryLoop handler messages config n i lastErr
    = (Succeeded result, replicate (S k) messages).
Proof.
  induction k as [|k IH]; intros n i lastErr Hk Hfail Hcall Hres;
    (destruct n as [|n]; [lia|]); simpl.
  - rewrite Nat.add_0_r in Hcall. rewrite Hcall.
    unfold emptyResult in Hres. apply negb_false_iff in Hres. now rewrite Hres.
  - pose proof (Hfail 0%nat ltac:(lia)) as Hfirst. rewrite Nat.add_0_r in Hfirst.
    assert (Hnext : forall lastErr',
              retryLoop handler messages config n (S i) lastErr'
              = (Succeeded result, replicate (S k) messages)).
    { intros lastErr'. apply IH; [lia| |now replace (S i + k)%nat with (i + S k)%nat by lia
                                  |exact Hres].
      intros j Hj. replace (S i + j)%nat with (i + S j)%nat by lia. apply Hfail. lia. }
    destruct (handler i messages config) as [r|e]; simpl in Hfirst.
    + unfold emptyResult in Hfirst. apply negb_true_iff in Hfirst. rewrite Hfirst.
      now rewrite Hnext.
    + apply negb_true_iff in Hfirst. rewrite Hfirst. now rewrite Hnext.
Qed.

Lemma retryLoop_all_thrown m last :
  forall i lastErr,
    (forall j, (j <= m)%nat ->
       exists e, handler (i + j)%nat messages config = Throw e /\ nullish e = false) ->
    handler (i + m)%nat messages config = Throw last ->
    retryLoop handler messages config (S m) i lastErr
    = (Exhausted last, replicate (S m) messages).
Proof.
  induction m as [|m IH]; intros i lastErr Hthrown Hlast.
  - destruct (Hthrown 0%nat ltac:(lia)) as [e [He Hnull]].
    rewrite Nat.add_0_r in He, Hlast. simpl. rewrite He, Hnull.
    congruence.
  - destruct (Hthrown 0%nat ltac:(lia)) as [e [He Hnull]].
    rewrite Nat.add_0_r in He.
    change (retryLoop handler messages config (S (S m)) i lastErr)
      with (match handler i messages config with
            | Return result =>
                if truthy result && (0 <? keysLength result)%nat
                then (Succeeded result, [messages])
                else let (exit, calls) :=
                       retryLoop handler messages config (S m) (S i) lastErr in
                     (exit, messages :: calls)
            | Throw e =>
                if nullish e then (Raised (typeErrorRead e "message"), [messages])
                else let (exit, calls) :=
                       retryLoop handler messages config (S m) (S i) e in
                     (exit, messages :: calls)
            end).
    rewrite He, Hnull, IH; [reflexivity| |].
    + intros j Hj. replace (S i + j)%nat with (i + S j)%nat by lia. apply Hthrown. lia.
    + now replace (S i + m)%nat with (i + S m)%nat by lia.
Qed.

Lemma retryLoop_length n :
  forall i lastErr,
    (length (snd (retryLoop handler messages config n i lastErr)) <= n)%nat.
Proof.
  induction n as [|n IH]; intros i lastErr; simpl; [lia|].
  destruct (handler i messages config) as [result|e].
  - destruct (_ && _); [simpl; lia|].
    specialize (IH (S i) lastErr). destruct (retryLoop _ _ _ _ _ _). simpl in *. lia.
  - destruct (nullish e); [simpl; lia|].
    specialize (IH (S i) e). destruct (retryLoop _ _ _ _ _ _). simpl in *. lia.
Qed.

Lemma retryLoop_succeeded n :
  forall i lastErr result,
    fst (retryLoop handler messages config n i lastErr) = Succeeded result ->
    emptyResult result = false
    /\ exists j, handler j messages config = Return result.
Proof.
  induction n as [|n IH]; intros i lastErr result; simpl; [discriminate|].
  destruct (handler i messages config) as [r|e] eqn:Hcall.
  - destruct (truthy r && (0 <? keysLength r)%nat) eqn:Hres.
    + simpl. intros [= <-]. unfold emptyResult. rewrite Hres. eauto.
    + specialize (IH (S i) lastErr result).
      destruct (retryLoop _ _ _ _ _ _). simpl in *. exact IH.
  - destruct (nullish e); [discriminate|].
    specialize (IH (S i) e result). destruct (retryLoop _ _ _ _ _ _). simpl in *.
    exact IH.
Qed.

End Retry.

(** X15: the retry law.  When the first [k] attempts fail (an empty result,
    or a thrown value other than [null] and [undefined]) and attempt
    [k + 1], still within [maxTries], comes back with a non-empty value,
    [callLLM] returns that value after exactly [k + 1] calls of the
    handler. *)
Theorem callLLM_first_success
    (JSON_parse : string -> option JsVal) (env : gmap string string) (net : Network)
    (defaultSchema : Schema) (prompt : string) (llm : string + Config.t) (cfg : Cfg)
    (s : Setup) (k : nat) (result : JsVal) :
  setup JSON_parse env net defaultSchema prompt llm cfg = Return s ->
  (k < Z.to_nat (tries s))%nat ->
  (forall j, (j < k)%nat ->
     failedAttempt (handler s j (messages s) (config s)) = true) ->
  handler s k (messages s) (config s) = Return result ->
  emptyResult result = false ->
  callLLM JSON_parse env net defaultSchema prompt llm cfg
  = (Return result, replicate (S k) (messages s)).
Proof.
  intros Hsetup Hk Hfail Hcall Hres. unfold callLLM. rewrite Hsetup.
  rewrite (retryLoop_first_success (handler s) (messages s) (config s) k result);
    auto.
Qed.

Lemma callLLM_first_success_witness :
  setup Json.parse Scenario.anthropicEnv Cases.secondTime Scenario.resultSchema
    Scenario.prompt (inl "claude3haiku") (Scenario.cfgWith Scenario.valueSchema 3)
  = Return (Scenario.haikuSetup Cases.secondTime 3)
  /\ (1 < Z.to_nat (tries (Scenario.haikuSetup Cases.secondTime 3)))%nat
  /\ (forall j, (j < 1)%nat ->
        failedAttempt (handler (Scenario.haikuSetup Cases.secondTime 3) j
                         Scenario.promptMessages Scenario.haikuConfig) = true)
  /\ handler (Scenario.haikuSetup Cases.secondTime 3) 1%nat Scenario.promptMessages
       Scenario.haikuConfig = Return (JObj [("value", JStr "ok")])
  /\ emptyResult (JObj [("value", JStr "ok")]) = false
  /\ callLLM Json.parse Scenario.anthropicEnv Cases.secondTime Scenario.resultSchema
       Scenario.prompt (inl "claude3haiku") (Scenario.cfgWith Scenario.valueSchema 3)
     = (Return (JObj [("value", JStr "ok")]),
        [Scenario.promptMessages; Scenario.promptMessages]).
Proof.
  assert (H1 : setup Json.parse Scenario.anthropicEnv Cases.secondTime
                 Scenario.resultSchema Scenario.prompt (inl "claude3haiku")
                 (Scenario.cfgWith Scenario.valueSchema 3)
               = Return (Scenario.haikuSetup Cases.secondTime 3))
    by reflexivity.
  assert (H2 : (1 < Z.to_nat (tries (Scenario.haikuSetup Cases.secondTime 3)))%nat)
    by (vm_compute; lia).
  assert (H3 : forall j, (j < 1)%nat ->
        failedAttempt (handler (Scenario.haikuSetup Cases.secondTime 3) j
                         Scenario.promptMessages Scenario.haikuConfig) = true).
  { intros j Hj. assert (j = 0%nat) as -> by lia. vm_compute. reflexivity. }
  assert (H4 : handler (Scenario.haikuSetup Cases.secondTime 3) 1%nat
                 Scenario.promptMessages Scenario.haikuConfig
               = Return (JObj [("value", JStr "ok")])) by (vm_compute; reflexivity).
  split; [exact H1|]. split; [exact H2|]. split; [exact H3|]. split; [exact H4|].
  split; [reflexivity|].
  exact (callLLM_first_success Json.parse Scenario.anthropicEnv Cases.secondTime
           Scenario.resultSchema Scenario.prompt (inl "claude3haiku")
           (Scenario.cfgWith Scenario.valueSchema 3)
           (Scenario.haikuSetup Cases.secondTime 3) 1%nat
           (JObj [("value", JStr "ok")]) H1 H2 H3 H4 eq_refl).
Defined.

(** X16: when every attempt throws (a value other than [null] and
    [undefined]), [callLLM] makes [maxTries] calls and its error names the
    message of the last thrown error: "Failed after N attempts. Last
    error: <message> Last response: undefined".  When that message cannot
    be converted to a string, the template literal of the failure text
    throws its [TypeError] instead. *)
Theorem callLLM_all_thrown
    (JSON_parse : string -> option JsVal) (env : gmap string string) (net : Network)
    (defaultSchema : Schema) (prompt : string) (llm : string + Config.t) (cfg : Cfg)
    (s : Setup) (m : nat) (last : JsVal) :
  setup JSON_parse env net defaultSchema prompt llm cfg = Return s ->
  Z.to_nat (tries s) = S m ->
  (forall j, (j <= m)%nat ->
     exists e, handler s j (messages s) (config s) = Throw e /\ nullish e = false) ->
  handler s m (messages s) (config s) = Throw last ->
  truthy last = true ->
  callLLM JSON_parse env net defaultSchema prompt llm cfg
  = (Throw (if throwsToString (getProp last "message")
            then mkError "TypeError" "Cannot convert object to primitive value"
            else mkError "Error"
                   ("Failed after " +:+ Z_to_string (tries s)
                    +:+ " attempts. Last error: "
                    +:+ toStringJs (getProp last "message")
                    +:+ " Last response: undefined")),
     replicate (S m) (messages s)).
Proof.
  intros Hsetup Htries Hthrown Hlast Htruthy. unfold callLLM. rewrite Hsetup, Htries.
  rewrite (retryLoop_all_thrown (handler s) (messages s) (config s) m last); auto.
  unfold failure, failureMessage. rewrite Htruthy. cbn [andb].
  destruct (throwsToString (getProp last "message")); [reflexivity|].
  now rewrite !append_assoc.
Qed.

Lemma callLLM_all_thrown_witness :
  setup Json.parse Cases.openaiEnv Scenario.unreachable Scenario.resultSchema
    Scenario.prompt (inl "gpt4oMini") (Scenario.cfgWith Scenario.valueSchema 2)
  = Return (Cases.miniSetup Scenario.unreachable 2)
  /\ Z.to_nat (tries (Cases.miniSetup Scenario.unreachable 2)) = 2%nat
  /\ (forall j, (j <= 1)%nat ->
        exists e,
          handler (Cases.miniSetup Scenario.unreachable 2) j
            (messages (Cases.miniSetup Scenario.unreachable 2))
            (config (Cases.miniSetup Scenario.unreachable 2)) = Throw e
          /\ nullish e = false)
  /\ handler (Cases.miniSetup Scenario.unreachable 2) 1%nat
       (messages (Cases.miniSetup Scenario.unreachable 2))
       (config (Cases.miniSetup Scenario.unreachable 2))
     = Throw (mkError "Error" "Connection error.")
  /\ truthy (mkError "Error" "Connection error.") = true
  /\ callLLM Json.parse Cases.openaiEnv Scenario.unreachable Scenario.resultSchema
       Scenario.prompt (inl "gpt4oMini") (Scenario.cfgWith Scenario.valueSchema 2)
     = (Throw (mkError "Error"
                 ("Failed after " +:+ Z_to_string 2 +:+ " attempts. Last error: "
                  +:+ "Connection error." +:+ " Last response: undefined")),
        [Scenario.promptMessages; Scenario.promptMessages]).
Proof.
  assert (H1 : setup Json.parse Cases.openaiEnv Scenario.unreachable
                 Scenario.resultSchema Scenario.prompt (inl "gpt4oMini")
                 (Scenario.cfgWith Scenario.valueSchema 2)
               = Return (Cases.miniSetup Scenario.unreachable 2))
    by (vm_compute; reflexivity).
  assert (H3 : forall j, (j <= 1)%nat ->
        exists e,
          handler (Cases.miniSetup Scenario.unreachable 2) j
            (messages (Cases.miniSetup Scenario.unreachable 2))
            (config (Cases.miniSetup Scenario.unreachable 2)) = Throw e
          /\ nullish e = false).
  { intros j _. exists (mkError "Error" "Connection error."). split; reflexivity. }
  split; [exact H1|]. split; [reflexivity|]. split; [exact H3|].
  split; [reflexivity|]. split; [reflexivity|].
  exact (callLLM_all_thrown Json.parse Cases.openaiEnv Scenario.unreachable
           Scenario.resultSchema Scenario.prompt (inl "gpt4oMini")
           (Scenario.cfgWith Scenario.valueSchema 2)
           (Cases.miniSetup Scenario.unreachable 2) 1%nat
           (mkError "Error" "Connection error.") H1 eq_refl H3 eq_refl eq_refl).
Defined.

(** X17: [callLLM] never calls the provider handler more than [maxTries]
    times (3 when the option is absent), whatever the handler does; with
    [maxTries <= 0] it makes no call at all. *)
Theorem callLLM_calls_bounded
    (JSON_parse : string -> option JsVal) (env : gmap string string) (net : Network)
    (defaultSchema : Schema) (prompt : string) (llm : string + Config.t) (cfg : Cfg) :
  (length (snd (callLLM JSON_parse env net defaultSchema prompt llm cfg))
   <= Z.to_nat (default 3%Z (maxTries cfg)))%nat.
Proof.
  unfold callLLM.
  destruct (setup JSON_parse env net defaultSchema prompt llm cfg) as [s|e] eqn:Hsetup;
    [|simpl; lia].
  rewrite <- (setup_tries _ _ _ _ _ _ _ _ Hsetup).
  pose proof (retryLoop_length (handler s) (messages s) (config s)
                (Z.to_nat (tries s)) 0%nat JUndefined) as Hlen.
  destruct (retryLoop _ _ _ _ _ _) as [[result|e|lastErr] calls]; exact Hlen.
Qed.

(** X18: [callLLM] never returns an empty value: whatever it returns is
    truthy, has at least one key, and is the value that one of its handler
    calls came back with. *)
Theorem callLLM_returns_nonempty
    (JSON_parse : string -> option JsVal) (env : gmap string string) (net : Network)
    (defaultSchema : Schema) (prompt : string) (llm : string + Config.t) (cfg : Cfg)
    (result : JsVal) :
  fst (callLLM JSON_parse env net defaultSchema prompt llm cfg) = Return result ->
  truthy result = true
  /\ (0 < keysLength result)%nat
  /\ exists s j,
       setup JSON_parse env net defaultSchema prompt llm cfg = Return s
       /\ handler s j (messages s) (config s) = Return result.
Proof.
  unfold callLLM.
  destruct (setup JSON_parse env net defaultSchema prompt llm cfg) as [s|e] eqn:Hsetup;
    [|discriminate].
  pose proof (retryLoop_succeeded (handler s) (messages s) (config s)
                (Z.to_nat (tries s)) 0%nat JUndefined result) as Hok.
  destruct (retryLoop _ _ _ _ _ _) as [[r|e|lastErr] calls]; simpl; try discriminate.
  intros [= ->]. destruct (Hok eq_refl) as [Hres [j Hj]].
  unfold emptyResult in Hres. apply negb_false_iff, andb_true_iff in Hres as [Ht Hk].
  apply Nat.ltb_lt in Hk. eauto 6.
Qed.

Lemma callLLM_returns_nonempty_witness :
  fst (callLLM Json.parse Scenario.anthropicEnv Cases.secondTime Scenario.resultSchema
         Scenario.prompt (inl "claude3haiku") (Scenario.cfgWith Scenario.valueSchema 3))
  = Return (JObj [("value", JStr "ok")])
  /\ truthy (JObj [("value", JStr "ok")]) = true
  /\ (0 < keysLength (JObj [("value", JStr "ok")]))%nat.
Proof.
  assert (H : fst (callLLM Json.parse Scenario.anthropicEnv Cases.secondTime
                     Scenario.resultSchema Scenario.prompt (inl "claude3haiku")
                     (Scenario.cfgWith Scenario.valueSchema 3))
              = Return (JObj [("value", JStr "ok")])) by (vm_compute; reflexivity).
  split; [exact H|].
  destruct (callLLM_returns_nonempty Json.parse Scenario.anthropicEnv Cases.secondTime
              Scenario.resultSchema Scenario.prompt (inl "claude3haiku")
              (Scenario.cfgWith Scenario.valueSchema 3) (JObj [("value", JStr "ok")]) H)
    as [Ht [Hk _]].
  split; [exact Ht|exact Hk].
Defined.

(* ===================================================================== *)
(** ** Further properties: providers and presets *)
(* ===================================================================== *)

Section Providers.

Variable JSON_parse : string -> option JsVal.
Variable env : gmap string string.
Variable net : Network.
Variable defaultSchema : Schema.

Lemma selectHandler_unsupported provider :
  supported provider = false ->
  selectHandler JSON_parse env net provider = None.
Proof.
  unfold supported, selectHandler. destruct provider as [p|]; [|reflexivity].
  destruct (String.eqb p "openai"), (String.eqb p "anthropic"),
    (String.eqb p "perplexity"); simpl; (discriminate || reflexivity).
Qed.

(** The handler of a setup is the one of its provider. *)
Lemma setup_handler prompt llm cfg s :
  setup JSON_parse env net defaultSchema prompt llm cfg = Return s ->
  selectHandler JSON_parse env net (Config.provider (config s)) = Some (handler s).
Proof.
  unfold setup. destruct (negb _); [discriminate|].
  destruct (selectHandler _ _ _ _) as [h|] eqn:Hsel; [|discriminate].
  intros [= <-]. exact Hsel.
Qed.

End Providers.

(** X19: [callLLM] reaches a handler only for the providers [openai],
    [anthropic] and [perplexity].  For every other resolved provider (or
    none) it throws, "No API key found ..." or "Unsupported provider:
    ...", without a single call. *)
Theorem unsupported_provider_never_calls
    (JSON_parse : string -> option JsVal) (env : gmap string string) (net : Network)
    (defaultSchema : Schema) (prompt : string) (llm : string + Config.t) (cfg : Cfg) :
  supported (Config.provider (resolveConfig llm cfg)) = false ->
  callLLM JSON_parse env net defaultSchema prompt llm cfg
  = (Throw (mkError "Error"
              (if nonEmpty (resolveApiKey env (resolveConfig llm cfg))
               then "Unsupported provider: "
                    +:+ default "undefined" (Config.provider (resolveConfig llm cfg))
               else "No API key found for "
                    +:+ default "undefined" (Config.model (resolveConfig llm cfg)))),
     []).
Proof.
  intros Hsupported. unfold callLLM, setup.
  destruct (nonEmpty (resolveApiKey env (resolveConfig llm cfg))); simpl; [|reflexivity].
  rewrite selectHandler_unsupported by exact Hsupported. reflexivity.
Qed.

Lemma unsupported_provider_never_calls_witness :
  supported (Config.provider (resolveConfig (inl "gemini15pro") noCfg)) = false
  /\ callLLM Json.parse {[ "GOOGLE_API_KEY" := "g-test" ]} Scenario.unreachable
       Scenario.resultSchema Scenario.prompt (inl "gemini15pro") noCfg
     = (Throw (mkError "Error" "Unsupported provider: google"), []).
Proof.
  split; [reflexivity|].
  exact (unsupported_provider_never_calls Json.parse {[ "GOOGLE_API_KEY" := "g-test" ]}
           Scenario.unreachable Scenario.resultSchema Scenario.prompt
           (inl "gemini15pro") noCfg eq_refl).
Defined.

(** The presets of [LLM_CONFIGS] whose provider has no handler. *)
Example presets_without_handler :
  map fst (List.filter (fun entry => negb (supported (Config.provider (snd entry))))
             LLM_CONFIGS)
  = [ "gemini15pro"; "gemini15flash"; "gemini10pro"; "mistrallarge"; "mistralmedium";
      "mistralsmall"; "llama3"; "llama3_8b"; "commandrplus"; "commandr";
      "openroutergpt4o"; "openroutergpt35" ].
Proof. vm_compute. reflexivity. Qed.

(** X20: the Perplexity handler reads its credential from the environment
    only.  With the provider [perplexity] and [PERPLEXITY_API_KEY] absent
    or empty, a call that passed the credential check of [callLLM] (an
    [apiKey] given in the configuration) still fails: every attempt throws
    and the error reads "Failed after N attempts. Last error:
    PERPLEXITY_API_KEY environment variable not set ...". *)
Theorem perplexity_needs_environment_key
    (JSON_parse : string -> option JsVal) (env : gmap string string) (net : Network)
    (defaultSchema : Schema) (prompt : string) (llm : string + Config.t) (cfg : Cfg)
    (s : Setup) :
  setup JSON_parse env net defaultSchema prompt llm cfg = Return s ->
  Config.provider (config s) = Some "perplexity" ->
  absentOrEmpty (env !! "PERPLEXITY_API_KEY") ->
  1 <= tries s ->
  callLLM JSON_parse env net defaultSchema prompt llm cfg
  = (Throw (mkError "Error"
              ("Failed after " +:+ Z_to_string (tries s) +:+ " attempts. Last error: "
               +:+ "PERPLEXITY_API_KEY environment variable not set"
               +:+ " Last response: undefined")),
     replicate (Z.to_nat (tries s)) (messages s)).
Proof.
  intros Hsetup Hprovider Hkey Htries.
  pose proof (setup_handler JSON_parse env net defaultSchema prompt llm cfg s Hsetup)
    as Hhandler.
  rewrite Hprovider in Hhandler. simpl in Hhandler. injection Hhandler as Hhandler.
  assert (Hthrow : forall j msgs c,
            handler s j msgs c
            = Throw (mkError "Error" "PERPLEXITY_API_KEY environment variable not set")).
  { intros j msgs c. rewrite <- Hhandler. unfold perplexity_handler.
    destruct Hkey as [-> | ->]; reflexivity. }
  destruct (Z.to_nat (tries s)) as [|m] eqn:Hm; [lia|].
  unfold callLLM. rewrite Hsetup, Hm.
  rewrite (retryLoop_all_thrown (handler s) (messages s) (config s) m
             (mkError "Error" "PERPLEXITY_API_KEY environment variable not set")).
  - unfold failure, failureMessage. simpl. now rewrite !append_assoc.
  - intros j _. eexists. split; [apply Hthrow|reflexivity].
  - apply Hthrow.
Qed.

Lemma perplexity_needs_environment_key_witness :
  setup Json.parse ∅ (Scenario.answering (dq "{'value': 'ok'}")) Scenario.resultSchema
    Scenario.prompt (inr Cases.sonar) (Scenario.cfgWith Scenario.valueSchema 2)
  = Return (Cases.sonarSetup ∅ (Scenario.answering (dq "{'value': 'ok'}")) 2)
  /\ Config.provider
       (config (Cases.sonarSetup ∅ (Scenario.answering (dq "{'value': 'ok'}")) 2))
     = Some "perplexity"
  /\ absentOrEmpty ((∅ : gmap string string) !! "PERPLEXITY_API_KEY")
  /\ 1 <= tries (Cases.sonarSetup ∅ (Scenario.answering (dq "{'value': 'ok'}")) 2)
  /\ callLLM Json.parse ∅ (Scenario.answering (dq "{'value': 'ok'}"))
       Scenario.resultSchema Scenario.prompt (inr Cases.sonar)
       (Scenario.cfgWith Scenario.valueSchema 2)
     = (Throw (mkError "Error"
                 ("Failed after " +:+ Z_to_string 2 +:+ " attempts. Last error: "
                  +:+ "PERPLEXITY_API_KEY environment variable not set"
                  +:+ " Last response: undefined")),
        [Scenario.promptMessages; Scenario.promptMessages]).
Proof.
  assert (H1 : setup Json.parse ∅ (Scenario.answering (dq "{'value': 'ok'}"))
                 Scenario.resultSchema Scenario.prompt (inr Cases.sonar)
                 (Scenario.cfgWith Scenario.valueSchema 2)
               = Return (Cases.sonarSetup ∅
                           (Scenario.answering (dq "{'value': 'ok'}")) 2))
    by (vm_compute; reflexivity).
  assert (H3 : absentOrEmpty ((∅ : gmap string string) !! "PERPLEXITY_API_KEY"))
    by (left; reflexivity).
  assert (H4 : 1 <= tries (Cases.sonarSetup ∅
                             (Scenario.answering (dq "{'value': 'ok'}")) 2))
    by (simpl; lia).
  split; [exact H1|]. split; [reflexivity|]. split; [exact H3|]. split; [exact H4|].
  exact (perplexity_needs_environment_key Json.parse ∅
           (Scenario.answering (dq "{'value': 'ok'}")) Scenario.resultSchema
           Scenario.prompt (inr Cases.sonar) (Scenario.cfgWith Scenario.valueSchema 2)
           (Cases.sonarSetup ∅ (Scenario.answering (dq "{'value': 'ok'}")) 2)
           H1 eq_refl H3 H4).
Defined.

(* ===================================================================== *)
(** ** Further properties: the extraction of JSON from text *)
(* ===================================================================== *)

Lemma tryParse_extracted (JSON_parse : string -> option JsVal) (str : string) :
  tryParse JSON_parse str = JNull
  \/ (truthy (tryParse JSON_parse str) = true
      /\ extracted (tryParse JSON_parse str) = true).
Proof.
  unfold tryParse. destruct (JSON_parse str) as [v|]; [|now left].
  destruct v as [| |b|n|s|items|fields]; simpl; rewrite ?andb_false_r; auto.
Qed.

(** X21: on a text, [extractJson] never throws and never answers a
    primitive: its result is [null] or a parsed object or array, whatever
    [JSON.parse] makes of the candidates. *)
Theorem extractJson_null_or_object
    (JSON_parse : string -> option JsVal) (text : string) :
  exists v,
    extractJson JSON_parse (JStr text) = Return v
    /\ extracted v = true
    /\ (v = JNull \/ truthy v = true).
Proof.
  unfold extractJson.
  destruct (truthy (JStr text)); simpl; [|exists JNull; auto].
  change (toStringJs (JStr text)) with text.
  destruct (tryParse_extracted JSON_parse text) as [-> | [Ht He]].
  2:{ rewrite Ht. eauto. }
  simpl.
  assert (Hblock : exists parsed,
            match codeBlock text with
            | Some inner => tryParse JSON_parse inner
            | None => JNull
            end = parsed
            /\ (parsed = JNull \/ (truthy parsed = true /\ extracted parsed = true))).
  { destruct (codeBlock text) as [inner|]; eexists; (split; [reflexivity|]);
      [apply tryParse_extracted|now left]. }
  destruct Hblock as [parsed [-> [-> | [Ht He]]]].
  2:{ rewrite Ht. eauto. }
  simpl. destruct (braceMatch text) as [jsonMatch|]; [|exists JNull; auto].
  eexists. split; [reflexivity|].
  destruct (tryParse_extracted JSON_parse jsonMatch) as [-> | [Ht He]]; auto.
Qed.

Lemma upToClose_spec (s m : string) :
  upToClose s = Some m
  <-> exists mid post, s = mid +:+ "}" +:+ post /\ without "}" mid /\ m = mid +:+ "}".
Proof.
  revert m. induction s as [|c s IH]; intros m; simpl.
  - split; [discriminate|]. intros [mid [post [Heq _]]].
    destruct mid; discriminate.
  - destruct (c =? "}")%char eqn:Hc.
    + apply Ascii.eqb_eq in Hc. subst c. split.
      * intros [= <-]. exists EmptyString, s. simpl. auto.
      * intros [mid [post [Heq [Hmid ->]]]]. destruct mid as [|x mid].
        -- reflexivity.
        -- simpl in Heq, Hmid. injection Heq as <- _. destruct Hmid as [Hx _].
           contradiction.
    + apply Ascii.eqb_neq in Hc. split.
      * destruct (upToClose s) as [m'|] eqn:Hs; [|discriminate].
        simpl. intros [= <-].
        destruct (proj1 (IH m') eq_refl) as [mid [post [-> [Hmid ->]]]].
        exists (String c mid), post. simpl. auto.
      * intros [mid [post [Heq [Hmid ->]]]]. destruct mid as [|x mid].
        -- simpl in Heq. injection Heq as -> _. contradiction.
        -- simpl in Heq, Hmid. injection Heq as <- ->. destruct Hmid as [_ Hmid].
           rewrite (proj2 (IH (mid +:+ "}"))); [reflexivity|].
           exists mid, post. auto.
Qed.

(** X22: what the brace expression of [extractJson] matches.  [braceMatch]
    succeeds exactly when the text has an opening brace with a closing
    brace somewhere after it, and the match runs from the first opening
    brace to the first closing brace after it, so it contains a single
    closing brace, at its end. *)
Theorem braceMatch_spec (text m : string) :
  braceMatch text = Some m
  <-> exists pre mid post,
        text = pre +:+ "{" +:+ mid +:+ "}" +:+ post
        /\ without "{" pre
        /\ without "}" mid
        /\ m = "{" +:+ mid +:+ "}".
Proof.
  revert m. induction text as [|c text IH]; intros m; simpl.
  - split; [discriminate|]. intros [pre [mid [post [Heq _]]]].
    destruct pre; discriminate.
  - destruct (c =? "{")%char eqn:Hc.
    + apply Ascii.eqb_eq in Hc. subst c. split.
      * destruct (upToClose text) as [m'|] eqn:Hs; [|discriminate].
        simpl. intros [= <-].
        destruct (proj1 (upToClose_spec text m') Hs) as [mid [post [-> [Hmid ->]]]].
        exists EmptyString, mid, post. simpl. auto.
      * intros [pre [mid [post [Heq [Hpre [Hmid ->]]]]]]. destruct pre as [|x pre].
        -- simpl in Heq. injection Heq as ->.
           rewrite (proj2 (upToClose_spec _ (mid +:+ "}"))); [reflexivity|].
           exists mid, post. auto.
        -- simpl in Heq, Hpre. injection Heq as <- _. destruct Hpre as [Hx _].
           contradiction.
    + apply Ascii.eqb_neq in Hc. rewrite IH. split.
      * intros [pre [mid [post [-> [Hpre [Hmid ->]]]]]].
        exists (String c pre), mid, post. simpl. auto.
      * intros [pre [mid [post [Heq [Hpre [Hmid ->]]]]]]. destruct pre as [|x pre].
        -- simpl in Heq. injection Heq as -> _. contradiction.
        -- simpl in Heq, Hpre. injection Heq as <- ->. destruct Hpre as [_ Hpre].
           exists pre, mid, post. auto.
Qed.

Lemma braceMatch_found (pre mid post : string) :
  without "{" pre ->
  without "}" mid ->
  braceMatch (pre +:+ "{" +:+ mid +:+ "}" +:+ post) = Some ("{" +:+ mid +:+ "}").
Proof.
  intros Hpre Hmid. induction pre as [|c pre IH].
  - change (braceMatch (String "{" (mid +:+ "}" +:+ post))
            = Some (String "{" (mid +:+ "}"))).
    cbn [braceMatch]. rewrite Ascii.eqb_refl.
    rewrite (proj2 (upToClose_spec (mid +:+ "}" +:+ post) (mid +:+ "}")));
      [reflexivity|]. exists mid, post. auto.
  - destruct Hpre as [Hc Hpre].
    change (braceMatch (String c (pre +:+ "{" +:+ mid +:+ "}" +:+ post))
            = Some ("{" +:+ mid +:+ "}")).
    cbn [braceMatch]. apply Ascii.eqb_neq in Hc. rewrite Hc. exact (IH Hpre).
Qed.

(** X23: a flat object inside prose is extracted.  When the text as a whole
    does not parse to an object, no fenced block of it does, and the text
    reads [pre { mid } post] with no opening brace in [pre] and no closing
    brace in [mid], [extractJson] answers what [JSON.parse] makes of
    [{ mid }] ([null] when that is not an object or array). *)
Theorem flat_object_in_prose_extracted
    (JSON_parse : string -> option JsVal) (pre mid post : string) :
  let text := pre +:+ "{" +:+ mid +:+ "}" +:+ post in
  without "{" pre ->
  without "}" mid ->
  tryParse JSON_parse text = JNull ->
  (forall inner, codeBlock text = Some inner -> tryParse JSON_parse inner = JNull) ->
  extractJson JSON_parse (JStr text)
  = Return (tryParse JSON_parse ("{" +:+ mid +:+ "}")).
Proof.
  intros text Hpre Hmid Hdirect Hblock.
  assert (Hmatch : braceMatch text = Some ("{" +:+ mid +:+ "}"))
    by (apply braceMatch_found; assumption).
  assert (Htruthy : truthy (JStr text) = true).
  { unfold text. destruct pre; reflexivity. }
  unfold extractJson. rewrite Htruthy. simpl.
  change (toStringJs (JStr text)) with text. rewrite Hdirect. simpl.
  destruct (codeBlock text) as [inner|] eqn:Hcode.
  - rewrite (Hblock inner eq_refl). simpl. now rewrite Hmatch.
  - simpl. now rewrite Hmatch.
Qed.

Lemma flat_object_in_prose_extracted_witness :
  without "{" "The answer is "
  /\ without "}" (dq "'a': 1")
  /\ tryParse Json.parse ("The answer is " +:+ "{" +:+ dq "'a': 1" +:+ "}"
                          +:+ ", as asked.") = JNull
  /\ (forall inner,
        codeBlock ("The answer is " +:+ "{" +:+ dq "'a': 1" +:+ "}" +:+ ", as asked.")
        = Some inner -> tryParse Json.parse inner = JNull)
  /\ extractJson Json.parse
       (JStr ("The answer is " +:+ "{" +:+ dq "'a': 1" +:+ "}" +:+ ", as asked."))
     = Return (JObj [("a", JNum 1)]).
Proof.
  assert (H1 : without "{" "The answer is ") by (simpl; repeat split; discriminate).
  assert (H2 : without "}" (dq "'a': 1")) by (vm_compute; repeat split; discriminate).
  assert (H3 : tryParse Json.parse ("The answer is " +:+ "{" +:+ dq "'a': 1" +:+ "}"
                                    +:+ ", as asked.") = JNull)
    by (vm_compute; reflexivity).
  assert (H4 : forall inner,
        codeBlock ("The answer is " +:+ "{" +:+ dq "'a': 1" +:+ "}" +:+ ", as asked.")
        = Some inner -> tryParse Json.parse inner = JNull)
    by (intros inner Hinner; vm_compute in Hinner; discriminate).
  split; [exact H1|]. split; [exact H2|]. split; [exact H3|]. split; [exact H4|].
  rewrite (flat_object_in_prose_extracted Json.parse "The answer is " (dq "'a': 1")
             ", as asked." H1 H2 H3 H4).
  vm_compute. reflexivity.
Defined.

Lemma skipSpaces_head (s : string) :
  match skipSpaces s with
  | String c _ => isSpace c = false
  | EmptyString => True
  end.
Proof.
  induction s as [|c s IH]; simpl; [exact I|].
  destruct (isSpace c) eqn:Hc; [exact IH|]. simpl. exact Hc.
Qed.

Lemma captureBlock_eq (s : string) :
  captureBlock s
  = match stripPrefix fence (skipSpaces s) with
    | Some _ => Some EmptyString
    | None =>
        match s with
        | EmptyString => None
        | String c rest => option_map (String c) (captureBlock rest)
        end
    end.
Proof. destruct s; reflexivity. Qed.

Lemma captureBlock_prefix (s inner : string) :
  captureBlock s = Some inner -> exists rest, s = inner +:+ rest.
Proof.
  revert inner. induction s as [|c s IH]; intros inner; rewrite captureBlock_eq;
    destruct (stripPrefix fence (skipSpaces _)) eqn:Hhere.
  - intros [= <-]. now exists EmptyString.
  - discriminate.
  - intros [= <-]. now exists (String c s).
  - destruct (captureBlock s) as [inner'|]; [|discriminate].
    simpl. intros [= <-]. destruct (IH inner' eq_refl) as [rest ->].
    now exists rest.
Qed.

Lemma captureBlock_empty (s : string) :
  captureBlock s = Some EmptyString ->
  exists r, stripPrefix fence (skipSpaces s) = Some r.
Proof.
  rewrite captureBlock_eq. destruct (stripPrefix fence (skipSpaces s)) as [r|];
    [eauto|].
  destruct s as [|c s]; [discriminate|].
  destruct (captureBlock s); discriminate.
Qed.

Lemma captureBlock_last (s inner : string) (c : ascii) :
  captureBlock s = Some inner -> lastChar inner = Some c -> isSpace c = false.
Proof.
  revert inner. induction s as [|x s IH]; intros inner; rewrite captureBlock_eq;
    destruct (stripPrefix fence (skipSpaces _)) eqn:Hhere.
  - intros [= <-]. discriminate.
  - discriminate.
  - intros [= <-]. discriminate.
  - destruct (captureBlock s) as [inner'|] eqn:Hs; [|discriminate].
    simpl option_map. intros [= <-]. destruct inner' as [|y inner'].
    + simpl. intros [= <-].
      destruct (isSpace x) eqn:Hx; [|reflexivity].
      exfalso. destruct (captureBlock_empty s Hs) as [r Hr].
      change (skipSpaces (String x s))
        with (if isSpace x then skipSpaces s else String x s) in Hhere.
      rewrite Hx in Hhere. congruence.
    + intros Hlast. apply (IH (String y inner') eq_refl). exact Hlast.
Qed.

(** X24: the text that the code block expression captures is trimmed: it
    is a piece of the reply that neither starts nor ends with a white
    space character. *)
Theorem codeBlock_trimmed (text inner : string) :
  codeBlock text = Some inner ->
  match inner with
  | String c _ => isSpace c = false
  | EmptyString => True
  end
  /\ (forall c, lastChar inner = Some c -> isSpace c = false).
Proof.
  unfold codeBlock. destruct (afterFirst fence text) as [r|]; [|discriminate].
  set (r' := match stripPrefix "json" r with
             | Some r' => r'
             | None => r
             end).
  intros Hcapture. split.
  - destruct (captureBlock_prefix _ _ Hcapture) as [rest Hrest].
    pose proof (skipSpaces_head r') as Hhead. rewrite Hrest in Hhead.
    destruct inner; [exact I|exact Hhead].
  - intros c. apply (captureBlock_last _ _ _ Hcapture).
Qed.

Lemma codeBlock_trimmed_witness :
  codeBlock ("Here you are:" +:+ nl +:+ "```json" +:+ nl +:+ "  " +:+ dq "{'a': 1}"
             +:+ "  " +:+ nl +:+ "```") = Some (dq "{'a': 1}")
  /\ isSpace "{" = false
  /\ (forall c, lastChar (dq "{'a': 1}") = Some c -> isSpace c = false).
Proof.
  assert (H : codeBlock ("Here you are:" +:+ nl +:+ "```json" +:+ nl +:+ "  "
                         +:+ dq "{'a': 1}" +:+ "  " +:+ nl +:+ "```")
              = Some (dq "{'a': 1}")) by (vm_compute; reflexivity).
  split; [exact H|]. exact (codeBlock_trimmed _ _ H).
Defined.

(* ===================================================================== *)
(** ** Further properties: the any-llm version of [callLLM] *)
(* ===================================================================== *)

Lemma upToLastClose_None (s : string) :
  AnyLlm.upToLastClose s = None <-> without "}" s.
Proof.
  induction s as [|c s IH]; simpl; [tauto|].
  destruct (AnyLlm.upToLastClose s) as [m|].
  - split; [discriminate|]. intros [_ Hs]. apply IH in Hs. discriminate.
  - destruct (c =? "}")%char eqn:Hc.
    + apply Ascii.eqb_eq in Hc. split; [discriminate|]. intros [Hx _]. contradiction.
    + apply Ascii.eqb_neq in Hc. split; [|reflexivity]. intros _.
      split; [exact Hc|]. now apply IH.
Qed.

Lemma without_append (c : ascii) (a b : string) :
  without c (a +:+ b) -> without c a /\ without c b.
Proof.
  induction a as [|x a IH].
  - change (EmptyString +:+ b) with b. simpl. auto.
  - change (String x a +:+ b) with (String x (a +:+ b)). simpl.
    intros [Hx Hrest]. destruct (IH Hrest). auto.
Qed.

Lemma without_closed (mid post : string) : ~ without "}" (mid +:+ "}" +:+ post).
Proof.
  intros H. apply without_append in H as [_ H]. apply without_append in H as [H _].
  simpl in H. destruct H as [H _]. contradiction.
Qed.

Lemma upToLastClose_spec (s m : string) :
  AnyLlm.upToLastClose s = Some m
  <-> exists mid post, s = mid +:+ "}" +:+ post /\ without "}" post /\ m = mid +:+ "}".
Proof.
  revert m. induction s as [|c s IH]; intros m; simpl.
  - split; [discriminate|]. intros [mid [post [Heq _]]]. destruct mid; discriminate.
  - destruct (AnyLlm.upToLastClose s) as [m'|] eqn:Hs.
    + split.
      * intros [= <-]. destruct (proj1 (IH m') eq_refl) as [mid [post [-> [Hpost ->]]]].
        exists (String c mid), post. auto.
      * intros [mid [post [Heq [Hpost ->]]]]. destruct mid as [|x mid].
        -- injection Heq as _ Hrest. change (s = post) in Hrest. subst post.
           apply upToLastClose_None in Hpost. congruence.
        -- injection Heq as <- ->.
           assert (Hm : Some m' = Some (mid +:+ "}"))
             by (apply IH; exists mid, post; auto).
           injection Hm as ->. reflexivity.
    + apply upToLastClose_None in Hs. destruct (c =? "}")%char eqn:Hc.
      * apply Ascii.eqb_eq in Hc. subst c. split.
        -- intros [= <-]. exists EmptyString, s. auto.
        -- intros [mid [post [Heq [Hpost ->]]]]. destruct mid as [|x mid];
             [reflexivity|].
           exfalso. injection Heq as _ ->. exact (without_closed _ _ Hs).
      * apply Ascii.eqb_neq in Hc. split; [discriminate|].
        intros [mid [post [Heq _]]]. exfalso. destruct mid as [|x mid].
        -- injection Heq as -> _. contradiction.
        -- injection Heq as _ ->. exact (without_closed _ _ Hs).
Qed.

(** X25: what the brace expression of the any-llm [callLLM] matches.
    [greedyBraces] succeeds exactly when the text has an opening brace
    with a closing brace somewhere after it, and the match runs from the
    first opening brace to the last closing brace of the text, so that a
    nested object is taken whole. *)
Theorem greedyBraces_spec (text m : string) :
  AnyLlm.greedyBraces text = Some m
  <-> exists pre mid post,
        text = pre +:+ "{" +:+ mid +:+ "}" +:+ post
        /\ without "{" pre
        /\ without "}" post
        /\ m = "{" +:+ mid +:+ "}".
Proof.
  revert m. induction text as [|c text IH]; intros m; simpl.
  - split; [discriminate|]. intros [pre [mid [post [Heq _]]]].
    destruct pre; discriminate.
  - destruct (c =? "{")%char eqn:Hc.
    + apply Ascii.eqb_eq in Hc. subst c. split.
      * destruct (AnyLlm.upToLastClose text) as [m'|] eqn:Hs; [|discriminate].
        simpl. intros [= <-].
        destruct (proj1 (upToLastClose_spec text m') Hs) as [mid [post [-> [Hpost ->]]]].
        exists EmptyString, mid, post. simpl. auto.
      * intros [pre [mid [post [Heq [Hpre [Hpost ->]]]]]]. destruct pre as [|x pre].
        -- simpl in Heq. injection Heq as ->.
           rewrite (proj2 (upToLastClose_spec _ (mid +:+ "}"))); [reflexivity|].
           exists mid, post. auto.
        -- simpl in Heq, Hpre. injection Heq as <- _. destruct Hpre as [Hx _].
           contradiction.
    + apply Ascii.eqb_neq in Hc. rewrite IH. split.
      * intros [pre [mid [post [-> [Hpre [Hpost ->]]]]]].
        exists (String c pre), mid, post. simpl. auto.
      * intros [pre [mid [post [Heq [Hpre [Hpost ->]]]]]]. destruct pre as [|x pre].
        -- simpl in Heq. injection Heq as -> _. contradiction.
        -- simpl in Heq, Hpre. injection Heq as <- ->. destruct Hpre as [_ Hpre].
           exists pre, mid, post. auto.
Qed.

(** The nested object that [extractJson] of [llm-utils.js] loses is taken
    whole by this expression. *)
Example greedyBraces_nested :
  AnyLlm.greedyBraces Scenario.nestedReply = Some (dq "{'a':{'b':1}}")
  /\ braceMatch Scenario.nestedReply = Some (dq "{'a':{'b':1}").
Proof. split; vm_compute; reflexivity. Qed.

Section AnyLoop.

Variable JSON_parse : string -> option JsVal.
Variable client : AnyLlm.Client.
Variable config : Config.t.
Variable otherOptions : JsVal.

Lemma attemptLoop_events jsonSchema remaining attempts messages :
  let events :=
    snd (AnyLlm.attemptLoop JSON_parse client config jsonSchema otherOptions
           remaining attempts messages) in
  (length (AnyLlm.calls events) <= remaining)%nat
  /\ (remaining <> 0%nat -> (1 <= length (AnyLlm.calls events))%nat)
  /\ AnyLlm.waits events
     = AnyLlm.backoff attempts (length (AnyLlm.calls events) - 1)
  /\ forall k msgs,
       AnyLlm.calls events !! k = Some msgs ->
       exists notes,
         msgs = messages ++ notes
         /\ length notes = k
         /\ Forall (fun note => role note = "system") notes.
Proof.
  assert (Hlast : forall remaining attempts messages,
            let events := [AnyLlm.Called messages] in
            (length (AnyLlm.calls events) <= S remaining)%nat
            /\ (S remaining <> 0%nat -> (1 <= length (AnyLlm.calls events))%nat)
            /\ AnyLlm.waits events
               = AnyLlm.backoff attempts (length (AnyLlm.calls events) - 1)
            /\ forall k msgs,
                 AnyLlm.calls events !! k = Some msgs ->
                 exists notes,
                   msgs = messages ++ notes
                   /\ length notes = k
                   /\ Forall (fun note => role note = "system") notes).
  { intros r a msgs0. simpl. split; [lia|]. split; [lia|]. split; [reflexivity|].
    intros [|k] msgs; simpl; [|discriminate].
    intros [= <-]. exists []. rewrite app_nil_r. auto. }
  revert attempts messages. induction remaining as [|remaining IH];
    intros attempts messages.
  - simpl. split; [lia|]. split; [congruence|]. split; [reflexivity|].
    intros k msgs. discriminate.
  - cbn [AnyLlm.attemptLoop].
    destruct (client attempts _ _) as [response|e]; [|apply Hlast].
    destruct (AnyLlm.examine JSON_parse jsonSchema response) as [result|note|e];
      [apply Hlast| |apply Hlast].
    destruct remaining as [|remaining']; [apply Hlast|].
    specialize (IH (S attempts) (messages ++ [AnyLlm.system note])).
    destruct (AnyLlm.attemptLoop JSON_parse client config jsonSchema otherOptions
                (S remaining') (S attempts) (messages ++ [AnyLlm.system note]))
      as [result events].
    cbn [snd] in *. destruct IH as [Hlen [Hone [Hwaits Hnotes]]].
    specialize (Hone ltac:(discriminate)).
    cbn [AnyLlm.calls AnyLlm.waits length]. split; [lia|]. split; [lia|]. split.
    + rewrite Hwaits. unfold AnyLlm.backoff.
      replace (S (length (AnyLlm.calls events)) - 1)%nat
        with (S (length (AnyLlm.calls events) - 1)) by lia.
      reflexivity.
    + intros [|k] msgs; simpl.
      * intros [= <-]. exists []. rewrite app_nil_r. auto.
      * intros Hk. destruct (Hnotes k msgs Hk) as [notes [-> [Hk' Hsys]]].
        exists (AnyLlm.system note :: notes). rewrite <- app_assoc. simpl.
        split; [reflexivity|]. split; [lia|]. constructor; [reflexivity|exact Hsys].
Qed.

Lemma attemptLoop_done schema remaining attempts messages v :
  let run := AnyLlm.attemptLoop JSON_parse client config (Some schema) otherOptions
               remaining attempts messages in
  fst run = Return v ->
  (v = JNull /\ length (AnyLlm.calls (snd run)) = remaining)
  \/ exists k sent text jsonMatch parsed,
       length (AnyLlm.calls (snd run)) = S k
       /\ AnyLlm.calls (snd run) !! k = Some sent
       /\ client (attempts + k)%nat
            (AnyLlm.requestOf config (Some schema) otherOptions sent)
            (AnyLlm.messagesOf config sent) = Return (JStr text)
       /\ AnyLlm.greedyBraces text = Some jsonMatch
       /\ JSON_parse jsonMatch = Some parsed
       /\ AnyLlm.safeParse schema parsed = inl v.
Proof.
  revert attempts messages. induction remaining as [|remaining IH];
    intros attempts messages run; subst run.
  - simpl. intros [= <-]. now left.
  - cbn [AnyLlm.attemptLoop].
    fold (AnyLlm.requestOf config (Some schema) otherOptions messages).
    fold (AnyLlm.messagesOf config messages).
    destruct (client attempts _ _) as [response|e] eqn:Hcall; [|discriminate].
    destruct (AnyLlm.examine JSON_parse (Some schema) response) as [result|note|e]
      eqn:Hexamine; [| |discriminate].
    + simpl. intros [= <-]. right. unfold AnyLlm.examine in Hexamine.
      destruct (AnyLlm.matchBraces response) as [[jsonMatch|]|e] eqn:Hmatch;
        try discriminate.
      destruct (JSON_parse jsonMatch) as [parsed|] eqn:Hparse; [|discriminate].
      destruct (AnyLlm.safeParse schema parsed) as [data|message] eqn:Hsafe;
        [|discriminate].
      injection Hexamine as ->.
      destruct response as [| | | |text| |]; try discriminate.
      injection Hmatch as Hmatch.
      exists 0%nat, messages, text, jsonMatch, parsed. rewrite Nat.add_0_r. auto 7.
    + destruct remaining as [|remaining']; [simpl; intros [= <-]; now left|].
      specialize (IH (S attempts) (messages ++ [AnyLlm.system note])).
      cbv zeta in IH.
      destruct (AnyLlm.attemptLoop JSON_parse client config (Some schema) otherOptions
                  (S remaining') (S attempts) (messages ++ [AnyLlm.system note]))
        as [result events].
      cbn [fst snd AnyLlm.calls length] in *. intros Hresult.
      destruct (IH Hresult) as [[-> Hlen] | [k [sent [text [jm [parsed H]]]]]].
      * left. split; [reflexivity|lia].
      * right. destruct H as [Hlen [Hk [Hreply Hrest]]].
        exists (S k), sent, text, jm, parsed.
        replace (attempts + S k)%nat with (S attempts + k)%nat by lia.
        split; [lia|]. split; [exact Hk|]. split; [exact Hreply|exact Hrest].
Qed.

Lemma attemptLoop_all_rejected schema remaining attempts messages :
  (forall k request msgs,
     exists response,
       client k request msgs = Return response
       /\ AnyLlm.rejected JSON_parse schema response = true) ->
  fst (AnyLlm.attemptLoop JSON_parse client config (Some schema) otherOptions
         remaining attempts messages) = Return JNull
  /\ length (AnyLlm.calls
               (snd (AnyLlm.attemptLoop JSON_parse client config (Some schema)
                       otherOptions remaining attempts messages))) = remaining.
Proof.
  intros Hrejected. revert attempts messages.
  induction remaining as [|remaining IH]; intros attempts messages; [now simpl|].
  cbn [AnyLlm.attemptLoop].
  match goal with
  | |- context [client attempts ?request ?msgs] =>
      destruct (Hrejected attempts request msgs) as [response [-> Hresponse]]
  end.
  unfold AnyLlm.rejected in Hresponse.
  destruct (AnyLlm.examine JSON_parse (Some schema) response) as [result|note|e];
    try discriminate.
  destruct remaining as [|remaining']; [now simpl|].
  specialize (IH (S attempts) (messages ++ [AnyLlm.system note])).
  destruct (AnyLlm.attemptLoop JSON_parse client config (Some schema) otherOptions
              (S remaining') (S attempts) (messages ++ [AnyLlm.system note]))
    as [result events].
  cbn [fst snd] in *. destruct IH as [-> Hlen].
  cbn [AnyLlm.calls length]. split; [reflexivity|lia].
Qed.

Lemma attemptLoop_thrown schema k e :
  forall remaining attempts messages,
  (k < remaining)%nat ->
  (forall j request msgs, (j < k)%nat ->
     exists response,
       client (attempts + j)%nat request msgs = Return response
       /\ AnyLlm.rejected JSON_parse schema response = true) ->
  (forall request msgs, client (attempts + k)%nat request msgs = Throw e) ->
  fst (AnyLlm.attemptLoop JSON_parse client config (Some schema) otherOptions
         remaining attempts messages) = Throw e
  /\ length (AnyLlm.calls
               (snd (AnyLlm.attemptLoop JSON_parse client config (Some schema)
                       otherOptions remaining attempts messages))) = S k.
Proof.
  induction k as [|k IH]; intros remaining attempts messages Hk Hrejected Hthrown;
    (destruct remaining as [|remaining]; [lia|]); cbn [AnyLlm.attemptLoop].
  - rewrite Nat.add_0_r in Hthrown. rewrite Hthrown. now simpl.
  - pose proof (fun request msgs => Hrejected 0%nat request msgs ltac:(lia)) as Hfirst.
    rewrite Nat.add_0_r in Hfirst.
    match goal with
    | |- context [client attempts ?request ?msgs] =>
        destruct (Hfirst request msgs) as [response [-> Hresponse]]
    end.
    unfold AnyLlm.rejected in Hresponse.
    destruct (AnyLlm.examine JSON_parse (Some schema) response) as [result|note|e'];
      try discriminate.
    destruct remaining as [|remaining']; [lia|].
    specialize (IH (S remaining') (S attempts) (messages ++ [AnyLlm.system note])
                  ltac:(lia)).
    destruct (AnyLlm.attemptLoop JSON_parse client config (Some schema) otherOptions
                (S remaining') (S attempts) (messages ++ [AnyLlm.system note]))
      as [result events].
    cbn [fst snd] in *. destruct IH as [-> Hlen].
    + intros j request msgs Hj.
      destruct (Hrejected (S j) request msgs ltac:(lia)) as [r Hr].
      replace (attempts + S j)%nat with (S attempts + j)%nat in Hr by lia. eauto.
    + intros request msgs.
      replace (S attempts + k)%nat with (attempts + S k)%nat by lia. apply Hthrown.
    + cbn [AnyLlm.calls length]. split; [reflexivity|lia].
Qed.

End AnyLoop.

(** X26: with a schema, the any-llm [callLLM] returns validated data only.
    Whatever it returns is [null] after [maxRetries + 1] calls (the
    attempts are used up), or it is the data of a successful [safeParse]
    of the JSON value found between the first opening and the last
    closing brace of the reply to the last call of the run. *)
Theorem anyllm_result_validated
    (JSON_parse : string -> option JsVal) (env : gmap string string)
    (llmConfigValidator : Config.t -> Config.t + string)
    (newClient : Config.t -> string -> Completion AnyLlm.Client)
    (prompt : string) (cfg : string + Config.t) (options : AnyLlm.Options)
    (config : Config.t) (client : AnyLlm.Client) (schema : AnyLlm.ZodSchema)
    (v : JsVal) :
  AnyLlm.connected env llmConfigValidator newClient cfg config client ->
  AnyLlm.jsonSchema options = Some schema ->
  let run := AnyLlm.callLLM JSON_parse env llmConfigValidator newClient prompt cfg
               options in
  fst run = Return v ->
  (v = JNull /\ length (AnyLlm.calls (snd run)) = AnyLlm.attemptsAllowed options)
  \/ exists k sent text jsonMatch parsed,
       length (AnyLlm.calls (snd run)) = S k
       /\ AnyLlm.calls (snd run) !! k = Some sent
       /\ client k (AnyLlm.requestOf config (Some schema) (AnyLlm.otherOptions options)
                      sent)
            (AnyLlm.messagesOf config sent) = Return (JStr text)
       /\ AnyLlm.greedyBraces text = Some jsonMatch
       /\ JSON_parse jsonMatch = Some parsed
       /\ AnyLlm.safeParse schema parsed = inl v.
Proof.
  intros [Hresolve [Hkey Hclient]] Hschema run. subst run. unfold AnyLlm.callLLM.
  rewrite Hresolve, Hkey, Hclient, Hschema. cbn [negb].
  exact (attemptLoop_done JSON_parse client config (AnyLlm.otherOptions options) schema
           (AnyLlm.attemptsAllowed options) 0%nat
           (AnyLlm.initialMessages prompt options) v).
Qed.

Lemma anyllm_result_validated_witness :
  AnyLlm.connected Cases.openaiEnv AnyCases.lenient
    (AnyCases.answeringBy AnyCases.improving) (inl "gpt4o")
    (Config.preset "openai" "gpt-4o" "OPENAI_API_KEY")
    (fun attempts _ _ => AnyCases.improving attempts)
  /\ AnyLlm.jsonSchema (AnyCases.withSchema 2) = Some AnyCases.needsA
  /\ fst (AnyLlm.callLLM Json.parse Cases.openaiEnv AnyCases.lenient
            (AnyCases.answeringBy AnyCases.improving) Scenario.prompt (inl "gpt4o")
            (AnyCases.withSchema 2))
     = Return (JObj [("a", JObj [("b", JNum 1)])])
  /\ AnyCases.improving 2 = Return (JStr Scenario.nestedReply)
  /\ let run := AnyLlm.callLLM Json.parse Cases.openaiEnv AnyCases.lenient
                  (AnyCases.answeringBy AnyCases.improving) Scenario.prompt
                  (inl "gpt4o") (AnyCases.withSchema 2) in
     (JObj [("a", JObj [("b", JNum 1)])] = JNull
      /\ length (AnyLlm.calls (snd run)) = AnyLlm.attemptsAllowed (AnyCases.withSchema 2))
     \/ exists k sent text jsonMatch parsed,
          length (AnyLlm.calls (snd run)) = S k
          /\ AnyLlm.calls (snd run) !! k = Some sent
          /\ AnyCases.improving k = Return (JStr text)
          /\ AnyLlm.greedyBraces text = Some jsonMatch
          /\ Json.parse jsonMatch = Some parsed
          /\ AnyLlm.safeParse AnyCases.needsA parsed
             = inl (JObj [("a", JObj [("b", JNum 1)])]).
Proof.
  assert (H1 : AnyLlm.connected Cases.openaiEnv AnyCases.lenient
                 (AnyCases.answeringBy AnyCases.improving) (inl "gpt4o")
                 (Config.preset "openai" "gpt-4o" "OPENAI_API_KEY")
                 (fun attempts _ _ => AnyCases.improving attempts))
    by (split; [reflexivity|split; reflexivity]).
  assert (H3 : fst (AnyLlm.callLLM Json.parse Cases.openaiEnv AnyCases.lenient
                      (AnyCases.answeringBy AnyCases.improving) Scenario.prompt
                      (inl "gpt4o") (AnyCases.withSchema 2))
               = Return (JObj [("a", JObj [("b", JNum 1)])]))
    by (vm_compute; reflexivity).
  split; [exact H1|]. split; [reflexivity|]. split; [exact H3|]. split; [reflexivity|].
  exact (anyllm_result_validated Json.parse Cases.openaiEnv AnyCases.lenient
           (AnyCases.answeringBy AnyCases.improving) Scenario.prompt (inl "gpt4o")
           (AnyCases.withSchema 2) (Config.preset "openai" "gpt-4o" "OPENAI_API_KEY")
           (fun attempts _ _ => AnyCases.improving attempts) AnyCases.needsA
           (JObj [("a", JObj [("b", JNum 1)])]) H1 eq_refl H3).
Defined.

(** X27: the shape of every run of the any-llm [callLLM].  It calls the
    client at most [maxRetries + 1] times (3 when the option is absent);
    call number [k] (from 0) is made with the initial messages followed by
    [k] system messages, one corrective note per failed attempt; and the
    delays waited between the calls are 500 ms, 1000 ms, 1500 ms, ... *)
Theorem anyllm_run_shape
    (JSON_parse : string -> option JsVal) (env : gmap string string)
    (llmConfigValidator : Config.t -> Config.t + string)
    (newClient : Config.t -> string -> Completion AnyLlm.Client)
    (prompt : string) (cfg : string + Config.t) (options : AnyLlm.Options) :
  let events :=
    snd (AnyLlm.callLLM JSON_parse env llmConfigValidator newClient prompt cfg options) in
  (length (AnyLlm.calls events) <= AnyLlm.attemptsAllowed options)%nat
  /\ AnyLlm.waits events = AnyLlm.backoff 0 (length (AnyLlm.calls events) - 1)
  /\ forall k msgs,
       AnyLlm.calls events !! k = Some msgs ->
       exists notes,
         msgs = AnyLlm.initialMessages prompt options ++ notes
         /\ length notes = k
         /\ Forall (fun note => role note = "system") notes.
Proof.
  assert (Hnone : (length (AnyLlm.calls []) <= AnyLlm.attemptsAllowed options)%nat
            /\ AnyLlm.waits [] = AnyLlm.backoff 0 (length (AnyLlm.calls []) - 1)
            /\ forall k msgs,
                 AnyLlm.calls [] !! k = Some msgs ->
                 exists notes,
                   msgs = AnyLlm.initialMessages prompt options ++ notes
                   /\ length notes = k
                   /\ Forall (fun note => role note = "system") notes).
  { simpl. split; [lia|]. split; [reflexivity|]. intros k msgs. discriminate. }
  unfold AnyLlm.callLLM.
  destruct (AnyLlm.resolve llmConfigValidator cfg) as [config|e]; [|exact Hnone].
  destruct (negb _); [exact Hnone|].
  destruct (newClient config _) as [client|e]; [|exact Hnone].
  pose proof (attemptLoop_events JSON_parse client config (AnyLlm.otherOptions options)
                (AnyLlm.jsonSchema options) (AnyLlm.attemptsAllowed options) 0%nat
                (AnyLlm.initialMessages prompt options)) as Hshape.
  cbv zeta in Hshape. tauto.
Qed.

Example anyllm_run_improving :
  AnyLlm.waits
    (snd (AnyLlm.callLLM Json.parse Cases.openaiEnv AnyCases.lenient
            (AnyCases.answeringBy AnyCases.improving) Scenario.prompt (inl "gpt4o")
            (AnyCases.withSchema 2))) = [500; 1000]
  /\ map (map content)
       (AnyLlm.calls
          (snd (AnyLlm.callLLM Json.parse Cases.openaiEnv AnyCases.lenient
                  (AnyCases.answeringBy AnyCases.improving) Scenario.prompt
                  (inl "gpt4o") (AnyCases.withSchema 2))))
     = let directive :=
         "You MUST respond with a valid JSON object that matches the "
         +:+ "following schema. Do not include any text outside the JSON: "
         +:+ dq "{'a': 'any'}" in
       [ [directive; Scenario.prompt];
         [directive; Scenario.prompt; "Please respond with valid JSON."];
         [directive; Scenario.prompt; "Please respond with valid JSON.";
          "JSON validation failed: Required. Please correct."] ].
Proof. split; vm_compute; reflexivity. Qed.

(** X28: when the attempts are used up the any-llm [callLLM] does not
    throw: if every reply is a text that the loop does not accept (no
    brace pair, no JSON between the braces, or a value that the schema
    refuses), it returns [null] after exactly [maxRetries + 1] calls. *)
Theorem anyllm_exhausted_returns_null
    (JSON_parse : string -> option JsVal) (env : gmap string string)
    (llmConfigValidator : Config.t -> Config.t + string)
    (newClient : Config.t -> string -> Completion AnyLlm.Client)
    (prompt : string) (cfg : string + Config.t) (options : AnyLlm.Options)
    (config : Config.t) (client : AnyLlm.Client) (schema : AnyLlm.ZodSchema) :
  AnyLlm.connected env llmConfigValidator newClient cfg config client ->
  AnyLlm.jsonSchema options = Some schema ->
  (forall k request msgs,
     exists response,
       client k request msgs = Return response
       /\ AnyLlm.rejected JSON_parse schema response = true) ->
  let run := AnyLlm.callLLM JSON_parse env llmConfigValidator newClient prompt cfg
               options in
  fst run = Return JNull
  /\ length (AnyLlm.calls (snd run)) = AnyLlm.attemptsAllowed options.
Proof.
  intros [Hresolve [Hkey Hclient]] Hschema Hrejected. unfold AnyLlm.callLLM.
  rewrite Hresolve, Hkey, Hclient, Hschema. cbn [negb].
  now apply attemptLoop_all_rejected.
Qed.

Lemma anyllm_exhausted_returns_null_witness :
  AnyLlm.connected Cases.openaiEnv AnyCases.lenient
    (AnyCases.answeringBy AnyCases.stubborn) (inl "gpt4o")
    (Config.preset "openai" "gpt-4o" "OPENAI_API_KEY")
    (fun attempts _ _ => AnyCases.stubborn attempts)
  /\ AnyLlm.jsonSchema (AnyCases.withSchema 2) = Some AnyCases.needsA
  /\ (forall (k : nat) (request : AnyLlm.Request) (msgs : option (list Message)),
        exists response,
          AnyCases.stubborn k = Return response
          /\ AnyLlm.rejected Json.parse AnyCases.needsA response = true)
  /\ fst (AnyLlm.callLLM Json.parse Cases.openaiEnv AnyCases.lenient
            (AnyCases.answeringBy AnyCases.stubborn) Scenario.prompt (inl "gpt4o")
            (AnyCases.withSchema 2)) = Return JNull
  /\ length (AnyLlm.calls
               (snd (AnyLlm.callLLM Json.parse Cases.openaiEnv AnyCases.lenient
                       (AnyCases.answeringBy AnyCases.stubborn) Scenario.prompt
                       (inl "gpt4o") (AnyCases.withSchema 2)))) = 3%nat.
Proof.
  assert (H1 : AnyLlm.connected Cases.openaiEnv AnyCases.lenient
                 (AnyCases.answeringBy AnyCases.stubborn) (inl "gpt4o")
                 (Config.preset "openai" "gpt-4o" "OPENAI_API_KEY")
                 (fun attempts _ _ => AnyCases.stubborn attempts))
    by (split; [reflexivity|split; reflexivity]).
  assert (H3 : forall (k : nat) (request : AnyLlm.Request)
                 (msgs : option (list Message)),
             exists response,
               AnyCases.stubborn k = Return response
               /\ AnyLlm.rejected Json.parse AnyCases.needsA response = true)
    by (intros k request msgs; eexists; split; reflexivity).
  split; [exact H1|]. split; [reflexivity|]. split; [exact H3|].
  exact (anyllm_exhausted_returns_null Json.parse Cases.openaiEnv AnyCases.lenient
           (AnyCases.answeringBy AnyCases.stubborn) Scenario.prompt (inl "gpt4o")
           (AnyCases.withSchema 2) (Config.preset "openai" "gpt-4o" "OPENAI_API_KEY")
           (fun attempts _ _ => AnyCases.stubborn attempts) AnyCases.needsA
           H1 eq_refl H3).
Defined.

(** X29: the any-llm [callLLM] retries replies, not failures of the
    client.  When the first [k] replies are texts that the loop does not
    accept and call number [k + 1], still within [maxRetries + 1], throws,
    that exception leaves [callLLM] at once, after exactly [k + 1] calls. *)
Theorem anyllm_client_error_not_retried
    (JSON_parse : string -> option JsVal) (env : gmap string string)
    (llmConfigValidator : Config.t -> Config.t + string)
    (newClient : Config.t -> string -> Completion AnyLlm.Client)
    (prompt : string) (cfg : string + Config.t) (options : AnyLlm.Options)
    (config : Config.t) (client : AnyLlm.Client) (schema : AnyLlm.ZodSchema)
    (k : nat) (e : JsVal) :
  AnyLlm.connected env llmConfigValidator newClient cfg config client ->
  AnyLlm.jsonSchema options = Some schema ->
  (k < AnyLlm.attemptsAllowed options)%nat ->
  (forall j request msgs, (j < k)%nat ->
     exists response,
       client j request msgs = Return response
       /\ AnyLlm.rejected JSON_parse schema response = true) ->
  (forall request msgs, client k request msgs = Throw e) ->
  let run := AnyLlm.callLLM JSON_parse env llmConfigValidator newClient prompt cfg
               options in
  fst run = Throw e
  /\ length (AnyLlm.calls (snd run)) = S k.
Proof.
  intros [Hresolve [Hkey Hclient]] Hschema Hk Hrejected Hthrown.
  unfold AnyLlm.callLLM. rewrite Hresolve, Hkey, Hclient, Hschema. cbn [negb].
  apply attemptLoop_thrown; [exact Hk|exact Hrejected|exact Hthrown].
Qed.

Lemma anyllm_client_error_not_retried_witness :
  AnyLlm.connected Cases.openaiEnv AnyCases.lenient
    (AnyCases.answeringBy AnyCases.dropping) (inl "gpt4o")
    (Config.preset "openai" "gpt-4o" "OPENAI_API_KEY")
    (fun attempts _ _ => AnyCases.dropping attempts)
  /\ AnyLlm.jsonSchema (AnyCases.withSchema 2) = Some AnyCases.needsA
  /\ (1 < AnyLlm.attemptsAllowed (AnyCases.withSchema 2))%nat
  /\ (forall (j : nat) (request : AnyLlm.Request) (msgs : option (list Message)),
        (j < 1)%nat ->
        exists response,
          AnyCases.dropping j = Return response
          /\ AnyLlm.rejected Json.parse AnyCases.needsA response = true)
  /\ (forall (request : AnyLlm.Request) (msgs : option (list Message)),
        AnyCases.dropping 1 = Throw (mkError "Error" "Connection error."))
  /\ fst (AnyLlm.callLLM Json.parse Cases.openaiEnv AnyCases.lenient
            (AnyCases.answeringBy AnyCases.dropping) Scenario.prompt (inl "gpt4o")
            (AnyCases.withSchema 2)) = Throw (mkError "Error" "Connection error.")
  /\ length (AnyLlm.calls
               (snd (AnyLlm.callLLM Json.parse Cases.openaiEnv AnyCases.lenient
                       (AnyCases.answeringBy AnyCases.dropping) Scenario.prompt
                       (inl "gpt4o") (AnyCases.withSchema 2)))) = 2%nat.
Proof.
  assert (H1 : AnyLlm.connected Cases.openaiEnv AnyCases.lenient
                 (AnyCases.answeringBy AnyCases.dropping) (inl "gpt4o")
                 (Config.preset "openai" "gpt-4o" "OPENAI_API_KEY")
                 (fun attempts _ _ => AnyCases.dropping attempts))
    by (split; [reflexivity|split; reflexivity]).
  assert (H3 : (1 < AnyLlm.attemptsAllowed (AnyCases.withSchema 2))%nat)
    by (vm_compute; lia).
  assert (H4 : forall (j : nat) (request : AnyLlm.Request)
                 (msgs : option (list Message)),
             (j < 1)%nat ->
             exists response,
               AnyCases.dropping j = Return response
               /\ AnyLlm.rejected Json.parse AnyCases.needsA response = true).
  { intros j request msgs Hj. assert (j = 0%nat) as -> by lia.
    eexists. split; reflexivity. }
  assert (H5 : forall (request : AnyLlm.Request) (msgs : option (list Message)),
             AnyCases.dropping 1 = Throw (mkError "Error" "Connection error."))
    by (intros; reflexivity).
  split; [exact H1|]. split; [reflexivity|]. split; [exact H3|]. split; [exact H4|].
  split; [exact H5|].
  exact (anyllm_client_error_not_retried Json.parse Cases.openaiEnv AnyCases.lenient
           (AnyCases.answeringBy AnyCases.dropping) Scenario.prompt (inl "gpt4o")
           (AnyCases.withSchema 2) (Config.preset "openai" "gpt-4o" "OPENAI_API_KEY")
           (fun attempts _ _ => AnyCases.dropping attempts) AnyCases.needsA
           1%nat (mkError "Error" "Connection error.") H1 eq_refl H3 H4 H5).
Defined.
